(** * The trainer of sequence-models-comparisons, embedded in Rocq

    This development embeds [src/trainer.py] (class [Trainer]) and proves
    properties of its checkpoint lookup, its two-phase training run and its
    evaluation routine.

    Modelling conventions.
    - Python integers are [Z]; [a % b] is [Z.modulo] and raises
      [ZeroDivisionError] when [b = 0].
    - Python floats are idealised: a loss value ([loss.item()]) is a rational
      [Q]; [best_loss], which starts at [float('inf')], is a rational or
      [Inf].  NaN and rounding are outside the model.
    - Exceptions are an error monad layered over explicit state passing: the
      state (the trainer's mutable [best_loss] attribute, the run's checkpoint
      directory and the sequence of logging / tensorboard / [torch.save]
      calls) survives an exception, as it does in Python.
    - The deep-learning framework (model, optimizer, tensors, samplers) is an
      interface, class [Framework]; its operations are assumed not to raise.
      Seeding, device placement, the set-up of the process group and of the
      log handlers, and the text of the log messages are not modelled.
    - The module constants [STEPS.*] live in [src/consts.py], which is not
      part of the sources at hand; they are parameters (record [STEPS]).
      So are the dataset wrappers and the architectures behind
      [get_dataset_by_name] and [get_arch_by_name] (class [Registry]). *)

From Stdlib Require Import ZArith QArith List Sorted Lia Ascii String.
From stdpp Require Import gmap strings.

Close Scope Q_scope.
Open Scope Z_scope.

(** ** Python exceptions and the state-and-error monad *)

Inductive PyError : Type :=
| ValueError
| ZeroDivisionError
| StopIteration
| FileNotFoundError.

Inductive result (A : Type) : Type :=
| Ok (a : A)
| Raise (e : PyError).
Arguments Ok {A} a.
Arguments Raise {A} e.

(** A computation over a state [S]: the state is returned on both outcomes. *)
Definition M (S A : Type) : Type := S -> S * result A.

Definition ret {S A} (a : A) : M S A := fun s => (s, Ok a).
Definition raise {S A} (e : PyError) : M S A := fun s => (s, Raise e).
Definition bind {S A B} (m : M S A) (k : A -> M S B) : M S B :=
  fun s => match m s with
           | (s', Ok a) => k a s'
           | (s', Raise e) => (s', Raise e)
           end.
Definition get {S} : M S S := fun s => (s, Ok s).
Definition modify {S} (f : S -> S) : M S unit := fun s => (f s, Ok tt).
Definition lift {S A} (r : result A) : M S A := fun s => (s, r).

#[global] Instance M_ret {S} : MRet (M S) := fun _ a => ret a.
#[global] Instance M_bind {S} : MBind (M S) := fun _ _ k m => bind m k.

(** [for x in l: acc = body x acc] *)
Fixpoint for_each {S A B} (l : list A) (body : A -> B -> M S B) (acc : B) : M S B :=
  match l with
  | [] => ret acc
  | x :: l' => bind (body x acc) (for_each l' body)
  end.

(** [when b: m] for a statement [if b: m] without an else branch. *)
Definition when {S} (b : bool) (m : M S unit) : M S unit :=
  if b then m else ret tt.

(** ** Python built-ins used by the trainer *)

(** [a % b] on integers. *)
Definition py_mod (a b : Z) : result Z :=
  if b =? 0 then Raise ZeroDivisionError else Ok (a mod b).

(** [range(a, b)] *)
Definition range (a b : Z) : list Z :=
  map (fun i => a + Z.of_nat i) (seq 0 (Z.to_nat (b - a))).

(** [enumerate(l)] *)
Definition enumerate {A} (l : list A) : list (Z * A) :=
  combine (map Z.of_nat (seq 0 (length l))) l.

(** [max(l, key=key)]: the first element whose key is maximal; [ValueError]
    on an empty sequence. *)
Fixpoint max_from {A} (key : A -> Z) (best : A) (l : list A) : A :=
  match l with
  | [] => best
  | x :: l' => max_from key (if key best <? key x then x else best) l'
  end.

Definition py_max {A} (key : A -> Z) (l : list A) : result A :=
  match l with
  | [] => Raise ValueError
  | x :: l' => Ok (max_from key x l')
  end.

(** Floats that may be [float('inf')]. *)
Inductive float : Type :=
| Fin (q : Q)
| Inf.

(** [x < y] *)
Definition flt (x y : float) : bool :=
  match x, y with
  | Fin a, Fin b => negb (Qle_bool b a)
  | Fin _, Inf => true
  | Inf, _ => false
  end.

(** [min(x, y)]: Python returns [x] unless [y < x]. *)
Definition py_min (x y : float) : float := if flt y x then y else x.

(** [x <= y] as a proposition, for statements. *)
Definition fle (x y : float) : Prop :=
  match x, y with
  | Fin a, Fin b => (a <= b)%Q
  | _, Inf => True
  | Inf, Fin _ => False
  end.

#[global] Instance result_ret : MRet result := fun _ a => Ok a.
#[global] Instance result_bind : MBind result :=
  fun _ _ k r => match r with Ok a => k a | Raise e => Raise e end.

(** ** [torch.utils.data.DataLoader] *)

(** [BatchSampler.__iter__] with [drop_last=False]: fill a batch, yield it
    when it has [batch_size] elements, yield what is left at the end. *)
Fixpoint batch_sampler {A} (batch_size : nat) (batch : list A) (sampler : list A)
  : list (list A) :=
  match sampler with
  | [] => match batch with [] => [] | _ => [batch] end
  | idx :: rest =>
      let batch' := batch ++ [idx] in
      if (length batch' =? batch_size)%nat
      then batch' :: batch_sampler batch_size [] rest
      else batch_sampler batch_size batch' rest
  end.

(** How a loader orders its dataset. *)
Inductive Sampler : Type :=
| SequentialSampler
| RandomSampler
| DistributedSampler (num_replicas rank : Z).

Record DataLoaderT (A : Type) : Type := {
  dl_dataset : list A;
  dl_batch_size : Z;
  dl_sampler : Sampler
}.
Arguments dl_dataset {A} _.
Arguments dl_batch_size {A} _.
Arguments dl_sampler {A} _.

(** What the constructor of a sampler refuses: [RandomSampler], which
    [DataLoader(..., shuffle=True)] builds, a dataset without examples (its
    number of samples must be positive); [DistributedSampler] a rank outside
    [0, num_replicas).  [SequentialSampler] takes any dataset. *)
Definition sampler_raises {A} (sampler : Sampler) (dataset : list A) : bool :=
  match sampler with
  | SequentialSampler => false
  | RandomSampler => match dataset with [] => true | _ :: _ => false end
  | DistributedSampler num_replicas rank => (rank <? 0) || (num_replicas <=? rank)
  end.

(** Building the sampler and the loader raises [ValueError] when the batch
    size is not positive or the sampler refuses its arguments. *)
Definition DataLoader {A} (dataset : list A) (batch_size : Z) (sampler : Sampler)
  : result (DataLoaderT A) :=
  if batch_size <=? 0 then Raise ValueError
  else if sampler_raises sampler dataset then Raise ValueError
  else Ok {| dl_dataset := dataset; dl_batch_size := batch_size; dl_sampler := sampler |}.

(** [len(data_loader)] of a loader that visits the whole dataset:
    [(len(sampler) + batch_size - 1) // batch_size]. *)
Definition len_loader {A} (dl : DataLoaderT A) : Z :=
  (Z.of_nat (length (dl_dataset dl)) + dl_batch_size dl - 1) / dl_batch_size dl.

(** ** Data model *)

(** [src.types.PHASE].  The trainer compares phase names against the two
    constants and raises [ValueError] on anything else; [OTHER_PHASE] stands
    for such a value. *)
Inductive PHASE : Type :=
| AUTOREGRESSIVE
| CLASSIFICATION
| OTHER_PHASE (name : string).

Inductive SPLIT : Type :=
| TRAIN
| TEST.

(** [nn.CrossEntropyLoss(...)]: [ignore_index] is [None] when the argument is
    not passed. *)
Inductive LossFn : Type :=
| CrossEntropyLoss (ignore_index : option Z).

(** The constants of [src.consts.STEPS]. *)
Record STEPS : Type := {
  LOG_STEP : Z;
  WARMUP_STEPS : Z;
  SAVE_STEP : Z;
  EVAL_STEP : Z;
  PRINT_GRAPH : bool
}.

(** The metrics dictionary: keys in insertion order. *)
Definition Metrics : Type := list (string * Q).

(** The deep-learning framework and the dataset / architecture registry, as
    far as the trainer uses them.  A batch is the list of its examples; a
    state dict is identified with the object it is loaded into. *)
Class Framework : Type := {
  Model : Type;
  Optimizer : Type;
  Input : Type;
  Target : Type;
  Output : Type;
  DATASET : Type;
  Target_eq_dec :: EqDecision Target;
  (** [optim.Adam(model.parameters(), lr=...)] *)
  get_optimizer : Model -> Optimizer;
  (** [architecture.forward(inputs)] *)
  forward : Model -> list Input -> Output;
  (** [loss_fn(outputs, labels).item()]; the flag tells whether both tensors
      are flattened first ([outputs.view(-1, ...)], [labels.view(-1)]) *)
  loss_item : LossFn -> bool -> Output -> list Target -> Q;
  (** [optimizer.zero_grad(); ...; loss.backward(); optimizer.step()] *)
  backward_step : LossFn -> bool -> Model -> Optimizer ->
                  list Input -> list Target -> Model * Optimizer;
  (** [torch.max(outputs.data, 1)[1]]: the predicted class of each row *)
  torch_max_1 : Output -> list Target;
  (** the order drawn by [DataLoader(..., shuffle=True)] in a given epoch *)
  shuffle : Z -> list (Input * Target) -> list (Input * Target);
  (** the part of the dataset that [DistributedSampler(num_replicas, rank)]
      gives a rank *)
  distributed_sampler : Z -> Z -> list (Input * Target) -> list (Input * Target)
}.

(** A dataset wrapper, [get_dataset_by_name(name)(phase_name)]: the fields
    the trainer reads. *)
Record DatasetWrapper {F : Framework} : Type := {
  phase_name : PHASE;
  pad_token_id : Z;
  get_dataset : SPLIT -> list (Input * Target)
}.

(** The registry of [src.utils.experiment_runner]: the dataset wrapper of a
    dataset name and a phase, and the model that the configured architecture
    builds for a dataset wrapper
    ([get_arch_by_name(...)(...).initialize_model(dataset_wrapper)]). *)
Class Registry {F : Framework} : Type := {
  get_dataset_by_name : option DATASET -> PHASE -> DatasetWrapper;
  initialize_model : DatasetWrapper -> Model
}.

Section Trainer.

Context {F : Framework} {R : Registry}.

(** The values of [STEPS.LOG_STEP] and the like. *)
Variable consts : STEPS.

Record Checkpoint : Type := {
  epoch : Z;
  step : Z;
  model_state_dict : Model;
  optimizer_state_dict : Optimizer;
  best_loss : float;
  during_pretraining : bool
}.

(** The messages passed to [self.logger.info]. *)
Inductive LogMsg : Type :=
| MsgTraining (p : PHASE)
| MsgCheckpointLoaded
| MsgParamsCount
| MsgStep (p : PHASE) (ep : Z) (st : Z) (loss : Q)
| MsgCheckpointSaved (st : Z)
| MsgTestMetrics (m : Metrics).

(** The calls that leave the process, in program order. *)
Inductive Event : Type :=
| LoggerInfo (m : LogMsg)
| AddScalar (p : PHASE) (name : string) (value : Q) (st : Z)
| AddGraph
| TorchSave (st : Z) (c : Checkpoint).

(** The mutable state of a run: [self.best_loss], the run's checkpoint
    directory ([None] when it does not exist; a file is keyed by its stem
    read as an integer, as [int(x.stem)] reads it) and the calls made so
    far. *)
Record World : Type := {
  self_best_loss : float;
  checkpoints_dir : option (gmap Z Checkpoint);
  events : list Event
}.

Definition set_best_loss (b : float) (w : World) : World :=
  {| self_best_loss := b; checkpoints_dir := checkpoints_dir w; events := events w |}.

Definition emit (e : Event) : M World unit :=
  modify (fun w => {| self_best_loss := self_best_loss w;
                      checkpoints_dir := checkpoints_dir w;
                      events := events w ++ [e] |}).

(** [path.parent.mkdir(parents=True, exist_ok=True); torch.save(c, path)] *)
Definition torch_save (st : Z) (c : Checkpoint) : M World unit :=
  modify (fun w => {| self_best_loss := self_best_loss w;
                      checkpoints_dir := Some (<[st := c]> (default ∅ (checkpoints_dir w)));
                      events := events w ++ [TorchSave st c] |}).

(** The trainer's attributes that a run does not change, and the two
    entries of [training_config] that the loops read. *)
Record Trainer : Type := {
  _finetune_dataset : DATASET;
  _pretrain_dataset : option DATASET;
  _rank : Z;
  _world_size : Z;
  batch_size : Z;
  epochs : Z
}.

Definition is_master_process (self : Trainer) : bool := _rank self =? 0.
Definition is_distributed (self : Trainer) : bool := 1 <? _world_size self.

(** Iterating a loader in epoch [ep]: the sampler's order, cut into
    batches. *)
Definition iter_loader (dl : DataLoaderT (Input * Target)) (ep : Z)
  : list (list (Input * Target)) :=
  let order :=
    match dl_sampler dl with
    | SequentialSampler => dl_dataset dl
    | RandomSampler => shuffle ep (dl_dataset dl)
    | DistributedSampler num_replicas rank =>
        distributed_sampler num_replicas rank (dl_dataset dl)
    end in
  batch_sampler (Z.to_nat (dl_batch_size dl)) [] order.

(** ** The trainer's methods *)

Definition get_loss_fn (phase_name : PHASE) (pad_token_id : Z) : result LossFn :=
  match phase_name with
  | CLASSIFICATION => Ok (CrossEntropyLoss None)
  | AUTOREGRESSIVE => Ok (CrossEntropyLoss (Some pad_token_id))
  | OTHER_PHASE _ => Raise ValueError
  end.

Definition save_checkpoint (model : Model) (optimizer : Optimizer)
    (ep st : Z) (pretraining : bool) : M World unit :=
  w ← get;
  let checkpoint :=
    {| epoch := ep;
       step := st;
       model_state_dict := model;
       optimizer_state_dict := optimizer;
       best_loss := self_best_loss w;
       during_pretraining := pretraining |} in
  torch_save st checkpoint;;
  emit (LoggerInfo (MsgCheckpointSaved st)).

(** The path returned is the stem of the chosen file. *)
Definition get_latest_chkpt : M World (option Z) :=
  w ← get;
  match checkpoints_dir w with
  | Some dir =>
      entry ← lift (py_max fst (map_to_list dir));
      ret (Some (fst entry))
  | None => ret None
  end.

Definition torch_load (path : Z) : M World Checkpoint :=
  w ← get;
  match checkpoints_dir w ≫= (fun dir => dir !! path) with
  | Some c => ret c
  | None => raise FileNotFoundError
  end.

Definition load_checkpoint : M World (option Checkpoint) :=
  latest ← get_latest_chkpt;
  match latest with
  | Some checkpoint_path =>
      checkpoint ← torch_load checkpoint_path;
      ret (Some checkpoint)
  | None => ret None
  end.

(** [(predicted == labels).sum().item()] *)
Definition eq_sum (predicted labels : list Target) : Z :=
  Z.of_nat (length (List.filter (fun pl => bool_decide (fst pl = snd pl))
                                (combine predicted labels))).

(** The accumulators of the evaluation loop. *)
Record EvalAcc : Type := {
  test_loss : Q;
  correct : Z;
  total : Z
}.

(** One iteration of the loop of [_evaluate_model]. *)
Definition eval_batch (loss_fn : LossFn) (model : Model)
    (acc : EvalAcc) (data : list (Input * Target)) : EvalAcc :=
  let inputs := map fst data in
  let labels := map snd data in
  let outputs := forward model inputs in
  let loss := loss_item loss_fn false outputs labels in
  let predicted := torch_max_1 outputs in
  {| test_loss := (test_loss acc + loss)%Q;
     total := total acc + Z.of_nat (length labels);
     correct := correct acc + eq_sum predicted labels |}.

Definition _evaluate_model (self : Trainer) (model : Model)
    (dataset : DatasetWrapper) (split : SPLIT) : result Metrics :=
  data_loader ← DataLoader (get_dataset dataset split) (batch_size self) SequentialSampler;
  loss_fn ← get_loss_fn CLASSIFICATION (pad_token_id dataset);
  let acc := fold_left (eval_batch loss_fn model) (iter_loader data_loader 0)
                       {| test_loss := 0%Q; correct := 0; total := 0 |} in
  if total acc =? 0 then Raise ZeroDivisionError
  else
    let accuracy := (inject_Z (100 * correct acc) / inject_Z (total acc))%Q in
    if len_loader data_loader =? 0 then Raise ZeroDivisionError
    else Ok [("Test Loss"%string, (test_loss acc / inject_Z (len_loader data_loader))%Q);
               ("Test Accuracy"%string, accuracy)].

(** The local variables of [_train_model] that the loops update. *)
Record Locals : Type := {
  l_model : Model;
  l_optimizer : Optimizer;
  l_step : Z;
  l_metrics : Metrics
}.

(** [step >= STEPS.WARMUP_STEPS and step % interval == 0]: the remainder is
    computed only past the warm-up. *)
Definition past_warmup_and_due (st interval : Z) : result bool :=
  if WARMUP_STEPS consts <=? st
  then r ← py_mod st interval; Ok (r =? 0)
  else Ok false.

(** [phase == PHASE.AUTOREGRESSIVE] *)
Definition is_autoregressive (phase : PHASE) : bool :=
  match phase with
  | AUTOREGRESSIVE => true
  | _ => false
  end.

(** The body of [if step % STEPS.LOG_STEP == 0]: the loss goes to
    tensorboard, [best_loss] takes the minimum, the step is logged. *)
Definition log_training_loss (phase : PHASE) (ep st : Z) (loss : Q) : M World unit :=
  emit (AddScalar phase "Loss" loss st);;
  w ← get;
  modify (set_best_loss (py_min (self_best_loss w) (Fin loss)));;
  emit (LoggerInfo (MsgStep phase ep st loss)).

(** The body of the inner loop of [_train_model]. *)
Definition train_batch (self : Trainer) (dataset_wrapper : DatasetWrapper)
    (loss_fn : LossFn) (ep : Z) (i_data : Z * list (Input * Target))
    (loc : Locals) : M World Locals :=
  let inputs := map fst (snd i_data) in
  let labels := map snd (snd i_data) in
  let outputs := forward (l_model loc) inputs in
  flat ← match phase_name dataset_wrapper with
         | CLASSIFICATION => ret false
         | AUTOREGRESSIVE => ret true
         | OTHER_PHASE _ => raise ValueError
         end;
  let loss := loss_item loss_fn flat outputs labels in
  let '(model, optimizer) :=
    backward_step loss_fn flat (l_model loc) (l_optimizer loc) inputs labels in
  let st := l_step loc + 1 in
  if is_master_process self then
    r ← lift (py_mod st (LOG_STEP consts));
    when (r =? 0) (log_training_loss (phase_name dataset_wrapper) ep st loss);;
    save_due ← lift (past_warmup_and_due st (SAVE_STEP consts));
    when save_due
      (save_checkpoint model optimizer ep st
         (is_autoregressive (phase_name dataset_wrapper)));;
    eval_due ← lift (past_warmup_and_due st (EVAL_STEP consts));
    if (eval_due : bool) then
      metrics ← lift (_evaluate_model self model dataset_wrapper TEST);
      for_each metrics
        (fun kv _ => emit (AddScalar (phase_name dataset_wrapper) (fst kv) (snd kv) st)) tt;;
      emit (LoggerInfo (MsgTestMetrics metrics));;
      ret {| l_model := model; l_optimizer := optimizer; l_step := st; l_metrics := metrics |}
    else
      ret {| l_model := model; l_optimizer := optimizer; l_step := st;
              l_metrics := l_metrics loc |}
  else
    ret {| l_model := model; l_optimizer := optimizer; l_step := st;
            l_metrics := l_metrics loc |}.

(** [for i, data in enumerate(data_loader): ...] in epoch [ep]. *)
Definition train_epoch (self : Trainer) (dataset_wrapper : DatasetWrapper)
    (loss_fn : LossFn) (data_loader : DataLoaderT (Input * Target))
    (ep : Z) (loc : Locals) : M World Locals :=
  for_each (enumerate (iter_loader data_loader ep))
           (train_batch self dataset_wrapper loss_fn ep) loc.

(** [for epoch in range(start_epoch, epochs): ...] *)
Definition train_epochs (self : Trainer) (dataset_wrapper : DatasetWrapper)
    (loss_fn : LossFn) (data_loader : DataLoaderT (Input * Target))
    (start_epoch : Z) (loc : Locals) : M World Locals :=
  for_each (range start_epoch (epochs self))
           (train_epoch self dataset_wrapper loss_fn data_loader) loc.

(** The values of the loop variables when the loops start: taken from the
    checkpoint when there is one ([load_state_dict], [start_epoch],
    [step]), fresh otherwise. *)
Definition start_epoch (checkpoint : option Checkpoint) : Z :=
  match checkpoint with
  | Some c => epoch c
  | None => 0
  end.

Definition start_locals (model : Model) (optimizer : Optimizer)
    (checkpoint : option Checkpoint) : Locals :=
  match checkpoint with
  | Some c =>
      {| l_model := model_state_dict c; l_optimizer := optimizer_state_dict c;
         l_step := step c; l_metrics := [] |}
  | None =>
      {| l_model := model; l_optimizer := optimizer; l_step := 0; l_metrics := [] |}
  end.

(** [_train_model] up to its [return]: the loop variables at the end. *)
Definition train_phase (self : Trainer) (phase : PHASE)
    (checkpoint : option Checkpoint) : M World Locals :=
  dataset_wrapper ←
    match phase with
    | CLASSIFICATION => ret (get_dataset_by_name (Some (_finetune_dataset self)) phase)
    | AUTOREGRESSIVE => ret (get_dataset_by_name (_pretrain_dataset self) phase)
    | OTHER_PHASE _ => raise ValueError
    end;
  let dataset := get_dataset dataset_wrapper TRAIN in
  let model := initialize_model dataset_wrapper in
  let optimizer := get_optimizer model in
  emit (LoggerInfo (MsgTraining phase));;
  match checkpoint with
  | Some c =>
      modify (set_best_loss (best_loss c));;
      emit (LoggerInfo MsgCheckpointLoaded)
  | None => ret tt
  end;;
  emit (LoggerInfo MsgParamsCount);;
  when (PRINT_GRAPH consts && is_master_process self)
    (match dataset with
     | [] => raise StopIteration
     | _ :: _ => emit AddGraph
     end);;
  data_loader ← lift (DataLoader dataset (batch_size self)
                        (if is_distributed self
                         then DistributedSampler (_world_size self) (_rank self)
                         else RandomSampler));
  loss_fn ← lift (get_loss_fn (phase_name dataset_wrapper) (pad_token_id dataset_wrapper));
  train_epochs self dataset_wrapper loss_fn data_loader (start_epoch checkpoint)
               (start_locals model optimizer checkpoint).

Definition _train_model (self : Trainer) (phase : PHASE)
    (checkpoint : option Checkpoint) : M World Metrics :=
  loc ← train_phase self phase checkpoint;
  ret (l_metrics loc).

(** [x or d] on an optional integer. *)
Definition py_or (x : option Z) (d : Z) : Z :=
  match x with
  | Some v => if v =? 0 then d else v
  | None => d
  end.

(** The test of the [if] in [train_and_evaluate_model]. *)
Definition pretrain_first (self : Trainer) (checkpoint : option Checkpoint) : bool :=
  match checkpoint with
  | Some c => during_pretraining c
  | None => false
  end
  || match _pretrain_dataset self with
     | Some _ => true
     | None => false
     end.

(** [self._rank = rank or 0; self._world_size = world_size or 1] *)
Definition set_ranks (self : Trainer) (rank world_size : option Z) : Trainer :=
  {| _finetune_dataset := _finetune_dataset self;
     _pretrain_dataset := _pretrain_dataset self;
     _rank := py_or rank 0;
     _world_size := py_or world_size 1;
     batch_size := batch_size self;
     epochs := epochs self |}.

Definition train_and_evaluate_model (self0 : Trainer) (rank world_size : option Z)
  : M World Metrics :=
  let self := set_ranks self0 rank world_size in
  checkpoint ← load_checkpoint;
  checkpoint ←
    (if pretrain_first self checkpoint
     then _train_model self AUTOREGRESSIVE checkpoint;; ret None
     else ret checkpoint);
  _train_model self CLASSIFICATION checkpoint.

(** The state that [Trainer.__init__] leaves: [best_loss] is
    [float('inf')]; nothing has been logged. *)
Definition init_world (dir : option (gmap Z Checkpoint)) : World :=
  {| self_best_loss := Inf; checkpoints_dir := dir; events := [] |}.

End Trainer.

Arguments Checkpoint {F}.
Arguments World {F}.
Arguments Event {F}.
Arguments Trainer {F}.
Arguments Locals {F}.

(** * Specification vocabulary

    The predicates in which the properties of the trainer are stated: a
    program logic for the monad, and what the calls and the state of a run
    may be. *)

(** [wpx m Q QE s]: run from [s], [m] ends in a state and a value that
    satisfy [Q], or raises an exception and ends in a state that satisfies
    [QE]. *)
Definition wpx {S A} (m : M S A) (Q : A -> S -> Prop) (QE : PyError -> S -> Prop)
    (s : S) : Prop :=
  match m s with
  | (s', Ok a) => Q a s'
  | (s', Raise e) => QE e s'
  end.

(** A computation preserves [J] when [J] holds afterwards, whether it
    returns or raises. *)
Definition preserves {S A} (J : S -> Prop) (m : M S A) : Prop :=
  forall s, J s -> wpx m (fun _ s' => J s') (fun _ s' => J s') s.

(** A computation that always returns. *)
Definition never_raises {S A} (m : M S A) : Prop :=
  forall s, exists s' a, m s = (s', Ok a).

(** The sum and the mean of a list of rationals. *)
Definition Qsum (l : list Q) : Q := fold_right Qplus 0%Q l.

Definition mean (l : list Q) : Q := (Qsum l / inject_Z (Z.of_nat (length l)))%Q.

Section Vocabulary.

Context {F : Framework} {R : Registry}.

Variable consts : STEPS.

(** The loss of one evaluation batch under a loss function, and the number
    of predictions of a batch that match its labels. *)
Definition batch_loss (loss_fn : LossFn) (model : Model) (data : list (Input * Target)) : Q :=
  loss_item loss_fn false (forward model (map fst data)) (map snd data).

Definition batch_matches (model : Model) (data : list (Input * Target)) : Z :=
  eq_sum (torch_max_1 (forward model (map fst data))) (map snd data).

(** The training losses sent to tensorboard, oldest first: the values of
    the scalars named Loss. *)
Fixpoint logged_losses (evs : list Event) : list Q :=
  match evs with
  | [] => []
  | AddScalar _ name value _ :: rest =>
      if String.eqb name "Loss" then value :: logged_losses rest else logged_losses rest
  | _ :: rest => logged_losses rest
  end.

(** What a call may be while the loops of phase [p] run: a checkpoint
    written carries the flag of the phase and the step it is named by, and
    no phase is announced and no checkpoint loaded. *)
Definition phase_event (p : PHASE) (e : Event) : Prop :=
  match e with
  | TorchSave st c => during_pretraining c = is_autoregressive p /\ step c = st
  | LoggerInfo (MsgTraining _) => False
  | LoggerInfo MsgCheckpointLoaded => False
  | _ => True
  end.

(** From [w] to [w']: calls of phase [p] were made, and [best_loss] went
    down to the minimum of its old value and the losses logged. *)
Definition training_rel (p : PHASE) (w w' : World) : Prop :=
  exists new,
    events w' = events w ++ new /\
    Forall (phase_event p) new /\
    self_best_loss w' = fold_left py_min (map Fin (logged_losses new)) (self_best_loss w).

(** The number of batches of an epoch, and of a list of epochs. *)
Definition batches_in (dl : DataLoaderT (Input * Target)) (ep : Z) : Z :=
  Z.of_nat (length (iter_loader dl ep)).

Definition steps_in (dl : DataLoaderT (Input * Target)) (eps : list Z) : Z :=
  fold_right Z.add 0 (map (batches_in dl) eps).

(** The loader that [_train_model] builds for a trainer and a dataset. *)
Definition train_loader (self : Trainer) (dataset : list (Input * Target))
  : DataLoaderT (Input * Target) :=
  {| dl_dataset := dataset;
     dl_batch_size := batch_size self;
     dl_sampler := if is_distributed self
                   then DistributedSampler (_world_size self) (_rank self)
                   else RandomSampler |}.

(** The trainer can run batches of a dataset wrapper: the phase is one of
    the two known ones and, on the coordinating worker, the intervals are
    not zero and the test split can be evaluated. *)
Definition batch_can_run (self : Trainer) (dataset_wrapper : DatasetWrapper) : Prop :=
  (phase_name dataset_wrapper = CLASSIFICATION \/
   phase_name dataset_wrapper = AUTOREGRESSIVE) /\
  (is_master_process self = true ->
   LOG_STEP consts <> 0 /\ SAVE_STEP consts <> 0 /\ EVAL_STEP consts <> 0 /\
   0 < batch_size self /\ get_dataset dataset_wrapper TEST <> []).

(** The dataset wrapper that [_train_model] builds for a known phase. *)
Definition phase_dataset_wrapper (self : Trainer) (phase : PHASE) : DatasetWrapper :=
  match phase with
  | CLASSIFICATION => get_dataset_by_name (Some (_finetune_dataset self)) phase
  | _ => get_dataset_by_name (_pretrain_dataset self) phase
  end.

(** [_train_model] from the log of the parameter count on. *)
Definition phase_loops (self : Trainer) (dataset_wrapper : DatasetWrapper)
    (checkpoint : option Checkpoint) : M World Locals :=
  let dataset := get_dataset dataset_wrapper TRAIN in
  let model := initialize_model dataset_wrapper in
  let optimizer := get_optimizer model in
  emit (LoggerInfo MsgParamsCount);;
  when (PRINT_GRAPH consts && is_master_process self)
    (match dataset with
     | [] => raise StopIteration
     | _ :: _ => emit AddGraph
     end);;
  data_loader ← lift (DataLoader dataset (batch_size self)
                        (if is_distributed self
                         then DistributedSampler (_world_size self) (_rank self)
                         else RandomSampler));
  loss_fn ← lift (get_loss_fn (phase_name dataset_wrapper) (pad_token_id dataset_wrapper));
  train_epochs consts self dataset_wrapper loss_fn data_loader (start_epoch checkpoint)
               (start_locals model optimizer checkpoint).

(** The state in which the loops of a phase start: the phase is announced
    and the checkpoint, when there is one, is loaded. *)
Definition phase_start (phase : PHASE) (checkpoint : option Checkpoint) (w : World) : World :=
  {| self_best_loss := match checkpoint with
                       | Some c => best_loss c
                       | None => self_best_loss w
                       end;
     checkpoints_dir := checkpoints_dir w;
     events := events w ++ LoggerInfo (MsgTraining phase)
                        :: match checkpoint with
                           | Some _ => [LoggerInfo MsgCheckpointLoaded]
                           | None => []
                           end |}.

(** The step of the checkpoint, or 0. *)
Definition start_step (checkpoint : option Checkpoint) : Z :=
  match checkpoint with
  | Some c => step c
  | None => 0
  end.

(** The sampler of the training loader can be built: in a distributed run
    the rank lies in [0, world_size); otherwise the loader shuffles, and
    the training split has an example. *)
Definition sampler_can_be_built (self : Trainer) (dataset : list (Input * Target)) : Prop :=
  if is_distributed self
  then 0 <= _rank self < _world_size self
  else dataset <> [].

(** A phase can run: its batches can, the batch size is positive, the
    sampler can be built and, when the graph is to be printed, the training
    split is not empty. *)
Definition phase_can_run (self : Trainer) (phase : PHASE) : Prop :=
  (phase = CLASSIFICATION \/ phase = AUTOREGRESSIVE) /\
  batch_can_run self (phase_dataset_wrapper self phase) /\
  0 < batch_size self /\
  sampler_can_be_built self (get_dataset (phase_dataset_wrapper self phase) TRAIN) /\
  (PRINT_GRAPH consts = true -> is_master_process self = true ->
   get_dataset (phase_dataset_wrapper self phase) TRAIN <> []).

(** The calls left to a run that writes no checkpoint and evaluates
    nothing: the messages at the head of a phase and, on the coordinating
    worker only, the model graph and the training losses. *)
Definition silent_event (master : bool) (e : Event) : Prop :=
  match e with
  | LoggerInfo (MsgTraining _) => True
  | LoggerInfo MsgCheckpointLoaded => True
  | LoggerInfo MsgParamsCount => True
  | LoggerInfo (MsgStep _ _ _ _) => master = true
  | AddScalar _ name _ _ => master = true /\ name = "Loss"%string
  | AddGraph => master = true
  | LoggerInfo (MsgCheckpointSaved _) => False
  | LoggerInfo (MsgTestMetrics _) => False
  | TorchSave _ _ => False
  end.

Definition silent_rel (master : bool) (w w' : World) : Prop :=
  checkpoints_dir w' = checkpoints_dir w /\
  exists new, events w' = events w ++ new /\ Forall (silent_event master) new.

(** At step [st] the trainer neither saves nor evaluates: it is not the
    coordinating worker, or the step is logged without error and is not due
    for a checkpoint or an evaluation. *)
Definition silent_at (self : Trainer) (st : Z) : Prop :=
  is_master_process self = false \/
  (LOG_STEP consts <> 0 /\
   past_warmup_and_due consts st (SAVE_STEP consts) = Ok false /\
   past_warmup_and_due consts st (EVAL_STEP consts) = Ok false).

(** A phase is silent: its dataset wrapper has a known phase, the batch
    size is positive, the sampler can be built, the graph can be printed if
    it is to be, and no step of the phase is due for a checkpoint or an
    evaluation. *)
Definition silent_phase (self : Trainer) (phase : PHASE)
    (checkpoint : option Checkpoint) : Prop :=
  let dataset_wrapper := phase_dataset_wrapper self phase in
  (phase_name dataset_wrapper = CLASSIFICATION \/
   phase_name dataset_wrapper = AUTOREGRESSIVE) /\
  0 < batch_size self /\
  sampler_can_be_built self (get_dataset dataset_wrapper TRAIN) /\
  (PRINT_GRAPH consts = true -> is_master_process self = true ->
   get_dataset dataset_wrapper TRAIN <> []) /\
  (forall st,
     start_step checkpoint < st
       <= start_step checkpoint
          + steps_in (train_loader self (get_dataset dataset_wrapper TRAIN))
                     (range (start_epoch checkpoint) (epochs self)) ->
     silent_at self st).

(** From [w] to [w']: [best_loss] went from [b0] down to the minimum of
    [b0] and the training losses logged in between. *)
Definition loss_rel (b0 : float) (w w' : World) : Prop :=
  exists new,
    events w' = events w ++ new /\
    self_best_loss w' = fold_left py_min (map Fin (logged_losses new)) b0.

(** The best loss with which the first phase of a run starts. *)
Definition start_best_loss (checkpoint : option Checkpoint) (w : World) : float :=
  match checkpoint with
  | Some c => best_loss c
  | None => self_best_loss w
  end.

(** The calls of a run that pretrains from checkpoint [c] and then
    fine-tunes: the pretraining phase is announced and the checkpoint
    loaded; the calls [pre] of that phase follow; then, if the run gets
    that far, the classification phase is announced and makes its calls,
    among which no checkpoint is loaded. *)
Definition pretrain_then_finetune_trace (w w' : World) : Prop :=
  exists pre cls,
    events w' = events w ++ LoggerInfo (MsgTraining AUTOREGRESSIVE)
                         :: LoggerInfo MsgCheckpointLoaded :: pre ++ cls /\
    Forall (phase_event AUTOREGRESSIVE) pre /\
    (cls = [] \/
     exists cls', cls = LoggerInfo (MsgTraining CLASSIFICATION) :: cls' /\
                  Forall (phase_event CLASSIFICATION) cls').

(** The state after some more calls. *)
Definition add_events (evs : list Event) (w : World) : World :=
  {| self_best_loss := self_best_loss w;
     checkpoints_dir := checkpoints_dir w;
     events := events w ++ evs |}.

(** The calls that follow an evaluation at step [st]: one scalar for each
    entry of the metrics, then the log of the metrics. *)
Definition log_metrics_events (p : PHASE) (st : Z) (metrics : Metrics) : list Event :=
  map (fun kv => AddScalar p (fst kv) (snd kv) st) metrics
  ++ [LoggerInfo (MsgTestMetrics metrics)].

(** The files of the checkpoint directory, none when it does not exist. *)
Definition dir_of (w : World) : gmap Z Checkpoint := default ∅ (checkpoints_dir w).

(** A call made on schedule: a training loss is logged at a multiple of
    the log interval; a checkpoint is saved, and metrics are logged, past
    the warm-up and at a multiple of the save interval, respectively of
    the evaluation interval. *)
Definition on_schedule (e : Event) : Prop :=
  match e with
  | AddScalar _ name _ st =>
      if String.eqb name "Loss"
      then LOG_STEP consts <> 0 /\ st mod LOG_STEP consts = 0
      else WARMUP_STEPS consts <= st /\ EVAL_STEP consts <> 0 /\ st mod EVAL_STEP consts = 0
  | LoggerInfo (MsgStep _ _ st _) => LOG_STEP consts <> 0 /\ st mod LOG_STEP consts = 0
  | TorchSave st _ | LoggerInfo (MsgCheckpointSaved st) =>
      WARMUP_STEPS consts <= st /\ SAVE_STEP consts <> 0 /\ st mod SAVE_STEP consts = 0
  | _ => True
  end.

(** The steps at which the training losses were logged, oldest first. *)
Fixpoint logged_steps (evs : list Event) : list Z :=
  match evs with
  | [] => []
  | AddScalar _ name _ st :: rest =>
      if String.eqb name "Loss" then st :: logged_steps rest else logged_steps rest
  | _ :: rest => logged_steps rest
  end.

(** Every checkpoint saved among [evs] holds, as its best loss, the
    running minimum of [b0] and the training losses logged before it. *)
Definition saves_hold_running_minimum (b0 : float) (evs : list Event) : Prop :=
  forall pre st c post,
    evs = pre ++ TorchSave st c :: post ->
    best_loss c = fold_left py_min (map Fin (logged_losses pre)) b0.

(** From [w] to [w'], nothing happened to the files but saves: every file
    of [w] is still there, and every file of [w'] is a file of [w] or was
    saved in between under the step it holds. *)
Definition dir_rel (w w' : World) : Prop :=
  exists new,
    events w' = events w ++ new /\
    (forall k, is_Some (dir_of w !! k) -> is_Some (dir_of w' !! k)) /\
    (forall k c, dir_of w' !! k = Some c ->
                 dir_of w !! k = Some c \/ (In (TorchSave k c) new /\ step c = k)) /\
    (forall k c, In (TorchSave k c) new -> is_Some (dir_of w' !! k)) /\
    (checkpoints_dir w' = None -> checkpoints_dir w = None).

(** Every file holds the checkpoint of the step it is named by. *)
Definition well_named (w : World) : Prop :=
  forall k c, dir_of w !! k = Some c -> step c = k.

(** The metrics of the last evaluation logged among [evs]; [m] when none
    is. *)
Fixpoint last_metrics (evs : list Event) (m : Metrics) : Metrics :=
  match evs with
  | [] => m
  | LoggerInfo (MsgTestMetrics m') :: rest => last_metrics rest m'
  | _ :: rest => last_metrics rest m
  end.

(** [K st metrics w] is kept by the batches of a trainer on a dataset
    wrapper, [st] being the step counter and [metrics] the metrics of the
    last evaluation: by the move to the next step, by the log of a training
    loss at the new step, by a save, by an evaluation and its log, and by
    the two calls before the loops. *)
Definition batch_closed (self : Trainer) (dataset_wrapper : DatasetWrapper)
    (K : Z -> Metrics -> World -> Prop) : Prop :=
  let p := phase_name dataset_wrapper in
  (forall st m w1, K st m w1 -> K (st + 1) m w1) /\
  (forall ep st m loss w1,
     K st m w1 -> LOG_STEP consts <> 0 -> (st + 1) mod LOG_STEP consts = 0 ->
     K (st + 1) m (fst (log_training_loss p ep (st + 1) loss w1))) /\
  (forall ep st m model optimizer w1,
     K st m w1 -> WARMUP_STEPS consts <= st -> SAVE_STEP consts <> 0 ->
     st mod SAVE_STEP consts = 0 ->
     K st m (fst (save_checkpoint model optimizer ep st (is_autoregressive p) w1))) /\
  (forall st m model metrics w1,
     K st m w1 -> WARMUP_STEPS consts <= st -> EVAL_STEP consts <> 0 ->
     st mod EVAL_STEP consts = 0 ->
     _evaluate_model self model dataset_wrapper TEST = Ok metrics ->
     K st metrics (add_events (log_metrics_events p st metrics) w1)) /\
  (forall st m w1, K st m w1 -> K st m (add_events [LoggerInfo MsgParamsCount] w1)) /\
  (forall st m w1, K st m w1 -> is_master_process self = true ->
                   K st m (add_events [AddGraph] w1)).

(** [K] is kept by the head of a phase: the announcement of the phase and
    the loading of a checkpoint. *)
Definition phase_closed (K : Z -> Metrics -> World -> Prop) : Prop :=
  (forall phase st m w1,
     K st m w1 -> K st m (add_events [LoggerInfo (MsgTraining phase)] w1)) /\
  (forall st m w1, K st m w1 -> K st m (add_events [LoggerInfo MsgCheckpointLoaded] w1)) /\
  (forall st m b w1, K st m w1 -> K st m (set_best_loss b w1)).

End Vocabulary.

(** ** The directory of a run *)

(** The attributes of a trainer that name its run.  [ARCH] and [DATASET]
    are enumerations of strings: their members are joined and concatenated
    as strings. *)
Module RunPath.

Record Trainer : Type := {
  _config_name : string;
  _arch_name : string;
  _finetune_dataset : string;
  _pretrain_dataset : option string;
  _run_id : string
}.

(** [Trainer.relative_path]: the pretraining dataset is named in the path
    when the attribute is true as a condition, that is when it is neither
    [None] nor the empty string. *)
Definition relative_path (self : Trainer) : string :=
  String.concat "/"
    ([_config_name self; _arch_name self]
     ++ match _pretrain_dataset self with
        | Some d => if String.eqb d "" then [] else [String.append "pre_" d]
        | None => []
        end
     ++ [_finetune_dataset self; _run_id self]).

(** The string holds no slash. *)
Fixpoint slash_free (s : string) : bool :=
  match s with
  | EmptyString => true
  | String c s' => negb (Ascii.eqb c "/"%char) && slash_free s'
  end.

(** None of the names of the trainer holds a slash. *)
Definition slash_free_names (self : Trainer) : bool :=
  slash_free (_config_name self) && slash_free (_arch_name self)
  && slash_free (_finetune_dataset self) && slash_free (_run_id self)
  && match _pretrain_dataset self with
     | Some d => slash_free d
     | None => true
     end.

(** The pretraining dataset as the path names it: none when the attribute
    is [None] or the empty string. *)
Definition named_pretrain_dataset (self : Trainer) : option string :=
  match _pretrain_dataset self with
  | Some d => if String.eqb d "" then None else Some d
  | None => None
  end.

(** Two trainers: one with an empty pretraining dataset name, one with
    none. *)
Definition with_empty_pretrain : Trainer :=
  {| _config_name := "try1"; _arch_name := "s4"; _finetune_dataset := "imdb";
     _pretrain_dataset := Some ""%string; _run_id := "run0" |}.

Definition without_pretrain : Trainer :=
  {| _config_name := "try1"; _arch_name := "s4"; _finetune_dataset := "imdb";
     _pretrain_dataset := None; _run_id := "run0" |}.

End RunPath.

(** ** A small instance, to run the definitions on *)

Module Toy.

(** The model is the number of optimizer steps taken; an input is an
    integer and the network predicts it unchanged; the loss of a batch is
    ten minus the number of steps taken before it, so that it falls as
    training goes on. *)
#[local] Instance framework : Framework := {|
  Model := Z;
  Optimizer := Z;
  Input := Z;
  Target := Z;
  Output := Z * list Z;
  DATASET := string;
  get_optimizer := fun _ => 0;
  forward := fun model inputs => (model, inputs);
  loss_item := fun _ _ outputs _ => inject_Z (10 - fst outputs);
  backward_step := fun _ _ model optimizer _ _ => (model + 1, optimizer + 1);
  torch_max_1 := fun outputs => snd outputs;
  shuffle := fun ep dataset => if Z.even ep then dataset else rev dataset;
  distributed_sampler := fun _ _ dataset => dataset
|}.

(** Four training examples and three test examples for every dataset. *)
#[local] Instance registry : Registry := {|
  get_dataset_by_name := fun _ phase =>
    {| phase_name := phase;
       pad_token_id := 0;
       get_dataset := fun split =>
         match split with
         | TRAIN => [(0, 0); (1, 1); (2, 0); (3, 1)]
         | TEST => [(0, 0); (1, 0); (1, 1)]
         end |};
  initialize_model := fun _ => 0
|}.

Definition consts : STEPS :=
  {| LOG_STEP := 1; WARMUP_STEPS := 0; SAVE_STEP := 2; EVAL_STEP := 2;
     PRINT_GRAPH := false |}.

Definition trainer (pretrain : option string) : Trainer :=
  {| _finetune_dataset := "imdb"%string;
     _pretrain_dataset := pretrain;
     _rank := 0;
     _world_size := 1;
     batch_size := 2;
     epochs := 1 |}.

(** The same trainer with two epochs to run. *)
Definition trainer_two_epochs (pretrain : option string) : Trainer :=
  {| _finetune_dataset := "imdb"%string;
     _pretrain_dataset := pretrain;
     _rank := 0;
     _world_size := 1;
     batch_size := 2;
     epochs := 2 |}.

(** A checkpoint saved by the classification phase at step 2. *)
Definition finetune_checkpoint : Checkpoint :=
  {| epoch := 0; step := 2; model_state_dict := 2; optimizer_state_dict := 2;
     best_loss := Fin (inject_Z 8); during_pretraining := false |}.

(** A checkpoint saved by the pretraining phase at step 4. *)
Definition pretrain_checkpoint : Checkpoint :=
  {| epoch := 0; step := 4; model_state_dict := 4; optimizer_state_dict := 4;
     best_loss := Fin (inject_Z 7); during_pretraining := true |}.

(** Intervals that a run of two steps never reaches. *)
Definition long_intervals : STEPS :=
  {| LOG_STEP := 1; WARMUP_STEPS := 0; SAVE_STEP := 100; EVAL_STEP := 100;
     PRINT_GRAPH := false |}.

(** A dataset wrapper whose splits are empty. *)
Definition empty_wrapper : DatasetWrapper :=
  {| phase_name := CLASSIFICATION; pad_token_id := 0; get_dataset := fun _ => [] |}.

End Toy.

(** * Proofs *)

(** ** A program logic for the monad *)

Lemma wpx_ret {S A} (a : A) (Q : A -> S -> Prop) QE s :
  Q a s -> wpx (ret a) Q QE s.
Proof. intros H. exact H. Qed.

Lemma wpx_raise {S A} e (Q : A -> S -> Prop) (QE : PyError -> S -> Prop) s :
  QE e s -> wpx (raise e) Q QE s.
Proof. intros H. exact H. Qed.

Lemma wpx_lift {S A} (r : result A) (Q : A -> S -> Prop) (QE : PyError -> S -> Prop) s :
  match r with Ok a => Q a s | Raise e => QE e s end -> wpx (lift r) Q QE s.
Proof. intros H. unfold wpx, lift. destruct r; exact H. Qed.

Lemma wpx_get {S} (Q : S -> S -> Prop) QE s :
  Q s s -> wpx get Q QE s.
Proof. intros H. exact H. Qed.

Lemma wpx_modify {S} (f : S -> S) (Q : unit -> S -> Prop) QE s :
  Q tt (f s) -> wpx (modify f) Q QE s.
Proof. intros H. exact H. Qed.

Lemma wpx_bind {S A B} (m : M S A) (k : A -> M S B) Q QE s :
  wpx m (fun a s' => wpx (k a) Q QE s') QE s -> wpx (m ≫= k) Q QE s.
Proof.
  unfold wpx, mbind, M_bind, bind. destruct (m s) as [s' [a|e]]; auto.
Qed.

Lemma wpx_mono {S A} (m : M S A) (Q Q' : A -> S -> Prop) (QE QE' : PyError -> S -> Prop) s :
  wpx m Q QE s ->
  (forall a s', Q a s' -> Q' a s') ->
  (forall e s', QE e s' -> QE' e s') ->
  wpx m Q' QE' s.
Proof.
  unfold wpx. destruct (m s) as [s' [a|e]]; auto.
Qed.

Lemma wpx_and {S A} (m : M S A) (Q Q' : A -> S -> Prop) (QE QE' : PyError -> S -> Prop) s :
  wpx m Q QE s -> wpx m Q' QE' s ->
  wpx m (fun a s' => Q a s' /\ Q' a s') (fun e s' => QE e s' /\ QE' e s') s.
Proof.
  unfold wpx. destruct (m s) as [s' [a|e]]; auto.
Qed.

Lemma wpx_when {S} (b : bool) (m : M S unit) Q QE s :
  (b = true -> wpx m Q QE s) -> (b = false -> Q tt s) -> wpx (when b m) Q QE s.
Proof. unfold when. destruct b; intros Ht Hf; [apply Ht | apply wpx_ret, Hf]; reflexivity. Qed.

(** The loop rule: an invariant indexed by the elements still to visit. *)
Lemma wpx_for_each {S A B} (body : A -> B -> M S B)
    (I : list A -> B -> S -> Prop) (QE : PyError -> S -> Prop) :
  forall l acc s,
    I l acc s ->
    (forall x rest acc s, I (x :: rest) acc s ->
       wpx (body x acc) (fun acc' s' => I rest acc' s') QE s) ->
    wpx (for_each l body acc) (fun acc' s' => I [] acc' s') QE s.
Proof.
  induction l as [|x l IH]; intros acc s HI Hbody.
  - exact HI.
  - simpl. change (bind (body x acc) (for_each l body)) with (body x acc ≫= for_each l body).
    apply wpx_bind. eapply wpx_mono; [apply Hbody, HI| |auto].
    intros acc' s' HI'. apply IH; auto.
Qed.

(** Reading a [wpx] back as an equation. *)
Lemma wpx_ok {S A} (m : M S A) (Q : A -> S -> Prop) s :
  wpx m Q (fun _ _ => False) s -> exists s' a, m s = (s', Ok a) /\ Q a s'.
Proof.
  unfold wpx. destruct (m s) as [s' [a|e]]; [eauto|tauto].
Qed.

(** ** Batches *)

Lemma batch_sampler_concat {A} (bs : nat) (l batch : list A) :
  concat (batch_sampler bs batch l) = batch ++ l.
Proof.
  revert batch. induction l as [|x l IH]; intros batch; simpl.
  - destruct batch; simpl; [reflexivity|]. now rewrite !app_nil_r.
  - destruct (length (batch ++ [x]) =? bs)%nat; simpl; rewrite IH.
    + now rewrite <- app_assoc.
    + now rewrite <- app_assoc.
Qed.

(** The number of batches is the ceiling of the number of elements over
    the batch size. *)
Lemma batch_sampler_length {A} (bs : nat) (l batch : list A) :
  (length batch < bs)%nat ->
  length (batch_sampler bs batch l) = ((length batch + length l + bs - 1) / bs)%nat.
Proof.
  revert batch. induction l as [|x l IH]; intros batch Hlt; cbn [batch_sampler].
  - destruct batch as [|y batch]; cbn [length] in *.
    + symmetry. apply Nat.div_small. lia.
    + apply (Nat.div_unique _ _ 1%nat (length batch)); lia.
  - rewrite length_app. cbn [length].
    destruct (Nat.eqb_spec (length batch + 1) bs) as [Heq|Hne]; cbn [length].
    + rewrite IH by (cbn [length]; lia). cbn [length].
      replace (length batch + S (length l) + bs - 1)%nat
        with (1 * bs + (0 + length l + bs - 1))%nat by lia.
      rewrite Nat.div_add_l by lia. lia.
    + rewrite IH by (rewrite length_app; cbn [length]; lia).
      rewrite length_app. cbn [length]. f_equal. lia.
Qed.

(** For a positive batch size, iterating a sequential loader yields
    [len(data_loader)] batches. *)
Lemma iter_loader_sequential_length `{Framework} dataset bs ep :
  0 < bs ->
  Z.of_nat (length (iter_loader {| dl_dataset := dataset; dl_batch_size := bs;
                                   dl_sampler := SequentialSampler |} ep))
  = len_loader {| dl_dataset := dataset; dl_batch_size := bs;
                  dl_sampler := SequentialSampler |}.
Proof.
  intros Hbs. unfold iter_loader, len_loader. simpl.
  rewrite batch_sampler_length by (simpl; lia). simpl.
  rewrite Nat2Z.inj_div. f_equal; lia.
Qed.

(** ** [max] and [min] *)

Lemma max_from_spec {A} (key : A -> Z) (l : list A) : forall best,
  In (max_from key best l) (best :: l) /\
  forall x, In x (best :: l) -> key x <= key (max_from key best l).
Proof.
  induction l as [|y l IH]; intros best; simpl.
  - split; [auto|]. intros x [<-|[]]. lia.
  - destruct (IH (if key best <? key y then y else best)) as [Hin Hmax].
    split.
    + destruct Hin as [Heq|Hin]; [|auto].
      rewrite <- Heq. destruct (key best <? key y); auto.
    + intros x Hx.
      assert (Hb : key best <= key (max_from key (if key best <? key y then y else best) l)
                   /\ key y <= key (max_from key (if key best <? key y then y else best) l)).
      { pose proof (Hmax _ (or_introl eq_refl)) as H0.
        destruct (Z.ltb_spec (key best) (key y)); lia. }
      destruct Hx as [<-|[<-|Hx]]; [lia|lia|]. apply Hmax. right. exact Hx.
Qed.

Lemma fle_refl x : fle x x.
Proof. destruct x; simpl; [apply Qle_refl|exact I]. Qed.

Lemma fle_trans x y z : fle x y -> fle y z -> fle x z.
Proof.
  destruct x, y, z; simpl; try tauto. apply Qle_trans.
Qed.

Lemma flt_false_fle x y : flt y x = false -> fle x y.
Proof.
  destruct x as [a|], y as [b|]; simpl; try discriminate; auto.
  intros H. apply negb_false_iff in H. now apply Qle_bool_iff.
Qed.

Lemma flt_true_fle x y : flt y x = true -> fle y x.
Proof.
  destruct x as [a|], y as [b|]; simpl; try discriminate; auto.
  intros H. apply negb_true_iff in H.
  destruct (Qlt_le_dec b a) as [Hlt|Hle]; [now apply Qlt_le_weak|].
  apply Qle_bool_iff in Hle. congruence.
Qed.

Lemma py_min_le_l x y : fle (py_min x y) x.
Proof.
  unfold py_min. destruct (flt y x) eqn:E; [now apply flt_true_fle|apply fle_refl].
Qed.

Lemma py_min_le_r x y : fle (py_min x y) y.
Proof.
  unfold py_min. destruct (flt y x) eqn:E; [apply fle_refl|now apply flt_false_fle].
Qed.

Lemma py_min_cases x y : py_min x y = x \/ py_min x y = y.
Proof. unfold py_min. destruct (flt y x); auto. Qed.

(** The running minimum of a list of values, from a starting value. *)
Lemma fold_py_min_spec (l : list float) : forall b,
  fle (fold_left py_min l b) b /\
  (forall x, In x l -> fle (fold_left py_min l b) x) /\
  In (fold_left py_min l b) (b :: l).
Proof.
  induction l as [|y l IH]; intros b; simpl.
  - split; [apply fle_refl|]. split; [tauto|auto].
  - destruct (IH (py_min b y)) as (H1 & H2 & H3). split; [|split].
    + eapply fle_trans; [exact H1|apply py_min_le_l].
    + intros x [<-|Hx]; [|auto].
      eapply fle_trans; [exact H1|apply py_min_le_r].
    + destruct H3 as [H3|H3]; [|auto].
      rewrite <- H3. destruct (py_min_cases b y) as [->| ->]; auto.
Qed.

(** ** Evaluation *)

Section Evaluation.

Context {F : Framework} {R : Registry}.

Lemma eq_sum_bounds (predicted labels : list Target) :
  0 <= eq_sum predicted labels <= Z.of_nat (length labels).
Proof.
  unfold eq_sum. split; [lia|].
  apply inj_le. etransitivity; [apply List.filter_length_le|].
  rewrite length_combine. lia.
Qed.

Lemma eval_loop_spec loss_fn model (batches : list (list (Input * Target))) : forall acc,
  let acc' := fold_left (eval_batch loss_fn model) batches acc in
  (test_loss acc' == test_loss acc + Qsum (map (batch_loss loss_fn model) batches))%Q /\
  total acc' = total acc + Z.of_nat (length (concat batches)) /\
  correct acc' = correct acc + fold_right Z.add 0 (map (batch_matches model) batches) /\
  0 <= fold_right Z.add 0 (map (batch_matches model) batches)
    <= Z.of_nat (length (concat batches)).
Proof.
  induction batches as [|b batches IH]; intros acc; cbn [fold_left map concat fold_right Qsum].
  - repeat split; simpl; try lia. ring.
  - destruct (IH (eval_batch loss_fn model acc b)) as (H1 & H2 & H3 & H4).
    cbn zeta in *. rewrite length_app.
    pose proof (eq_sum_bounds (torch_max_1 (forward model (map fst b))) (map snd b)) as Hb.
    rewrite length_map in Hb.
    repeat split.
    + rewrite H1. cbn [eval_batch test_loss]. unfold batch_loss, Qsum. ring.
    + rewrite H2. cbn [eval_batch total]. rewrite length_map. lia.
    + rewrite H3. cbn [eval_batch correct]. unfold batch_matches. lia.
    + unfold batch_matches at 1. lia.
    + unfold batch_matches at 1. lia.
Qed.

(** With a positive batch size the loader is built, the loss function is
    the one of the classification phase, and the loop runs over the
    batches of the split. *)
Lemma _evaluate_model_unfold self model dataset split :
  0 < batch_size self ->
  let dl := {| dl_dataset := get_dataset dataset split;
               dl_batch_size := batch_size self;
               dl_sampler := SequentialSampler |} in
  let acc := fold_left (eval_batch (CrossEntropyLoss None) model) (iter_loader dl 0)
                       {| test_loss := 0%Q; correct := 0; total := 0 |} in
  _evaluate_model self model dataset split =
    if total acc =? 0 then Raise ZeroDivisionError
    else if len_loader dl =? 0 then Raise ZeroDivisionError
    else Ok [("Test Loss"%string, (test_loss acc / inject_Z (len_loader dl))%Q);
             ("Test Accuracy"%string,
              (inject_Z (100 * correct acc) / inject_Z (total acc))%Q)].
Proof.
  intros Hbs. unfold _evaluate_model, DataLoader.
  destruct (Z.leb_spec (batch_size self) 0) as [Hle|_]; [lia|]. reflexivity.
Qed.

Lemma percentage_bounds (c m : Z) :
  0 <= c <= m -> 0 < m ->
  (0 <= inject_Z (100 * c) / inject_Z m)%Q /\ (inject_Z (100 * c) / inject_Z m <= 100)%Q.
Proof.
  intros Hc Hm.
  assert (Hm' : (0 < inject_Z m)%Q) by (change 0%Q with (inject_Z 0); now rewrite <- Zlt_Qlt).
  split.
  - apply Qle_shift_div_l; [exact Hm'|]. rewrite Qmult_0_l.
    change 0%Q with (inject_Z 0). rewrite <- Zle_Qle. lia.
  - apply Qle_shift_div_r; [exact Hm'|].
    change 100%Q with (inject_Z 100). rewrite <- inject_Z_mult, <- Zle_Qle. lia.
Qed.

Lemma ceil_div_spec (m b : Z) :
  0 < b -> ((m + b - 1) / b - 1) * b < m <= (m + b - 1) / b * b.
Proof.
  intros Hb.
  pose proof (Z.div_mod (m + b - 1) b ltac:(lia)) as Hdm.
  pose proof (Z.mod_pos_bound (m + b - 1) b Hb) as Hmod.
  lia.
Qed.

(** What [_evaluate_model] returns on a split that is not empty: the sum of
    the batch losses over the number of batches, and the percentage of
    matching predictions. *)
Lemma _evaluate_model_nonempty self model dataset split :
  let data := get_dataset dataset split in
  let m := Z.of_nat (length data) in
  let b := batch_size self in
  let batches := batch_sampler (Z.to_nat b) [] data in
  let n := Z.of_nat (length batches) in
  let matches := fold_right Z.add 0 (map (batch_matches model) batches) in
  0 < m -> 0 < b ->
  exists sum,
    _evaluate_model self model dataset split
      = Ok [("Test Loss"%string, (sum / inject_Z n)%Q);
            ("Test Accuracy"%string, (inject_Z (100 * matches) / inject_Z m)%Q)] /\
    (sum == Qsum (map (batch_loss (CrossEntropyLoss None) model) batches))%Q /\
    0 <= matches <= m /\
    n = (m + b - 1) / b /\
    0 < n.
Proof.
  intros data m b batches n matches Hm Hb.
  pose proof (_evaluate_model_unfold self model dataset split Hb) as Hun.
  cbn zeta in Hun. fold data b in Hun.
  set (dl := {| dl_dataset := data; dl_batch_size := b; dl_sampler := SequentialSampler |}) in *.
  assert (Hit : iter_loader dl 0 = batches) by reflexivity.
  rewrite Hit in Hun.
  assert (Hcat : concat batches = data) by apply batch_sampler_concat.
  assert (Hn : n = len_loader dl).
  { unfold n. rewrite <- Hit. apply iter_loader_sequential_length. exact Hb. }
  assert (Hlen : len_loader dl = (m + b - 1) / b) by reflexivity.
  pose proof (ceil_div_spec m b Hb) as Hceil. rewrite <- Hlen, <- Hn in Hceil.
  destruct (eval_loop_spec (CrossEntropyLoss None) model batches
              {| test_loss := 0%Q; correct := 0; total := 0 |}) as (Hl & Ht & Hc & Hcb).
  cbn zeta in *. cbn [test_loss total correct] in Hl, Ht, Hc.
  rewrite Hcat in Ht, Hcb. fold m matches in Ht, Hc, Hcb.
  set (acc := fold_left (eval_batch (CrossEntropyLoss None) model) batches _) in *.
  assert (Htot : total acc = m) by lia.
  assert (Hcor : correct acc = matches) by lia.
  destruct (Z.eqb_spec (total acc) 0) as [H0|_]; [lia|].
  destruct (Z.eqb_spec (len_loader dl) 0) as [H0|_]; [nia|].
  exists (test_loss acc). rewrite Hun, Htot, Hcor, <- Hn.
  split; [reflexivity|]. split; [rewrite Hl; ring|].
  split; [exact Hcb|]. split; [congruence|nia].
Qed.


(** C7. On a split of [m > 0] examples with batch size [b > 0],
    [_evaluate_model] returns exactly the two entries Test Loss and Test
    Accuracy; the accuracy is 100 times the number of predictions that match
    their label over [m] and lies between 0 and 100; the loss is the mean of
    the per-batch losses; and the number [n] of batches is the ceiling of
    [m / b]: it is [(m + b - 1) // b], that is [(n - 1) * b < m <= n * b]. *)
Theorem evaluate_accuracy_and_mean_loss self model dataset split :
  let data := get_dataset dataset split in
  let m := Z.of_nat (length data) in
  let b := batch_size self in
  let batches := batch_sampler (Z.to_nat b) [] data in
  let n := Z.of_nat (length batches) in
  0 < m -> 0 < b ->
  exists loss accuracy,
    _evaluate_model self model dataset split
      = Ok [("Test Loss"%string, loss); ("Test Accuracy"%string, accuracy)] /\
    accuracy = (inject_Z (100 * fold_right Z.add 0%Z (map (batch_matches model) batches))
                / inject_Z m)%Q /\
    (0 <= accuracy)%Q /\ (accuracy <= 100)%Q /\
    (loss == mean (map (batch_loss (CrossEntropyLoss None) model) batches))%Q /\
    concat batches = data /\
    n = (m + b - 1) / b /\
    (n - 1) * b < m <= n * b.
Proof.
  intros data m b batches n Hm Hb.
  destruct (_evaluate_model_nonempty self model dataset split Hm Hb)
    as (sum & Heq & Hsum & Hmatches & Hn & Hpos).
  fold data m b batches n in Heq, Hsum, Hmatches, Hn, Hpos.
  destruct (percentage_bounds _ m Hmatches Hm) as [Hlo Hhi].
  pose proof (ceil_div_spec m b Hb) as Hceil. rewrite <- Hn in Hceil.
  eexists _, _. split; [exact Heq|]. split; [reflexivity|].
  split; [exact Hlo|]. split; [exact Hhi|]. split.
  - unfold mean. rewrite length_map. fold n. rewrite Hsum. reflexivity.
  - split; [apply batch_sampler_concat|]. split; assumption.
Qed.

(** C9. Evaluating a split without examples raises [ZeroDivisionError]
    instead of returning metrics: no batch is visited, [total] stays 0, and
    the division [100 * correct / total] is not guarded. *)
Theorem evaluate_empty_split_raises self model dataset split :
  get_dataset dataset split = [] ->
  0 < batch_size self ->
  _evaluate_model self model dataset split = Raise ZeroDivisionError.
Proof.
  intros Hempty Hb.
  rewrite (_evaluate_model_unfold self model dataset split Hb).
  cbn zeta. unfold iter_loader. cbn [dl_sampler dl_dataset].
  rewrite Hempty. reflexivity.
Qed.

End Evaluation.

(** ** The latest checkpoint *)

Section Checkpoints.

Context {F : Framework}.

Lemma get_latest_chkpt_absent (w : World) :
  checkpoints_dir w = None -> get_latest_chkpt w = (w, Ok None).
Proof. intros H. unfold get_latest_chkpt, mbind, M_bind, bind, get. now rewrite H. Qed.

Lemma get_latest_chkpt_empty (w : World) :
  checkpoints_dir w = Some ∅ -> get_latest_chkpt w = (w, Raise ValueError).
Proof.
  intros H. unfold get_latest_chkpt, mbind, M_bind, bind, get. rewrite H.
  now rewrite map_to_list_empty.
Qed.

(** In a directory with at least one file, the path chosen is the one of a
    file of the directory, and no file has a larger step in its name. *)
Lemma get_latest_chkpt_max (w : World) (dir : gmap Z Checkpoint) :
  checkpoints_dir w = Some dir -> dir ≠ ∅ ->
  exists k c, get_latest_chkpt w = (w, Ok (Some k)) /\ dir !! k = Some c /\
              forall k' c', dir !! k' = Some c' -> k' <= k.
Proof.
  intros H Hne. unfold get_latest_chkpt, mbind, M_bind, bind, get. rewrite H.
  destruct (map_to_list dir) as [|x l] eqn:Hl.
  - apply map_to_list_empty_iff in Hl. contradiction.
  - cbn [py_max lift].
    destruct (max_from_spec fst l x) as [Hin Hmax].
    set (best := max_from fst x l) in *.
    assert (Hbest : dir !! fst best = Some (snd best)).
    { apply elem_of_map_to_list. rewrite Hl. apply list_elem_of_In.
      destruct best. exact Hin. }
    exists (fst best), (snd best). split; [reflexivity|]. split; [exact Hbest|].
    intros k' c' Hk'. apply (Hmax (k', c')).
    apply list_elem_of_In. rewrite <- Hl. now apply elem_of_map_to_list.
Qed.

(** [load_checkpoint] returns the content of that file: when every file
    holds the checkpoint of the step it is named by, as [save_checkpoint]
    writes them, its step is the largest step of the directory. *)
Lemma load_checkpoint_latest (w : World) (dir : gmap Z Checkpoint) :
  checkpoints_dir w = Some dir -> dir ≠ ∅ ->
  (forall k c, dir !! k = Some c -> step c = k) ->
  exists c, load_checkpoint w = (w, Ok (Some c)) /\ dir !! step c = Some c /\
            forall k' c', dir !! k' = Some c' -> k' <= step c.
Proof.
  intros H Hne Hnames.
  destruct (get_latest_chkpt_max w dir H Hne) as (k & c & Hget & Hk & Hmax).
  exists c. unfold load_checkpoint, mbind, M_bind, bind. rewrite Hget.
  unfold torch_load, mbind, M_bind, bind, get. rewrite H. cbn [option_bind].
  change (Some dir ≫= (fun dir0 => dir0 !! k)) with (dir !! k). rewrite Hk.
  rewrite (Hnames k c Hk). auto.
Qed.

Lemma load_checkpoint_absent (w : World) :
  checkpoints_dir w = None -> load_checkpoint w = (w, Ok None).
Proof.
  intros H. unfold load_checkpoint, mbind, M_bind, bind.
  now rewrite (get_latest_chkpt_absent w H).
Qed.

Lemma load_checkpoint_empty (w : World) :
  checkpoints_dir w = Some ∅ -> load_checkpoint w = (w, Raise ValueError).
Proof.
  intros H. unfold load_checkpoint, mbind, M_bind, bind.
  now rewrite (get_latest_chkpt_empty w H).
Qed.

(** [load_checkpoint] changes nothing, whatever it returns. *)
Lemma load_checkpoint_state (w : World) : fst (load_checkpoint w) = w.
Proof.
  unfold load_checkpoint, mbind, M_bind, bind, get_latest_chkpt, torch_load, get, lift.
  unfold mbind, M_bind, bind.
  destruct (checkpoints_dir w) as [dir|] eqn:E; [|reflexivity].
  destruct (py_max fst (map_to_list dir)) as [entry|e]; [|reflexivity].
  cbn. rewrite E. cbn. destruct (dir !! fst entry); reflexivity.
Qed.

(** C2, at the input on which the code departs from it: when the run's
    checkpoint directory exists and holds no file, the latest-checkpoint
    lookup raises [ValueError] ([max] of an empty sequence); it does not
    return "no checkpoint". *)
Theorem load_latest_empty_dir_raises :
  forall b evs,
    let w := {| self_best_loss := b; checkpoints_dir := Some ∅; events := evs |} in
    get_latest_chkpt w = (w, Raise ValueError) /\
    load_checkpoint w = (w, Raise ValueError).
Proof.
  intros b evs w. split.
  - now apply get_latest_chkpt_empty.
  - now apply load_checkpoint_empty.
Qed.

End Checkpoints.

(** ** Saving and looking up checkpoints *)

Section CheckpointStore.

Context {F : Framework}.

(** What [save_checkpoint] does to the state: the file named by the step
    is written (replacing a file of that name), the directory being created
    if need be, and the save is logged. *)
Lemma save_checkpoint_run model optimizer ep st flag (w : World) :
  let c := {| epoch := ep; step := st; model_state_dict := model;
              optimizer_state_dict := optimizer; best_loss := self_best_loss w;
              during_pretraining := flag |} in
  save_checkpoint model optimizer ep st flag w
  = ({| self_best_loss := self_best_loss w;
        checkpoints_dir := Some (<[st := c]> (default ∅ (checkpoints_dir w)));
        events := events w ++ [TorchSave st c; LoggerInfo (MsgCheckpointSaved st)] |},
     Ok tt).
Proof.
  unfold save_checkpoint, torch_save, emit, mbind, M_bind, bind, get, modify.
  cbn. now rewrite <- app_assoc.
Qed.

(** In a directory with at least one file, [load_checkpoint] returns the
    content of a file whose name no other name exceeds. *)
Lemma load_checkpoint_max (w : World) (dir : gmap Z Checkpoint) :
  checkpoints_dir w = Some dir -> dir ≠ ∅ ->
  exists k c, load_checkpoint w = (w, Ok (Some c)) /\ dir !! k = Some c /\
              forall k' c', dir !! k' = Some c' -> k' <= k.
Proof.
  intros H Hne.
  destruct (get_latest_chkpt_max w dir H Hne) as (k & c & Hget & Hk & Hmax).
  exists k, c. unfold load_checkpoint, mbind, M_bind, bind. rewrite Hget.
  unfold torch_load, mbind, M_bind, bind, get. rewrite H.
  change (Some dir ≫= (fun dir0 => dir0 !! k)) with (dir !! k).
  cbn [option_bind]. rewrite Hk.
  split; [reflexivity|]. split; [reflexivity|exact Hmax].
Qed.

(** X1. Saving and then looking up the latest checkpoint gives back the
    checkpoint saved, with the best loss of the moment, when no file of the
    directory is named by a larger step. *)
Theorem save_then_load_latest model optimizer ep st flag (w : World) :
  (forall k c, default ∅ (checkpoints_dir w) !! k = Some c -> k <= st) ->
  let w' := fst (save_checkpoint model optimizer ep st flag w) in
  load_checkpoint w'
  = (w', Ok (Some {| epoch := ep; step := st; model_state_dict := model;
                     optimizer_state_dict := optimizer;
                     best_loss := self_best_loss w;
                     during_pretraining := flag |})).
Proof.
  intros Hle w'. subst w'. rewrite save_checkpoint_run. cbn [fst].
  set (c := {| epoch := ep; step := st |}).
  set (dir' := <[st := c]> (default ∅ (checkpoints_dir w))).
  set (w' := {| self_best_loss := self_best_loss w; checkpoints_dir := Some dir' |}).
  destruct (load_checkpoint_max w' dir' eq_refl) as (k & c' & Hload & Hk & Hmax).
  { apply insert_non_empty. }
  assert (Hst : st <= k) by (apply (Hmax st c); apply lookup_insert_eq).
  assert (Hks : k <= st).
  { destruct (decide (k = st)) as [->|Hne]; [lia|].
    unfold dir' in Hk. rewrite lookup_insert_ne in Hk by congruence. eauto. }
  assert (k = st) by lia. subst k.
  unfold dir' in Hk. rewrite lookup_insert_eq in Hk. injection Hk as <-.
  exact Hload.
Qed.

(** X2. A checkpoint saved under a step smaller than the largest name of
    the directory is not the latest: the lookup still returns the checkpoint
    of the largest name, as before the save. *)
Theorem save_below_latest_keeps_latest model optimizer ep st flag (w : World) dir k c :
  checkpoints_dir w = Some dir ->
  dir !! k = Some c ->
  (forall k' c', dir !! k' = Some c' -> k' <= k) ->
  st < k ->
  let w' := fst (save_checkpoint model optimizer ep st flag w) in
  load_checkpoint w = (w, Ok (Some c)) /\
  load_checkpoint w' = (w', Ok (Some c)).
Proof.
  intros Hdir Hk Hmax Hlt w'. split.
  - destruct (load_checkpoint_max w dir Hdir) as (k1 & c1 & Hload & Hk1 & Hmax1).
    { intros ->. now rewrite lookup_empty in Hk. }
    assert (k1 = k) by (pose proof (Hmax _ _ Hk1); pose proof (Hmax1 _ _ Hk); lia).
    subst k1. rewrite Hk in Hk1. injection Hk1 as <-. exact Hload.
  - subst w'. rewrite save_checkpoint_run. cbn [fst].
    assert (Hd : default ∅ (checkpoints_dir w) = dir) by now rewrite Hdir.
    set (c0 := {| epoch := ep; step := st |}).
    set (dir' := <[st := c0]> (default ∅ (checkpoints_dir w))).
    set (w' := {| self_best_loss := self_best_loss w; checkpoints_dir := Some dir' |}).
    destruct (load_checkpoint_max w' dir' eq_refl) as (k1 & c1 & Hload & Hk1 & Hmax1).
    { apply insert_non_empty. }
    assert (Hkk : dir' !! k = Some c).
    { unfold dir'. rewrite lookup_insert_ne by lia. now rewrite Hd. }
    assert (Hle : k1 <= k).
    { destruct (decide (k1 = st)) as [->|Hne]; [lia|].
      unfold dir' in Hk1. rewrite lookup_insert_ne, Hd in Hk1 by congruence. eauto. }
    assert (k1 = k) by (pose proof (Hmax1 _ _ Hkk); lia). subst k1.
    rewrite Hkk in Hk1. injection Hk1 as <-. exact Hload.
Qed.

(** X3. After a save the lookup finds a checkpoint, whatever the directory
    was before (absent, empty or not): the checkpoint just saved, or an older
    file named by a larger step. *)
Theorem load_after_save_finds_checkpoint model optimizer ep st flag (w : World) :
  let w' := fst (save_checkpoint model optimizer ep st flag w) in
  let saved := {| epoch := ep; step := st; model_state_dict := model;
                  optimizer_state_dict := optimizer; best_loss := self_best_loss w;
                  during_pretraining := flag |} in
  exists c,
    load_checkpoint w' = (w', Ok (Some c)) /\
    (c = saved \/ exists k, st < k /\ default ∅ (checkpoints_dir w) !! k = Some c).
Proof.
  intros w' saved. subst w'. rewrite save_checkpoint_run. cbn [fst]. fold saved.
  set (dir' := <[st := saved]> (default ∅ (checkpoints_dir w))).
  set (w' := {| self_best_loss := self_best_loss w; checkpoints_dir := Some dir' |}).
  destruct (load_checkpoint_max w' dir' eq_refl) as (k & c' & Hload & Hk & Hmax).
  { apply insert_non_empty. }
  exists c'. split; [exact Hload|]. destruct (decide (k = st)) as [->|Hne].
  - left. unfold dir' in Hk. rewrite lookup_insert_eq in Hk. now injection Hk as <-.
  - right. exists k.
    assert (Hst : st <= k) by (apply (Hmax st saved); apply lookup_insert_eq).
    split; [lia|]. unfold dir' in Hk. now rewrite lookup_insert_ne in Hk by congruence.
Qed.

End CheckpointStore.

(** ** Training: the rules of the loops *)

Lemma preserves_ret {S A} (J : S -> Prop) (a : A) : preserves J (ret a).
Proof. intros s H. exact H. Qed.

Lemma preserves_raise {S A} (J : S -> Prop) e : preserves J (@raise S A e).
Proof. intros s H. exact H. Qed.

Lemma preserves_lift {S A} (J : S -> Prop) (r : result A) : preserves J (lift r).
Proof. intros s H. apply wpx_lift. destruct r; exact H. Qed.

Lemma preserves_get {S} (J : S -> Prop) : preserves J get.
Proof. intros s H. exact H. Qed.

Lemma preserves_modify {S} (J : S -> Prop) (f : S -> S) :
  (forall s, J s -> J (f s)) -> preserves J (modify f).
Proof. intros Hf s H. apply wpx_modify. auto. Qed.

Lemma preserves_bind {S A B} (J : S -> Prop) (m : M S A) (k : A -> M S B) :
  preserves J m -> (forall a, preserves J (k a)) -> preserves J (m ≫= k).
Proof.
  intros Hm Hk s H. apply wpx_bind.
  eapply wpx_mono; [apply Hm, H| |auto].
  intros a s' H'. apply Hk, H'.
Qed.

Lemma preserves_when {S} (J : S -> Prop) (b : bool) (m : M S unit) :
  preserves J m -> preserves J (when b m).
Proof. intros Hm. destruct b; [exact Hm|apply preserves_ret]. Qed.

Lemma preserves_for_each {S A B} (J : S -> Prop) (body : A -> B -> M S B) l :
  (forall x acc, preserves J (body x acc)) -> forall acc, preserves J (for_each l body acc).
Proof.
  intros Hbody. induction l as [|x l IH]; intros acc.
  - apply preserves_ret.
  - simpl. change (bind (body x acc) (for_each l body)) with (body x acc ≫= for_each l body).
    apply preserves_bind; auto.
Qed.

Lemma never_raises_ret {S A} (a : A) : never_raises (@ret S A a).
Proof. intros s. now exists s, a. Qed.

Lemma never_raises_modify {S} (f : S -> S) : never_raises (modify f).
Proof. intros s. now exists (f s), tt. Qed.

Lemma never_raises_get {S} : never_raises (@get S).
Proof. intros s. now exists s, s. Qed.

Lemma never_raises_bind {S A B} (m : M S A) (k : A -> M S B) :
  never_raises m -> (forall a, never_raises (k a)) -> never_raises (m ≫= k).
Proof.
  intros Hm Hk s. destruct (Hm s) as (s' & a & E).
  destruct (Hk a s') as (s'' & b & E'). exists s'', b.
  unfold mbind, M_bind, bind. now rewrite E.
Qed.

Lemma never_raises_when {S} (b : bool) (m : M S unit) :
  never_raises m -> never_raises (when b m).
Proof. intros Hm. destruct b; [exact Hm|apply never_raises_ret]. Qed.

Lemma never_raises_for_each {S A B} (body : A -> B -> M S B) l :
  (forall x acc, never_raises (body x acc)) -> forall acc, never_raises (for_each l body acc).
Proof.
  intros Hbody. induction l as [|x l IH]; intros acc.
  - apply never_raises_ret.
  - simpl. change (bind (body x acc) (for_each l body)) with (body x acc ≫= for_each l body).
    apply never_raises_bind; auto.
Qed.

(** Sequencing when an exception is acceptable. *)
Lemma wpx_bind_any {S A B} (m : M S A) (k : A -> M S B) (Q : B -> S -> Prop) s :
  (forall a s', wpx (k a) Q (fun _ _ => True) s') ->
  wpx (m ≫= k) Q (fun _ _ => True) s.
Proof.
  intros Hk. apply wpx_bind. unfold wpx at 1.
  destruct (m s) as [s' [a|e]]; [apply Hk|exact I].
Qed.

Lemma never_raises_lift {S A} (r : result A) :
  (exists a, r = Ok a) -> never_raises (@lift S A r).
Proof. intros [a ->] s. now exists s, a. Qed.

(** Total correctness from partial correctness. *)
Lemma wpx_total {S A} (m : M S A) (Q : A -> S -> Prop) QE s :
  never_raises m -> wpx m Q (fun _ _ => True) s -> wpx m Q QE s.
Proof.
  intros Hm. unfold wpx. destruct (Hm s) as (s' & a & ->). auto.
Qed.

Lemma preserves_bind_lift {S A B} (J : S -> Prop) (r : result A) (k : A -> M S B) :
  (forall a, r = Ok a -> preserves J (k a)) -> preserves J (lift r ≫= k).
Proof.
  intros Hk s H. apply wpx_bind, wpx_lift. destruct r as [a|e]; [|exact H].
  apply Hk; auto.
Qed.

Section Training.

Context {F : Framework} {R : Registry}.

Variable consts : STEPS.

Lemma logged_losses_app (l1 l2 : list Event) :
  logged_losses (l1 ++ l2) = logged_losses l1 ++ logged_losses l2.
Proof.
  induction l1 as [|e l1 IH]; [reflexivity|].
  destruct e as [m|p name value st| |st c]; simpl; rewrite ?IH; try reflexivity.
  destruct (String.eqb name "Loss"); simpl; now rewrite ?IH.
Qed.

Lemma training_rel_refl p w : training_rel p w w.
Proof. exists []. rewrite app_nil_r. repeat split. constructor. Qed.

Lemma training_rel_trans p w1 w2 w3 :
  training_rel p w1 w2 -> training_rel p w2 w3 -> training_rel p w1 w3.
Proof.
  intros (n1 & E1 & P1 & B1) (n2 & E2 & P2 & B2). exists (n1 ++ n2).
  split; [|split].
  - rewrite E2, E1. now rewrite app_assoc.
  - apply Forall_app. auto.
  - rewrite B2, B1, logged_losses_app, map_app, fold_left_app. reflexivity.
Qed.

(** One more call that is not a training loss. *)
Lemma training_rel_emit p w e :
  phase_event p e -> logged_losses [e] = [] ->
  training_rel p w {| self_best_loss := self_best_loss w;
                      checkpoints_dir := checkpoints_dir w;
                      events := events w ++ [e] |}.
Proof.
  intros He Hl. exists [e]. cbn [events self_best_loss]. split; [reflexivity|]. split.
  - constructor; [exact He|constructor].
  - rewrite Hl. reflexivity.
Qed.

Lemma preserves_emit p w0 e :
  phase_event p e -> logged_losses [e] = [] ->
  preserves (training_rel p w0) (emit e).
Proof.
  intros He Hl. apply preserves_modify. intros w Hw.
  eapply training_rel_trans; [exact Hw|]. now apply training_rel_emit.
Qed.

Lemma log_training_loss_run p ep st loss w :
  log_training_loss p ep st loss w
  = ({| self_best_loss := py_min (self_best_loss w) (Fin loss);
        checkpoints_dir := checkpoints_dir w;
        events := events w ++ [AddScalar p "Loss" loss st;
                               LoggerInfo (MsgStep p ep st loss)] |}, Ok tt).
Proof.
  unfold log_training_loss, mbind, M_bind, bind, emit, modify, get, set_best_loss.
  cbn. now rewrite <- app_assoc.
Qed.

Lemma preserves_log_training_loss p w0 p' ep st loss :
  preserves (training_rel p w0) (log_training_loss p' ep st loss).
Proof.
  intros w Hw. unfold wpx. cbn.
  eapply training_rel_trans; [exact Hw|].
  exists [AddScalar p' "Loss" loss st; LoggerInfo (MsgStep p' ep st loss)].
  cbn. split; [now rewrite <- app_assoc|]. split; [|reflexivity].
  repeat constructor.
Qed.

Lemma preserves_save_checkpoint p w0 model optimizer ep st :
  preserves (training_rel p w0)
            (save_checkpoint model optimizer ep st (is_autoregressive p)).
Proof.
  intros w Hw. unfold wpx. cbn.
  eapply training_rel_trans; [exact Hw|].
  eexists [TorchSave st _; LoggerInfo (MsgCheckpointSaved st)].
  cbn. split; [now rewrite <- app_assoc|]. split; [|reflexivity].
  repeat constructor.
Qed.

(** The keys of the metrics that an evaluation returns. *)
Lemma _evaluate_model_keys self model dataset split metrics :
  _evaluate_model self model dataset split = Ok metrics ->
  exists loss accuracy,
    metrics = [("Test Loss"%string, loss); ("Test Accuracy"%string, accuracy)].
Proof.
  unfold _evaluate_model, mbind, result_bind.
  destruct (DataLoader _ _ _) as [dl|]; [|discriminate]. cbn.
  destruct (_ =? 0); [discriminate|].
  destruct (_ =? 0); [discriminate|].
  intros [= <-]. eauto.
Qed.

Lemma preserves_eval_scalars p w0 p' st metrics self model dataset split :
  _evaluate_model self model dataset split = Ok metrics ->
  preserves (training_rel p w0)
    (for_each metrics
       (fun (kv : string * Q) (_ : unit) => emit (AddScalar p' (fst kv) (snd kv) st)) tt).
Proof.
  intros Hm. destruct (_evaluate_model_keys _ _ _ _ _ Hm) as (loss & accuracy & ->).
  cbn [for_each].
  change (bind ?m ?k) with (m ≫= k).
  repeat (apply preserves_bind; [|intros []]);
    try apply preserves_ret; apply preserves_emit; try exact I; reflexivity.
Qed.

Lemma preserves_train_batch w0 self dataset_wrapper loss_fn ep i_data loc :
  preserves (training_rel (phase_name dataset_wrapper) w0)
            (train_batch consts self dataset_wrapper loss_fn ep i_data loc).
Proof.
  unfold train_batch. set (p := phase_name dataset_wrapper).
  apply preserves_bind.
  { destruct p; [apply preserves_ret|apply preserves_ret|apply preserves_raise]. }
  intros flat. destruct (backward_step _ _ _ _ _ _) as [model optimizer].
  destruct (is_master_process self); [|apply preserves_ret].
  apply preserves_bind; [apply preserves_lift|intros r].
  apply preserves_bind; [apply preserves_when, preserves_log_training_loss|intros _].
  apply preserves_bind; [apply preserves_lift|intros save_due].
  apply preserves_bind; [apply preserves_when, preserves_save_checkpoint|intros _].
  apply preserves_bind; [apply preserves_lift|intros eval_due].
  destruct eval_due; [|apply preserves_ret].
  apply preserves_bind_lift. intros metrics Hev.
  apply preserves_bind; [eapply preserves_eval_scalars, Hev|intros _].
  apply preserves_bind; [|intros _; apply preserves_ret].
  apply preserves_emit; [exact I|reflexivity].
Qed.

Lemma never_raises_emit (e : Event) : never_raises (emit e).
Proof. apply never_raises_modify. Qed.

Lemma never_raises_log_training_loss p ep st loss :
  never_raises (log_training_loss p ep st loss).
Proof. intros w. eexists _, tt. reflexivity. Qed.

Lemma never_raises_save_checkpoint model optimizer ep st flag :
  never_raises (save_checkpoint model optimizer ep st flag).
Proof.
  unfold save_checkpoint.
  apply never_raises_bind; [apply never_raises_get|intros w0].
  apply never_raises_bind; [apply never_raises_modify|intros _].
  apply never_raises_emit.
Qed.

(** Every batch that completes adds one to the step. *)
Lemma train_batch_step self dataset_wrapper loss_fn ep i_data loc w :
  wpx (train_batch consts self dataset_wrapper loss_fn ep i_data loc)
      (fun loc' _ => l_step loc' = l_step loc + 1) (fun _ _ => True) w.
Proof.
  unfold train_batch.
  apply wpx_bind_any. intros flat w1.
  destruct (backward_step _ _ _ _ _ _) as [model optimizer].
  destruct (is_master_process self); [|reflexivity].
  do 4 (apply wpx_bind_any; intros ? ?).
  apply wpx_bind_any. intros eval_due w2.
  destruct eval_due; [|reflexivity].
  do 3 (apply wpx_bind_any; intros ? ?).
  reflexivity.
Qed.

Lemma length_enumerate {A} (l : list A) : length (enumerate l) = length l.
Proof. unfold enumerate. rewrite length_combine, length_map, length_seq. lia. Qed.

Lemma batches_in_nonneg dl ep : 0 <= batches_in dl ep.
Proof. unfold batches_in. lia. Qed.

Lemma steps_in_nonneg dl eps : 0 <= steps_in dl eps.
Proof.
  induction eps as [|ep eps IH]; unfold steps_in in *; simpl; [lia|].
  pose proof (batches_in_nonneg dl ep). lia.
Qed.

(** The rule of the inner loop: an invariant [J] of the loop variables and
    the state that every batch keeps, as long as the step stays below
    [s_end], holds after the epoch, and the step has advanced by the number
    of batches. *)
Lemma train_epoch_rule (J : Locals -> World -> Prop) QE self dataset_wrapper loss_fn dl ep s_end :
  (forall i_data loc w, J loc w -> l_step loc < s_end ->
     wpx (train_batch consts self dataset_wrapper loss_fn ep i_data loc)
         (fun loc' w' => J loc' w' /\ l_step loc' = l_step loc + 1) QE w) ->
  forall loc w, J loc w -> l_step loc + batches_in dl ep <= s_end ->
    wpx (train_epoch consts self dataset_wrapper loss_fn dl ep loc)
        (fun loc' w' => J loc' w' /\ l_step loc' = l_step loc + batches_in dl ep) QE w.
Proof.
  intros Hbatch loc w HJ Hend. unfold train_epoch, batches_in in *.
  rewrite <- (length_enumerate (iter_loader dl ep)) in *.
  set (l := enumerate (iter_loader dl ep)) in *.
  pose (I := fun (rest : list (Z * list (Input * Target))) loc' (w' : World) =>
               J loc' w' /\
               l_step loc' + Z.of_nat (length rest) = l_step loc + Z.of_nat (length l)).
  assert (Hloop : wpx (for_each l (train_batch consts self dataset_wrapper loss_fn ep) loc)
                      (fun loc' w' => I [] loc' w') QE w).
  { apply wpx_for_each.
    - split; [exact HJ|reflexivity].
    - intros x rest acc s [HJ' Hst]. cbn [length] in Hst.
      eapply wpx_mono; [apply Hbatch; [exact HJ'|lia]| |auto].
      cbn beta. intros acc' s' [HJ'' Hst']. split; [exact HJ''|lia]. }
  eapply wpx_mono; [exact Hloop| |auto].
  cbn beta. intros acc' s' [HJ' Hst]. cbn [length] in Hst. split; [exact HJ'|lia].
Qed.

(** The rule of the outer loop. *)
Lemma train_epochs_rule (J : Locals -> World -> Prop) QE self dataset_wrapper loss_fn dl s_end :
  (forall ep i_data loc w, J loc w -> l_step loc < s_end ->
     wpx (train_batch consts self dataset_wrapper loss_fn ep i_data loc)
         (fun loc' w' => J loc' w' /\ l_step loc' = l_step loc + 1) QE w) ->
  forall start loc w, J loc w ->
    l_step loc + steps_in dl (range start (epochs self)) <= s_end ->
    wpx (train_epochs consts self dataset_wrapper loss_fn dl start loc)
        (fun loc' w' => J loc' w' /\
           l_step loc' = l_step loc + steps_in dl (range start (epochs self))) QE w.
Proof.
  intros Hbatch start loc w HJ Hend. unfold train_epochs.
  set (eps := range start (epochs self)) in *.
  pose (I := fun (rest : list Z) loc' (w' : World) =>
               J loc' w' /\
               l_step loc' + steps_in dl rest = l_step loc + steps_in dl eps).
  assert (Hloop : wpx (for_each eps (train_epoch consts self dataset_wrapper loss_fn dl) loc)
                      (fun loc' w' => I [] loc' w') QE w).
  { apply wpx_for_each.
    - split; [exact HJ|reflexivity].
    - intros ep rest acc s [HJ' Hst].
      change (steps_in dl (ep :: rest)) with (batches_in dl ep + steps_in dl rest) in Hst.
      pose proof (steps_in_nonneg dl rest) as Hnn.
      eapply wpx_mono; [apply (train_epoch_rule J QE) with (s_end := s_end);
                        [intros; apply Hbatch; assumption|exact HJ'|lia]| |auto].
      cbn beta. intros acc' s' [HJ'' Hst']. split; [exact HJ''|lia]. }
  eapply wpx_mono; [exact Hloop| |auto].
  cbn beta. intros acc' s' [HJ' Hst].
  change (steps_in dl []) with 0 in Hst. split; [exact HJ'|lia].
Qed.

(** *** What always holds *)

Lemma train_epochs_always w0 self dataset_wrapper loss_fn dl start loc w :
  training_rel (phase_name dataset_wrapper) w0 w ->
  wpx (train_epochs consts self dataset_wrapper loss_fn dl start loc)
      (fun loc' w' =>
         training_rel (phase_name dataset_wrapper) w0 w' /\
         l_step loc' = l_step loc + steps_in dl (range start (epochs self)))
      (fun _ w' => training_rel (phase_name dataset_wrapper) w0 w') w.
Proof.
  intros Hw.
  apply (train_epochs_rule (fun _ w' => training_rel (phase_name dataset_wrapper) w0 w'))
    with (s_end := l_step loc + steps_in dl (range start (epochs self))); [|exact Hw|lia].
  intros ep i_data loc1 w1 Hw1 _.
  eapply wpx_mono;
    [apply wpx_and; [apply (preserves_train_batch w0), Hw1|apply train_batch_step]| |].
  - cbn beta. tauto.
  - cbn beta. tauto.
Qed.

(** *** When a run completes *)

Lemma py_mod_ok a b : b <> 0 -> py_mod a b = Ok (a mod b).
Proof. intros Hb. unfold py_mod. now destruct (Z.eqb_spec b 0). Qed.

Lemma past_warmup_and_due_ok st interval :
  interval <> 0 -> exists due, past_warmup_and_due consts st interval = Ok due.
Proof.
  intros Hi. unfold past_warmup_and_due.
  destruct (_ <=? _); [|eauto]. rewrite (py_mod_ok _ _ Hi). cbn. eauto.
Qed.

Lemma never_raises_train_batch self dataset_wrapper loss_fn ep i_data loc :
  batch_can_run consts self dataset_wrapper ->
  never_raises (train_batch consts self dataset_wrapper loss_fn ep i_data loc).
Proof.
  intros [Hphase Hmaster]. unfold train_batch.
  apply never_raises_bind.
  { destruct Hphase as [-> | ->]; apply never_raises_ret. }
  intros flat. destruct (backward_step _ _ _ _ _ _) as [model optimizer].
  destruct (is_master_process self); [|apply never_raises_ret].
  destruct (Hmaster eq_refl) as (Hlog & Hsave & Heval & Hbs & Htest).
  apply never_raises_bind;
    [apply never_raises_lift; rewrite (py_mod_ok _ _ Hlog); eauto|intros r].
  apply never_raises_bind;
    [apply never_raises_when, never_raises_log_training_loss|intros _].
  apply never_raises_bind;
    [apply never_raises_lift, past_warmup_and_due_ok, Hsave|intros save_due].
  apply never_raises_bind;
    [apply never_raises_when, never_raises_save_checkpoint|intros _].
  apply never_raises_bind;
    [apply never_raises_lift, past_warmup_and_due_ok, Heval|intros eval_due].
  destruct eval_due; [|apply never_raises_ret].
  apply never_raises_bind.
  { apply never_raises_lift.
    destruct (_evaluate_model_nonempty self model dataset_wrapper TEST)
      as (sum & Heq & _); [|exact Hbs|eauto].
    destruct (get_dataset dataset_wrapper TEST); [congruence|simpl; lia]. }
  intros metrics.
  apply never_raises_bind;
    [apply never_raises_for_each; intros; apply never_raises_emit|intros _].
  apply never_raises_bind; [apply never_raises_emit|intros _; apply never_raises_ret].
Qed.

Lemma never_raises_train_epochs self dataset_wrapper loss_fn dl start loc :
  batch_can_run consts self dataset_wrapper ->
  never_raises (train_epochs consts self dataset_wrapper loss_fn dl start loc).
Proof.
  intros Hrun. unfold train_epochs. apply never_raises_for_each.
  intros ep acc. unfold train_epoch. apply never_raises_for_each.
  intros i_data acc'. now apply never_raises_train_batch.
Qed.

(** *** A phase *)

Lemma train_phase_unfold self phase checkpoint w :
  phase = CLASSIFICATION \/ phase = AUTOREGRESSIVE ->
  train_phase consts self phase checkpoint w
  = phase_loops consts self (phase_dataset_wrapper self phase) checkpoint
                (phase_start phase checkpoint w).
Proof.
  intros [-> | ->]; destruct checkpoint as [c|];
    unfold train_phase, phase_loops, phase_start, phase_dataset_wrapper;
    unfold mbind, M_bind, bind, ret, emit, modify; cbn;
    rewrite <- ?app_assoc; reflexivity.
Qed.

Lemma l_step_start_locals model optimizer checkpoint :
  l_step (start_locals model optimizer checkpoint) = start_step checkpoint.
Proof. now destruct checkpoint. Qed.

Lemma phase_loops_always w0 self dataset_wrapper checkpoint w :
  training_rel (phase_name dataset_wrapper) w0 w ->
  wpx (phase_loops consts self dataset_wrapper checkpoint)
      (fun loc' w' =>
         training_rel (phase_name dataset_wrapper) w0 w' /\
         l_step loc' = start_step checkpoint
                       + steps_in (train_loader self (get_dataset dataset_wrapper TRAIN))
                                  (range (start_epoch checkpoint) (epochs self)))
      (fun _ w' => training_rel (phase_name dataset_wrapper) w0 w') w.
Proof.
  intros Hw. unfold phase_loops. cbn zeta.
  apply wpx_bind.
  eapply wpx_mono;
    [apply (preserves_emit (phase_name dataset_wrapper) w0 (LoggerInfo MsgParamsCount));
     [exact I|reflexivity|exact Hw]| |auto].
  cbn beta. intros _ w1 Hw1.
  apply wpx_bind.
  eapply wpx_mono; [apply (preserves_when (training_rel (phase_name dataset_wrapper) w0)); [|exact Hw1]| |auto].
  { destruct (get_dataset dataset_wrapper TRAIN); [apply preserves_raise|].
    apply preserves_emit; [exact I|reflexivity]. }
  cbn beta. intros _ w2 Hw2.
  apply wpx_bind, wpx_lift. unfold DataLoader.
  destruct (batch_size self <=? 0); [exact Hw2|].
  destruct (sampler_raises _ _); [exact Hw2|].
  apply wpx_bind, wpx_lift.
  destruct (get_loss_fn _ _) as [loss_fn|e]; [|exact Hw2].
  rewrite <- l_step_start_locals with (model := initialize_model dataset_wrapper)
                                      (optimizer := get_optimizer (initialize_model dataset_wrapper)).
  apply train_epochs_always. exact Hw2.
Qed.

Lemma train_phase_always self phase checkpoint w :
  phase = CLASSIFICATION \/ phase = AUTOREGRESSIVE ->
  phase_name (phase_dataset_wrapper self phase) = phase ->
  wpx (train_phase consts self phase checkpoint)
      (fun loc' w' =>
         training_rel phase (phase_start phase checkpoint w) w' /\
         l_step loc' = start_step checkpoint
                       + steps_in (train_loader self
                                     (get_dataset (phase_dataset_wrapper self phase) TRAIN))
                                  (range (start_epoch checkpoint) (epochs self)))
      (fun _ w' => training_rel phase (phase_start phase checkpoint w) w') w.
Proof.
  intros Hphase Hwrap. unfold wpx. rewrite (train_phase_unfold _ _ _ _ Hphase).
  pose proof (phase_loops_always (phase_start phase checkpoint w) self
                (phase_dataset_wrapper self phase) checkpoint
                (phase_start phase checkpoint w)) as H.
  rewrite Hwrap in H. apply H, training_rel_refl.
Qed.

Lemma DataLoader_train self (dataset : list (Input * Target)) :
  0 < batch_size self ->
  sampler_can_be_built self dataset ->
  DataLoader dataset (batch_size self)
             (if is_distributed self
              then DistributedSampler (_world_size self) (_rank self)
              else RandomSampler)
  = Ok (train_loader self dataset).
Proof.
  intros Hbs Hs. unfold DataLoader, sampler_can_be_built, train_loader in *.
  destruct (Z.leb_spec (batch_size self) 0); [lia|].
  destruct (is_distributed self); cbn [sampler_raises].
  - destruct (Z.ltb_spec (_rank self) 0); [lia|].
    destruct (Z.leb_spec (_world_size self) (_rank self)); [lia|]. reflexivity.
  - destruct dataset; [contradiction|reflexivity].
Qed.

Lemma never_raises_phase_loops self dataset_wrapper checkpoint :
  batch_can_run consts self dataset_wrapper ->
  0 < batch_size self ->
  sampler_can_be_built self (get_dataset dataset_wrapper TRAIN) ->
  (PRINT_GRAPH consts = true -> is_master_process self = true ->
   get_dataset dataset_wrapper TRAIN <> []) ->
  never_raises (phase_loops consts self dataset_wrapper checkpoint).
Proof.
  intros Hrun Hbs Hsampler Hgraph. unfold phase_loops. cbn zeta.
  apply never_raises_bind; [apply never_raises_emit|intros _].
  apply never_raises_bind.
  { destruct (PRINT_GRAPH consts); [|apply never_raises_ret].
    destruct (is_master_process self); [|apply never_raises_ret].
    cbn. destruct (get_dataset dataset_wrapper TRAIN); [now destruct Hgraph|].
    apply never_raises_emit. }
  intros _.
  apply never_raises_bind.
  { apply never_raises_lift. rewrite (DataLoader_train _ _ Hbs Hsampler). eauto. }
  intros data_loader.
  apply never_raises_bind.
  { apply never_raises_lift. destruct Hrun as [[-> | ->] _]; cbn; eauto. }
  intros loss_fn. now apply never_raises_train_epochs.
Qed.

Lemma never_raises_train_phase self phase checkpoint :
  phase_can_run consts self phase ->
  never_raises (train_phase consts self phase checkpoint).
Proof.
  intros (Hphase & Hrun & Hbs & Hgraph) w.
  rewrite (train_phase_unfold _ _ _ _ Hphase).
  now apply never_raises_phase_loops.
Qed.

(** *** Steps at which nothing is saved or evaluated *)

Lemma silent_rel_refl master w : silent_rel master w w.
Proof. split; [reflexivity|]. exists []. rewrite app_nil_r. split; [reflexivity|constructor]. Qed.

Lemma silent_rel_trans master w1 w2 w3 :
  silent_rel master w1 w2 -> silent_rel master w2 w3 -> silent_rel master w1 w3.
Proof.
  intros (D1 & n1 & E1 & P1) (D2 & n2 & E2 & P2). split; [congruence|].
  exists (n1 ++ n2). split; [rewrite E2, E1; now rewrite app_assoc|].
  apply Forall_app. auto.
Qed.

Lemma silent_rel_emit master w e :
  silent_event master e ->
  silent_rel master w {| self_best_loss := self_best_loss w;
                         checkpoints_dir := checkpoints_dir w;
                         events := events w ++ [e] |}.
Proof.
  intros He. split; [reflexivity|]. exists [e]. split; [reflexivity|].
  constructor; [exact He|constructor].
Qed.

Lemma train_batch_silent self dataset_wrapper loss_fn ep i_data loc w :
  phase_name dataset_wrapper = CLASSIFICATION \/
  phase_name dataset_wrapper = AUTOREGRESSIVE ->
  silent_at consts self (l_step loc + 1) ->
  wpx (train_batch consts self dataset_wrapper loss_fn ep i_data loc)
      (fun loc' w' =>
         silent_rel (is_master_process self) w w' /\
         l_metrics loc' = l_metrics loc)
      (fun _ _ => False) w.
Proof.
  intros Hphase Hsilent. unfold train_batch.
  apply wpx_bind.
  assert (Hflat : exists flat,
            match phase_name dataset_wrapper with
            | AUTOREGRESSIVE => ret true
            | CLASSIFICATION => ret false
            | OTHER_PHASE _ => raise ValueError
            end = @ret World bool flat).
  { destruct Hphase as [-> | ->]; eauto. }
  destruct Hflat as [flat ->]. apply wpx_ret.
  destruct (backward_step _ _ _ _ _ _) as [model optimizer].
  destruct (is_master_process self) eqn:Hmaster.
  2:{ apply wpx_ret. split; [apply silent_rel_refl|reflexivity]. }
  destruct Hsilent as [Hno|(Hlog & Hsave & Heval)]; [congruence|].
  apply wpx_bind, wpx_lift. rewrite (py_mod_ok _ _ Hlog).
  apply wpx_bind.
  apply wpx_mono with (Q := fun _ w1 => silent_rel true w w1) (QE := fun _ _ => False);
    [| |auto].
  { apply wpx_when; intros _; [|apply silent_rel_refl].
    unfold wpx. rewrite log_training_loss_run. split; [reflexivity|].
    eexists [_; _]. split; [reflexivity|].
    repeat constructor. }
  cbn beta. intros _ w1 Hw1.
  apply wpx_bind, wpx_lift. rewrite Hsave.
  apply wpx_bind, wpx_when; [discriminate|intros _].
  apply wpx_bind, wpx_lift. rewrite Heval.
  apply wpx_ret. split; [exact Hw1|reflexivity].
Qed.

Lemma train_epochs_silent self dataset_wrapper loss_fn dl start loc w s_end :
  phase_name dataset_wrapper = CLASSIFICATION \/
  phase_name dataset_wrapper = AUTOREGRESSIVE ->
  (forall st, l_step loc < st <= s_end -> silent_at consts self st) ->
  l_step loc + steps_in dl (range start (epochs self)) <= s_end ->
  wpx (train_epochs consts self dataset_wrapper loss_fn dl start loc)
      (fun loc' w' =>
         silent_rel (is_master_process self) w w' /\ l_metrics loc' = l_metrics loc)
      (fun _ _ => False) w.
Proof.
  intros Hphase Hsilent Hend.
  pose (J := fun (loc1 : Locals) (w1 : World) =>
               silent_rel (is_master_process self) w w1 /\
               l_metrics loc1 = l_metrics loc /\ l_step loc <= l_step loc1).
  eapply wpx_mono;
    [apply (train_epochs_rule J (fun _ _ => False)) with (s_end := s_end)| |auto].
  - intros ep i_data loc1 w1 (Hrel & Hmet & Hge) Hlt.
    eapply wpx_mono;
      [apply wpx_and;
       [apply (train_batch_silent self dataset_wrapper loss_fn ep i_data loc1 w1 Hphase);
        apply Hsilent; lia
       |apply train_batch_step]| |].
    + cbn beta. intros loc2 w2 [[Hrel2 Hmet2] Hst]. split; [|exact Hst].
      split; [eapply silent_rel_trans; eassumption|]. split; [congruence|lia].
    + cbn beta. tauto.
  - split; [apply silent_rel_refl|]. split; [reflexivity|lia].
  - exact Hend.
  - cbn beta. intros loc' w' [(Hrel & Hmet & _) _]. auto.
Qed.

Lemma phase_loops_silent self dataset_wrapper checkpoint w :
  phase_name dataset_wrapper = CLASSIFICATION \/
  phase_name dataset_wrapper = AUTOREGRESSIVE ->
  0 < batch_size self ->
  sampler_can_be_built self (get_dataset dataset_wrapper TRAIN) ->
  (PRINT_GRAPH consts = true -> is_master_process self = true ->
   get_dataset dataset_wrapper TRAIN <> []) ->
  (forall st,
     start_step checkpoint < st
       <= start_step checkpoint
          + steps_in (train_loader self (get_dataset dataset_wrapper TRAIN))
                     (range (start_epoch checkpoint) (epochs self)) ->
     silent_at consts self st) ->
  wpx (phase_loops consts self dataset_wrapper checkpoint)
      (fun loc' w' => silent_rel (is_master_process self) w w' /\ l_metrics loc' = [])
      (fun _ _ => False) w.
Proof.
  intros Hphase Hbs Hsampler Hgraph Hsilent. unfold phase_loops. cbn zeta.
  apply wpx_bind. unfold emit at 1. apply wpx_modify.
  set (w1 := {| self_best_loss := self_best_loss w; checkpoints_dir := checkpoints_dir w;
                events := events w ++ [LoggerInfo MsgParamsCount] |}).
  assert (Hw1 : silent_rel (is_master_process self) w w1)
    by (apply silent_rel_emit; exact I).
  apply wpx_bind.
  apply wpx_mono with (Q := fun _ w2 => silent_rel (is_master_process self) w w2)
                      (QE := fun _ _ => False); [| |auto].
  { apply wpx_when; [|intros _; exact Hw1].
    intros Hb. apply andb_true_iff in Hb. destruct Hb as [Hpg Hm].
    destruct (get_dataset dataset_wrapper TRAIN) as [|x l]; [now destruct (Hgraph Hpg Hm)|].
    unfold emit. apply wpx_modify.
    eapply silent_rel_trans; [exact Hw1|]. apply silent_rel_emit. exact Hm. }
  cbn beta. intros _ w2 Hw2.
  apply wpx_bind, wpx_lift. rewrite (DataLoader_train _ _ Hbs Hsampler).
  fold (train_loader self (get_dataset dataset_wrapper TRAIN)).
  apply wpx_bind, wpx_lift.
  assert (Hloss : exists loss_fn,
            get_loss_fn (phase_name dataset_wrapper) (pad_token_id dataset_wrapper)
            = Ok loss_fn) by (destruct Hphase as [-> | ->]; cbn; eauto).
  destruct Hloss as [loss_fn ->].
  eapply wpx_mono;
    [apply train_epochs_silent
       with (s_end := start_step checkpoint
                      + steps_in (train_loader self (get_dataset dataset_wrapper TRAIN))
                                 (range (start_epoch checkpoint) (epochs self)))| |auto].
  - exact Hphase.
  - rewrite l_step_start_locals. exact Hsilent.
  - rewrite l_step_start_locals. apply Z.le_refl.
  - cbn beta. intros loc' w' [Hrel Hmet]. split.
    + eapply silent_rel_trans; eassumption.
    + rewrite Hmet. now destruct checkpoint.
Qed.

Lemma silent_rel_phase_start master phase checkpoint w :
  silent_rel master w (phase_start phase checkpoint w).
Proof.
  split; [reflexivity|]. eexists. split; [reflexivity|].
  destruct checkpoint; repeat constructor.
Qed.

Lemma _train_model_silent self phase checkpoint w :
  phase = CLASSIFICATION \/ phase = AUTOREGRESSIVE ->
  silent_phase consts self phase checkpoint ->
  wpx (_train_model consts self phase checkpoint)
      (fun metrics w' => silent_rel (is_master_process self) w w' /\ metrics = [])
      (fun _ _ => False) w.
Proof.
  intros Hphase (Hwrap & Hbs & Hsampler & Hgraph & Hsilent). unfold _train_model.
  apply wpx_bind. unfold wpx at 1. rewrite (train_phase_unfold _ _ _ _ Hphase).
  eapply wpx_mono; [apply phase_loops_silent; eassumption| |auto].
  cbn beta. intros loc' w' [Hrel Hmet]. apply wpx_ret. split; [|exact Hmet].
  eapply silent_rel_trans; [apply silent_rel_phase_start|exact Hrel].
Qed.

(** *** The run *)

Lemma train_and_evaluate_model_unfold self0 rank world_size w checkpoint :
  load_checkpoint w = (w, Ok checkpoint) ->
  let self := set_ranks self0 rank world_size in
  train_and_evaluate_model consts self0 rank world_size w
  = if pretrain_first self checkpoint
    then (_train_model consts self AUTOREGRESSIVE checkpoint
          ≫= fun _ => _train_model consts self CLASSIFICATION None) w
    else _train_model consts self CLASSIFICATION checkpoint w.
Proof.
  intros Hload self. unfold train_and_evaluate_model. fold self.
  unfold mbind at 1, M_bind at 1, bind at 1. rewrite Hload.
  destruct (pretrain_first self checkpoint); [|reflexivity].
  unfold mbind, M_bind, bind, ret.
  destruct (_train_model consts self AUTOREGRESSIVE checkpoint w) as [w1 [m|e]]; reflexivity.
Qed.

Lemma train_and_evaluate_model_raise self0 rank world_size w e :
  load_checkpoint w = (w, Raise e) ->
  train_and_evaluate_model consts self0 rank world_size w = (w, Raise e).
Proof.
  intros Hload. unfold train_and_evaluate_model.
  unfold mbind at 1, M_bind at 1, bind at 1. now rewrite Hload.
Qed.

Lemma train_and_evaluate_model_silent self0 rank world_size w checkpoint :
  load_checkpoint w = (w, Ok checkpoint) ->
  let self := set_ranks self0 rank world_size in
  (pretrain_first self checkpoint = true ->
   silent_phase consts self AUTOREGRESSIVE checkpoint /\ silent_phase consts self CLASSIFICATION None) ->
  (pretrain_first self checkpoint = false ->
   silent_phase consts self CLASSIFICATION checkpoint) ->
  wpx (train_and_evaluate_model consts self0 rank world_size)
      (fun metrics w' => silent_rel (is_master_process self) w w' /\ metrics = [])
      (fun _ _ => False) w.
Proof.
  intros Hload self Hpre Hfine. unfold wpx at 1.
  rewrite (train_and_evaluate_model_unfold _ _ _ _ _ Hload). fold self.
  destruct (pretrain_first self checkpoint).
  - destruct (Hpre eq_refl) as [Har Hcl].
    change (wpx (_train_model consts self AUTOREGRESSIVE checkpoint
                 ≫= fun _ => _train_model consts self CLASSIFICATION None)
                (fun metrics w' => silent_rel (is_master_process self) w w' /\ metrics = [])
                (fun _ _ => False) w).
    apply wpx_bind.
    eapply wpx_mono; [apply _train_model_silent; [auto|exact Har]| |auto].
    cbn beta. intros _ w1 [Hrel1 _].
    eapply wpx_mono; [apply _train_model_silent; [auto|exact Hcl]| |auto].
    cbn beta. intros m w2 [Hrel2 Hm]. split; [|exact Hm].
    eapply silent_rel_trans; eassumption.
  - apply _train_model_silent; auto.
Qed.

(** *** Workers other than the coordinating one *)

Lemma train_batch_worker_metrics self dataset_wrapper loss_fn ep i_data loc w :
  is_master_process self = false ->
  wpx (train_batch consts self dataset_wrapper loss_fn ep i_data loc)
      (fun loc' _ => l_metrics loc' = l_metrics loc) (fun _ _ => True) w.
Proof.
  intros Hmaster. unfold train_batch.
  apply wpx_bind_any. intros flat w1.
  destruct (backward_step _ _ _ _ _ _) as [model optimizer].
  rewrite Hmaster. reflexivity.
Qed.

Lemma _train_model_worker_metrics self phase checkpoint w :
  is_master_process self = false ->
  wpx (_train_model consts self phase checkpoint)
      (fun metrics _ => metrics = []) (fun _ _ => True) w.
Proof.
  intros Hmaster. unfold _train_model, train_phase.
  apply wpx_bind.
  apply wpx_bind_any. intros dataset_wrapper w1.
  do 4 (apply wpx_bind_any; intros _ ?).
  apply wpx_bind_any. intros data_loader w2.
  apply wpx_bind_any. intros loss_fn w3.
  eapply wpx_mono;
    [apply (train_epochs_rule
              (fun (loc1 : Locals) (_ : World) => l_metrics loc1 = [])
              (fun _ _ => True))
       with (s_end := l_step (start_locals (initialize_model dataset_wrapper)
                                (get_optimizer (initialize_model dataset_wrapper)) checkpoint)
                      + steps_in data_loader
                                 (range (start_epoch checkpoint) (epochs self)))| |auto].
  - intros ep i_data loc1 w4 Hmet _.
    eapply wpx_mono;
      [apply wpx_and;
       [apply (train_batch_worker_metrics _ _ _ _ _ _ _ Hmaster)|apply train_batch_step]| |auto].
    cbn beta. intros loc2 w5 [Hmet2 Hst]. split; [congruence|exact Hst].
  - now destruct checkpoint.
  - lia.
  - cbn beta. intros loc' w' [Hmet _]. apply wpx_ret. exact Hmet.
Qed.

Lemma train_and_evaluate_model_worker_metrics self0 rank world_size w :
  is_master_process (set_ranks self0 rank world_size) = false ->
  wpx (train_and_evaluate_model consts self0 rank world_size)
      (fun metrics _ => metrics = []) (fun _ _ => True) w.
Proof.
  intros Hmaster. unfold train_and_evaluate_model. cbn zeta.
  do 2 (apply wpx_bind_any; intros ? ?).
  now apply _train_model_worker_metrics.
Qed.

(** *** What a run always does *)

Lemma _train_model_always self phase checkpoint w :
  phase = CLASSIFICATION \/ phase = AUTOREGRESSIVE ->
  wpx (_train_model consts self phase checkpoint)
      (fun _ w' => training_rel (phase_name (phase_dataset_wrapper self phase))
                                (phase_start phase checkpoint w) w')
      (fun _ w' => training_rel (phase_name (phase_dataset_wrapper self phase))
                                (phase_start phase checkpoint w) w') w.
Proof.
  intros Hphase. unfold _train_model.
  apply wpx_bind. unfold wpx at 1. rewrite (train_phase_unfold _ _ _ _ Hphase).
  eapply wpx_mono; [apply phase_loops_always, training_rel_refl| |auto].
  cbn beta. intros loc' w' [Hrel _]. apply wpx_ret. exact Hrel.
Qed.

Lemma loss_rel_training_rel b0 p w1 w2 w3 :
  loss_rel b0 w1 w2 -> training_rel p w2 w3 -> loss_rel b0 w1 w3.
Proof.
  intros (n1 & E1 & B1) (n2 & E2 & _ & B2). exists (n1 ++ n2). split.
  - rewrite E2, E1. now rewrite app_assoc.
  - rewrite B2, B1, logged_losses_app, map_app, fold_left_app. reflexivity.
Qed.

Lemma loss_rel_phase_start phase checkpoint w :
  loss_rel (start_best_loss checkpoint w) w (phase_start phase checkpoint w).
Proof.
  eexists. split; [reflexivity|]. destruct checkpoint; reflexivity.
Qed.

Lemma loss_rel_phase_start_fresh b0 phase w1 w2 :
  loss_rel b0 w1 w2 -> loss_rel b0 w1 (phase_start phase None w2).
Proof.
  intros (n1 & E1 & B1). exists (n1 ++ [LoggerInfo (MsgTraining phase)]). split.
  - cbn. rewrite E1. now rewrite app_assoc.
  - rewrite logged_losses_app. cbn. rewrite app_nil_r. exact B1.
Qed.

Lemma train_and_evaluate_model_best_loss self0 rank world_size w checkpoint :
  load_checkpoint w = (w, Ok checkpoint) ->
  wpx (train_and_evaluate_model consts self0 rank world_size)
      (fun _ w' => loss_rel (start_best_loss checkpoint w) w w')
      (fun _ w' => loss_rel (start_best_loss checkpoint w) w w') w.
Proof.
  intros Hload. unfold wpx at 1.
  rewrite (train_and_evaluate_model_unfold _ _ _ _ _ Hload).
  set (self := set_ranks self0 rank world_size).
  set (Post := fun (_ : Metrics) w' => loss_rel (start_best_loss checkpoint w) w w').
  set (PostE := fun (_ : PyError) w' => loss_rel (start_best_loss checkpoint w) w w').
  destruct (pretrain_first self checkpoint).
  - change (wpx (_train_model consts self AUTOREGRESSIVE checkpoint
                 ≫= fun _ => _train_model consts self CLASSIFICATION None) Post PostE w).
    apply wpx_bind.
    eapply wpx_mono; [apply _train_model_always; auto| |].
    + cbn beta. intros ? w1 Hrel1.
      assert (H1 : loss_rel (start_best_loss checkpoint w) w w1)
        by (eapply loss_rel_training_rel; [apply loss_rel_phase_start|exact Hrel1]).
      eapply wpx_mono; [apply _train_model_always; auto| |];
        cbn beta; intros ? w2 Hrel2;
        (unfold Post, PostE; eapply loss_rel_training_rel;
         [apply loss_rel_phase_start_fresh, H1|exact Hrel2]).
    + cbn beta. intros ? w1 Hrel1. unfold PostE.
      eapply loss_rel_training_rel; [apply loss_rel_phase_start|exact Hrel1].
  - change (wpx (_train_model consts self CLASSIFICATION checkpoint) Post PostE w).
    eapply wpx_mono; [apply _train_model_always; auto| |];
      cbn beta; intros ? w1 Hrel1; unfold Post, PostE;
      (eapply loss_rel_training_rel; [apply loss_rel_phase_start|exact Hrel1]).
Qed.

(** *** The step counter *)

Lemma train_epoch_step self dataset_wrapper loss_fn dl ep loc w :
  wpx (train_epoch consts self dataset_wrapper loss_fn dl ep loc)
      (fun loc' _ => l_step loc' = l_step loc + batches_in dl ep) (fun _ _ => True) w.
Proof.
  eapply wpx_mono;
    [apply (train_epoch_rule (fun _ _ => True) (fun _ _ => True))
       with (s_end := l_step loc + batches_in dl ep); [|exact I|lia]| |auto].
  - intros i_data loc1 w1 _ _.
    eapply wpx_mono; [apply train_batch_step| |auto]. cbn beta. auto.
  - cbn beta. tauto.
Qed.

Lemma train_epochs_step self dataset_wrapper loss_fn dl start loc w :
  wpx (train_epochs consts self dataset_wrapper loss_fn dl start loc)
      (fun loc' _ => l_step loc' = l_step loc + steps_in dl (range start (epochs self)))
      (fun _ _ => True) w.
Proof.
  eapply wpx_mono;
    [apply (train_epochs_rule (fun _ _ => True) (fun _ _ => True))
       with (s_end := l_step loc + steps_in dl (range start (epochs self)));
     [|exact I|lia]| |auto].
  - intros ep i_data loc1 w1 _ _.
    eapply wpx_mono; [apply train_batch_step| |auto]. cbn beta. auto.
  - cbn beta. tauto.
Qed.

(** C4. Within a phase the step counter only goes up, and it goes up
    across every epoch boundary: a batch that completes adds exactly one
    to it; an epoch adds its number of batches to the value it starts
    with, which is the value the previous epoch ended with, so that it
    ends strictly above that value as soon as it has one batch; the loop
    over the epochs adds the batches of all of them, none resetting it;
    and a phase that can run completes with the step of the checkpoint it
    resumed from (0 without one) plus the number of batches of the epochs
    left. *)
Theorem step_counter_increasing self phase checkpoint w :
  phase_can_run consts self phase ->
  let dl := train_loader self (get_dataset (phase_dataset_wrapper self phase) TRAIN) in
  (forall dataset_wrapper loss_fn ep i_data loc w1 w2 loc',
     train_batch consts self dataset_wrapper loss_fn ep i_data loc w1 = (w2, Ok loc') ->
     l_step loc' = l_step loc + 1) /\
  (forall dataset_wrapper loss_fn data_loader ep loc w1 w2 loc',
     train_epoch consts self dataset_wrapper loss_fn data_loader ep loc w1 = (w2, Ok loc') ->
     l_step loc' = l_step loc + batches_in data_loader ep /\
     (iter_loader data_loader ep <> [] -> l_step loc < l_step loc')) /\
  (forall dataset_wrapper loss_fn data_loader start loc w1 w2 loc',
     train_epochs consts self dataset_wrapper loss_fn data_loader start loc w1 = (w2, Ok loc') ->
     l_step loc' = l_step loc + steps_in data_loader (range start (epochs self))) /\
  exists w' loc',
    train_phase consts self phase checkpoint w = (w', Ok loc') /\
    l_step loc' = start_step checkpoint
                  + steps_in dl (range (start_epoch checkpoint) (epochs self)).
Proof.
  intros Hrun dl. repeat split.
  - intros dataset_wrapper loss_fn ep i_data loc w1 w2 loc' Heq.
    pose proof (train_batch_step self dataset_wrapper loss_fn ep i_data loc w1) as H.
    unfold wpx in H. now rewrite Heq in H.
  - pose proof (train_epoch_step self dataset_wrapper loss_fn data_loader ep loc w1) as H0.
    unfold wpx in H0. now rewrite H in H0.
  - intros Hne.
    pose proof (train_epoch_step self dataset_wrapper loss_fn data_loader ep loc w1) as H0.
    unfold wpx in H0. rewrite H in H0. rewrite H0. unfold batches_in.
    destruct (iter_loader data_loader ep); [contradiction|]. cbn [length]. lia.
  - intros dataset_wrapper loss_fn data_loader start loc w1 w2 loc' Heq.
    pose proof (train_epochs_step self dataset_wrapper loss_fn data_loader start loc w1) as H.
    unfold wpx in H. now rewrite Heq in H.
  - pose proof Hrun as (Hphase & _).
    apply wpx_ok. apply wpx_total.
    + apply never_raises_train_phase. exact Hrun.
    + unfold wpx. rewrite (train_phase_unfold _ _ _ _ Hphase).
      eapply wpx_mono;
        [apply (phase_loops_always (phase_start phase checkpoint w)), training_rel_refl| |auto].
      cbn beta. intros loc' w' [_ Hst]. exact Hst.
Qed.

(** *** The best loss *)

Lemma train_batch_best_loss self dataset_wrapper loss_fn ep i_data loc w :
  fle (self_best_loss (fst (train_batch consts self dataset_wrapper loss_fn ep i_data loc w)))
      (self_best_loss w).
Proof.
  pose proof (preserves_train_batch w self dataset_wrapper loss_fn ep i_data loc w
                (training_rel_refl _ w)) as H.
  unfold wpx in H.
  destruct (train_batch consts self dataset_wrapper loss_fn ep i_data loc w) as [w' [loc'|e]];
    cbn [fst]; destruct H as (new & _ & _ & ->);
    exact (proj1 (fold_py_min_spec _ _)).
Qed.

Lemma run_best_loss self0 rank world_size dir :
  let w := init_world dir in
  let w' := fst (train_and_evaluate_model consts self0 rank world_size w) in
  let b0 := match load_checkpoint w with
            | (_, Ok (Some c)) => best_loss c
            | _ => Inf
            end in
  self_best_loss w' = fold_left py_min (map Fin (logged_losses (events w'))) b0.
Proof.
  intros w w' b0.
  pose proof (load_checkpoint_state w) as Hst.
  destruct (load_checkpoint w) as [w1 [checkpoint|e]] eqn:Hload; cbn in Hst; subst w1.
  - pose proof (train_and_evaluate_model_best_loss self0 rank world_size w checkpoint Hload) as H.
    unfold wpx in H. subst w'.
    assert (Hb : start_best_loss checkpoint w = b0) by (subst b0; now destruct checkpoint).
    rewrite Hb in H.
    destruct (train_and_evaluate_model consts self0 rank world_size w) as [w2 [m|e]];
      destruct H as (new & E & B); cbn [fst]; rewrite B; cbn in E; now rewrite E.
  - subst w'. rewrite (train_and_evaluate_model_raise _ _ _ _ _ Hload). reflexivity.
Qed.

(** *** Runs that neither save nor evaluate *)

(** A step below both intervals is not due. *)
Lemma silent_at_small self st :
  LOG_STEP consts <> 0 ->
  0 < st < SAVE_STEP consts -> 0 < st < EVAL_STEP consts ->
  silent_at consts self st.
Proof.
  intros Hlog Hsave Heval. right. split; [exact Hlog|].
  unfold past_warmup_and_due.
  destruct (WARMUP_STEPS consts <=? st); [|auto].
  rewrite !py_mod_ok by lia. cbn.
  rewrite !Z.mod_small by lia.
  destruct (Z.eqb_spec st 0); [lia|auto].
Qed.

Lemma silent_event_worker_no_loss (l : list Event) :
  Forall (silent_event false) l -> logged_losses l = [].
Proof.
  induction 1 as [|e l He _ IH]; [reflexivity|].
  destruct e as [m|p name value st| |st c]; cbn in *;
    try exact IH; try destruct He as [He _]; try discriminate.
Qed.

(** C8. A run of one epoch over four training examples in batches of two,
    started without checkpoint and without pretraining dataset, with both
    the save interval and the evaluation interval above its two steps:
    the run returns the empty metrics, the checkpoint directory is still
    absent, and the only calls made are the messages at the head of the
    phase, the model graph and the two training losses: no checkpoint is
    saved and nothing is evaluated. *)
Theorem short_run_saves_and_evaluates_nothing self0 rank world_size w :
  let self := set_ranks self0 rank world_size in
  let dataset_wrapper :=
    get_dataset_by_name (Some (_finetune_dataset self0)) CLASSIFICATION in
  checkpoints_dir w = None ->
  _pretrain_dataset self0 = None ->
  is_distributed self = false ->
  epochs self0 = 1 ->
  batch_size self0 = 2 ->
  length (get_dataset dataset_wrapper TRAIN) = 4%nat ->
  length (shuffle 0 (get_dataset dataset_wrapper TRAIN)) = 4%nat ->
  phase_name dataset_wrapper = CLASSIFICATION ->
  LOG_STEP consts <> 0 ->
  2 < SAVE_STEP consts ->
  2 < EVAL_STEP consts ->
  exists w',
    train_and_evaluate_model consts self0 rank world_size w = (w', Ok []) /\
    checkpoints_dir w' = None /\
    exists new,
      events w' = events w ++ new /\
      Forall (silent_event (is_master_process self)) new /\
      (forall st c, ~ In (TorchSave st c) new) /\
      (forall m, ~ In (LoggerInfo (MsgTestMetrics m)) new).
Proof.
  intros self dataset_wrapper Hdir Hpre Hdist Hep Hbs Hlen Hshuf Hphase Hlog Hsave Heval.
  assert (Hload : load_checkpoint w = (w, Ok None)) by now apply load_checkpoint_absent.
  assert (Hfirst : pretrain_first self None = false).
  { unfold pretrain_first. cbn. now rewrite Hpre. }
  pose proof (train_and_evaluate_model_silent self0 rank world_size w None Hload) as H.
  cbn zeta in H. fold self in H.
  assert (Hsil : silent_phase consts self CLASSIFICATION None).
  { unfold silent_phase. cbn zeta.
    change (phase_dataset_wrapper self CLASSIFICATION) with dataset_wrapper.
    split; [auto|]. split; [cbn; lia|]. split; [|split].
    - unfold sampler_can_be_built. rewrite Hdist.
      destruct (get_dataset dataset_wrapper TRAIN); [discriminate|congruence].
    - intros _ _. destruct (get_dataset dataset_wrapper TRAIN); [discriminate|congruence].
    - intros st Hst. apply silent_at_small; [exact Hlog| |].
      all: revert Hst; unfold steps_in, batches_in, iter_loader, train_loader;
        cbn [dl_sampler dl_dataset dl_batch_size start_step start_epoch];
        rewrite Hdist; change (epochs self) with (epochs self0);
        change (batch_size self) with (batch_size self0); rewrite Hep, Hbs;
        change (range 0 1) with [0]; cbn [map fold_right];
        rewrite batch_sampler_length by (cbn; lia);
        rewrite Hshuf;
        match goal with
        | |- context [Z.of_nat ?n] =>
            let v := eval vm_compute in (Z.of_nat n) in change (Z.of_nat n) with v
        end; lia. }
  specialize (H ltac:(congruence) (fun _ => Hsil)).
  apply wpx_ok in H. destruct H as (w' & m & Heq & [Hdir' (new & Hev & Hall)] & ->).
  exists w'. split; [exact Heq|]. split; [congruence|].
  exists new. split; [exact Hev|]. split; [exact Hall|].
  rewrite List.Forall_forall in Hall.
  split; intros; intros Hin; apply Hall in Hin; exact Hin.
Qed.

(** C10. On a worker whose rank is not 0 a run never returns metrics other
    than the empty ones.  And the run does return the empty metrics when
    the checkpoint lookup succeeds, the batch size is positive and, for
    each phase that the run goes through (the classification phase, and
    the pretraining phase when it comes first), the dataset wrapper has a
    known phase and the sampler of the training loader can be built (the
    rank lies below the world size in a distributed run, the training
    split has an example otherwise).  The run has then made no call but
    the messages at the head of each phase (no scalar, no checkpoint, no
    evaluation), the checkpoint directory is unchanged and the best loss
    is as the checkpoint, if any, set it. *)
Theorem worker_run_returns_empty_metrics self0 r world_size w :
  r <> 0 ->
  let self := set_ranks self0 (Some r) world_size in
  (forall w' metrics,
     train_and_evaluate_model consts self0 (Some r) world_size w = (w', Ok metrics) ->
     metrics = []) /\
  (forall checkpoint,
     load_checkpoint w = (w, Ok checkpoint) ->
     0 < batch_size self0 ->
     (forall phase,
        phase = CLASSIFICATION \/
        (phase = AUTOREGRESSIVE /\ pretrain_first self checkpoint = true) ->
        (phase_name (phase_dataset_wrapper self phase) = CLASSIFICATION \/
         phase_name (phase_dataset_wrapper self phase) = AUTOREGRESSIVE) /\
        sampler_can_be_built self (get_dataset (phase_dataset_wrapper self phase) TRAIN)) ->
     exists w',
       train_and_evaluate_model consts self0 (Some r) world_size w = (w', Ok []) /\
       silent_rel false w w' /\
       self_best_loss w' = start_best_loss checkpoint w).
Proof.
  intros Hr self.
  assert (Hmaster : is_master_process self = false).
  { unfold is_master_process, self. cbn.
    destruct (Z.eqb_spec r 0); [contradiction|]. now apply Z.eqb_neq. }
  split.
  - intros w' metrics Heq.
    pose proof (train_and_evaluate_model_worker_metrics self0 (Some r) world_size w Hmaster) as H.
    unfold wpx in H. now rewrite Heq in H.
  - intros checkpoint Hload Hbs Hphases.
    assert (Hsil : forall phase ckpt,
               phase = CLASSIFICATION \/
               (phase = AUTOREGRESSIVE /\ pretrain_first self checkpoint = true) ->
               silent_phase consts self phase ckpt).
    { intros phase ckpt Hp. destruct (Hphases phase Hp) as [Hname Hsampler].
      split; [exact Hname|]. split; [exact Hbs|]. split; [exact Hsampler|]. split.
      - intros _ Hm. congruence.
      - intros st _. left. exact Hmaster. }
    pose proof (train_and_evaluate_model_silent self0 (Some r) world_size w checkpoint Hload) as H.
    cbn zeta in H. fold self in H. rewrite Hmaster in H.
    specialize (H (fun Hp => conj (Hsil _ _ (or_intror (conj eq_refl Hp)))
                                  (Hsil _ _ (or_introl eq_refl)))
                  (fun _ => Hsil _ _ (or_introl eq_refl))).
    apply wpx_ok in H. destruct H as (w' & m & Heq & Hrel & ->).
    exists w'. split; [exact Heq|]. split; [exact Hrel|].
    pose proof (train_and_evaluate_model_best_loss self0 (Some r) world_size w checkpoint Hload)
      as Hb.
    unfold wpx in Hb. rewrite Heq in Hb. destruct Hb as (new & E & B).
    destruct Hrel as (_ & new' & E' & Hall).
    rewrite E in E'. apply app_inv_head in E'. subst new'.
    rewrite B, (silent_event_worker_no_loss _ Hall). reflexivity.
Qed.

(** *** Which phase runs first *)

(** Pretraining runs first when the checkpoint loaded was saved during
    pretraining, and also whenever a pretraining dataset is configured,
    whatever was loaded. *)
Lemma pretrain_first_spec self checkpoint :
  pretrain_first self checkpoint = true <->
  (exists c, checkpoint = Some c /\ during_pretraining c = true) \/
  (exists d, _pretrain_dataset self = Some d).
Proof.
  unfold pretrain_first. rewrite orb_true_iff. split.
  - intros [H|H].
    + left. destruct checkpoint as [c|]; [eauto|discriminate].
    + right. destruct (_pretrain_dataset self) as [d|]; [eauto|discriminate].
  - intros [(c & -> & H)|(d & H)]; [left; exact H|right; now rewrite H].
Qed.

(** Without a pretraining dataset, a checkpoint of the classification
    phase is resumed directly: the run is the classification phase from
    that checkpoint. *)
Lemma resume_classification_directly self0 rank world_size w c :
  load_checkpoint w = (w, Ok (Some c)) ->
  during_pretraining c = false ->
  _pretrain_dataset self0 = None ->
  train_and_evaluate_model consts self0 rank world_size w
  = _train_model consts (set_ranks self0 rank world_size) CLASSIFICATION (Some c) w.
Proof.
  intros Hload Hflag Hpre.
  rewrite (train_and_evaluate_model_unfold _ _ _ _ _ Hload).
  unfold pretrain_first. cbn. now rewrite Hflag, Hpre.
Qed.

(** *** Resuming a pretraining checkpoint *)

Lemma pretrain_then_finetune self c w :
  phase_name (phase_dataset_wrapper self AUTOREGRESSIVE) = AUTOREGRESSIVE ->
  phase_name (phase_dataset_wrapper self CLASSIFICATION) = CLASSIFICATION ->
  wpx (_train_model consts self AUTOREGRESSIVE (Some c)
       ≫= fun _ => _train_model consts self CLASSIFICATION None)
      (fun _ w' => pretrain_then_finetune_trace w w')
      (fun _ w' => pretrain_then_finetune_trace w w') w.
Proof.
  intros Har Hcl. apply wpx_bind.
  pose proof (_train_model_always self AUTOREGRESSIVE (Some c) w (or_intror eq_refl)) as H1.
  rewrite Har in H1.
  eapply wpx_mono; [exact H1| |].
  - cbn beta. intros _ w1 (pre & E1 & P1 & _).
    pose proof (_train_model_always self CLASSIFICATION None w1 (or_introl eq_refl)) as H2.
    rewrite Hcl in H2.
    eapply wpx_mono; [exact H2| |]; cbn beta; intros ? w2 (cls & E2 & P2 & _);
      exists pre, (LoggerInfo (MsgTraining CLASSIFICATION) :: cls);
      (split; [|split; [exact P1|right; eauto]]);
      rewrite E2; cbn; rewrite E1; cbn; rewrite <- !app_assoc; reflexivity.
  - cbn beta. intros ? w1 (pre & E1 & P1 & _).
    exists pre, []. split; [|split; [exact P1|left; reflexivity]].
    rewrite E1. cbn. rewrite app_nil_r, <- app_assoc. reflexivity.
Qed.

(** C3. When the checkpoint loaded has [during_pretraining = true], the
    run is the AUTOREGRESSIVE phase from that checkpoint followed by the
    CLASSIFICATION phase from no checkpoint.  In its calls, the
    pretraining phase is announced first and the checkpoint is loaded
    there, once; the classification phase, if the run reaches it, loads
    nothing and counts its steps from 0 over the epochs from 0.  And in
    every phase, every checkpoint saved carries
    [during_pretraining = (phase == AUTOREGRESSIVE)]. *)
Theorem pretraining_checkpoint_consumed_once self0 rank world_size w c :
  let self := set_ranks self0 rank world_size in
  load_checkpoint w = (w, Ok (Some c)) ->
  during_pretraining c = true ->
  (forall phase, phase = CLASSIFICATION \/ phase = AUTOREGRESSIVE ->
                 phase_name (phase_dataset_wrapper self phase) = phase) ->
  train_and_evaluate_model consts self0 rank world_size w
  = (_train_model consts self AUTOREGRESSIVE (Some c)
     ≫= fun _ => _train_model consts self CLASSIFICATION None) w /\
  pretrain_then_finetune_trace
    w (fst (train_and_evaluate_model consts self0 rank world_size w)) /\
  (start_epoch (@None Checkpoint) = 0 /\
   forall w1 w2 loc',
     train_phase consts self CLASSIFICATION None w1 = (w2, Ok loc') ->
     l_step loc'
     = steps_in (train_loader self
                   (get_dataset (phase_dataset_wrapper self CLASSIFICATION) TRAIN))
                (range 0 (epochs self))) /\
  (forall phase checkpoint w1 st c',
     phase = CLASSIFICATION \/ phase = AUTOREGRESSIVE ->
     let w2 := fst (train_phase consts self phase checkpoint w1) in
     exists new,
       events w2 = events (phase_start phase checkpoint w1) ++ new /\
       (In (TorchSave st c') new -> during_pretraining c' = is_autoregressive phase)).
Proof.
  intros self Hload Hflag Hwrap.
  assert (Hrun : train_and_evaluate_model consts self0 rank world_size w
                 = (_train_model consts self AUTOREGRESSIVE (Some c)
                    ≫= fun _ => _train_model consts self CLASSIFICATION None) w).
  { rewrite (train_and_evaluate_model_unfold _ _ _ _ _ Hload). fold self.
    unfold pretrain_first. now rewrite Hflag. }
  split; [exact Hrun|]. split; [|split; [split; [reflexivity|]|]].
  - rewrite Hrun.
    pose proof (pretrain_then_finetune self c w (Hwrap _ (or_intror eq_refl))
                  (Hwrap _ (or_introl eq_refl))) as H.
    unfold wpx in H.
    destruct ((_train_model consts self AUTOREGRESSIVE (Some c)
               ≫= fun _ => _train_model consts self CLASSIFICATION None) w)
      as [w' [m|e]]; exact H.
  - intros w1 w2 loc' Heq.
    pose proof (train_phase_always self CLASSIFICATION None w1 (or_introl eq_refl)
                  (Hwrap _ (or_introl eq_refl))) as H.
    unfold wpx in H. rewrite Heq in H. destruct H as [_ H]. cbn in H. exact H.
  - intros phase checkpoint w1 st c' Hphase w2.
    pose proof (train_phase_always self phase checkpoint w1 Hphase (Hwrap _ Hphase)) as H.
    unfold wpx in H. subst w2.
    assert (Hrel : training_rel phase (phase_start phase checkpoint w1)
                     (fst (train_phase consts self phase checkpoint w1))).
    { destruct (train_phase consts self phase checkpoint w1) as [w' [loc'|e]];
        cbn [fst]; tauto. }
    destruct Hrel as (new & E & Hall & _). exists new. split; [exact E|].
    intros Hin. rewrite List.Forall_forall in Hall. apply Hall in Hin. apply Hin.
Qed.

End Training.

(** ** Training: what every batch, phase and run keeps *)

Section Invariants.

Context {F : Framework} {R : Registry}.

Variable consts : STEPS.

Lemma wpx_of_run {S A} (m : M S A) (Q : A -> S -> Prop) QE s s' a :
  m s = (s', Ok a) -> Q a s' -> wpx m Q QE s.
Proof. intros E H. unfold wpx. now rewrite E. Qed.

Lemma add_events_app evs1 evs2 (w : World) :
  add_events evs2 (add_events evs1 w) = add_events (evs1 ++ evs2) w.
Proof. unfold add_events. cbn. now rewrite app_assoc. Qed.

Lemma add_events_nil (w : World) : add_events [] w = w.
Proof. destruct w. unfold add_events. cbn. now rewrite app_nil_r. Qed.

Lemma for_each_emit_run {A} (f : A -> Event) (l : list A) : forall w : World,
  for_each l (fun x (_ : unit) => emit (f x)) tt w = (add_events (map f l) w, Ok tt).
Proof.
  induction l as [|x l IH]; intros w; cbn [for_each map].
  - now rewrite add_events_nil.
  - unfold bind. cbn. rewrite IH. f_equal.
    change ({| self_best_loss := self_best_loss w; checkpoints_dir := checkpoints_dir w;
               events := events w ++ [f x] |}) with (add_events [f x] w).
    now rewrite add_events_app.
Qed.

(** The calls after an evaluation, run. *)
Lemma log_metrics_run {A} p st metrics (x : A) (w : World) :
  (for_each metrics (fun kv (_ : unit) => emit (AddScalar p (fst kv) (snd kv) st)) tt
   ≫= fun _ => emit (LoggerInfo (MsgTestMetrics metrics)) ≫= fun _ => ret x) w
  = (add_events (log_metrics_events p st metrics) w, Ok x).
Proof.
  unfold mbind, M_bind, bind. rewrite for_each_emit_run. cbn.
  unfold log_metrics_events, add_events. cbn. now rewrite <- app_assoc.
Qed.

Lemma py_mod_inv a b r : py_mod a b = Ok r -> b <> 0 /\ r = a mod b.
Proof.
  unfold py_mod. destruct (Z.eqb_spec b 0); [discriminate|]. now intros [= <-].
Qed.

Lemma past_warmup_and_due_true st interval :
  past_warmup_and_due consts st interval = Ok true ->
  WARMUP_STEPS consts <= st /\ interval <> 0 /\ st mod interval = 0.
Proof.
  unfold past_warmup_and_due.
  destruct (Z.leb_spec (WARMUP_STEPS consts) st) as [Hle|]; [|discriminate].
  destruct (py_mod st interval) as [r|e] eqn:E; cbn; [|discriminate].
  apply py_mod_inv in E. destruct E as [Hne ->].
  destruct (Z.eqb_spec (st mod interval) 0); [auto|discriminate].
Qed.

Lemma l_metrics_start_locals model optimizer checkpoint :
  l_metrics (start_locals model optimizer checkpoint) = [].
Proof. now destruct checkpoint. Qed.

(** The rule of a batch.  [K st metrics w] is kept from step to step when
    it survives the move to the next step, the log of a training loss at
    the new step, a save, and an evaluation with its log. *)
Lemma train_batch_rule (K : Z -> Metrics -> World -> Prop)
    self dataset_wrapper loss_fn ep i_data loc w :
  batch_closed consts self dataset_wrapper K ->
  K (l_step loc) (l_metrics loc) w ->
  wpx (train_batch consts self dataset_wrapper loss_fn ep i_data loc)
      (fun loc' w' => K (l_step loc') (l_metrics loc') w')
      (fun _ w' => exists m, K (l_step loc + 1) m w') w.
Proof.
  intros (Henter & Hlog & Hsave & Heval & _) HK. unfold train_batch.
  set (p := phase_name dataset_wrapper) in *.
  pose proof (Henter _ _ _ HK) as HK1.
  set (st := l_step loc + 1) in *.
  set (m0 := l_metrics loc) in *.
  apply wpx_bind.
  apply wpx_mono with (Q := fun _ w1 => w1 = w)
                      (QE := fun _ w1 => exists m, K st m w1); [| |auto].
  { unfold p. destruct (phase_name dataset_wrapper);
      [apply wpx_ret; reflexivity|apply wpx_ret; reflexivity|cbn; eauto]. }
  cbn beta. intros flat w0 ->.
  set (loss := loss_item loss_fn flat _ _).
  destruct (backward_step _ _ _ _ _ _) as [model optimizer].
  destruct (is_master_process self); [|exact HK1].
  (* the training loss *)
  apply wpx_bind, wpx_lift.
  destruct (py_mod st (LOG_STEP consts)) as [r|e] eqn:Er; [|eauto].
  apply py_mod_inv in Er. destruct Er as [Hne ->].
  apply wpx_bind.
  apply wpx_mono with (Q := fun _ w1 => K st m0 w1)
                      (QE := fun _ w1 => exists m, K st m w1); [| |auto].
  { apply wpx_when; [|intros _; exact HK1].
    intros Hr. apply Z.eqb_eq in Hr.
    pose proof (Hlog ep (l_step loc) m0 loss w HK Hne Hr) as H.
    fold st in H. rewrite log_training_loss_run in H.
    eapply wpx_of_run; [apply log_training_loss_run|exact H]. }
  cbn beta. intros _ w1 Hw1.
  (* the checkpoint *)
  apply wpx_bind, wpx_lift.
  destruct (past_warmup_and_due consts st (SAVE_STEP consts)) as [save_due|e] eqn:Es;
    [|eauto].
  apply wpx_bind.
  apply wpx_mono with (Q := fun _ w2 => K st m0 w2)
                      (QE := fun _ w2 => exists m, K st m w2); [| |auto].
  { apply wpx_when; [|intros _; exact Hw1].
    intros ->. apply past_warmup_and_due_true in Es. destruct Es as (H1 & H2 & H3).
    pose proof (Hsave ep st m0 model optimizer w1 Hw1 H1 H2 H3) as H.
    rewrite save_checkpoint_run in H.
    eapply wpx_of_run; [apply save_checkpoint_run|exact H]. }
  cbn beta. intros _ w2 Hw2.
  (* the evaluation *)
  apply wpx_bind, wpx_lift.
  destruct (past_warmup_and_due consts st (EVAL_STEP consts)) as [eval_due|e] eqn:Ee;
    [|eauto].
  destruct eval_due; [|exact Hw2].
  apply past_warmup_and_due_true in Ee. destruct Ee as (H1 & H2 & H3).
  apply wpx_bind, wpx_lift.
  destruct (_evaluate_model self model dataset_wrapper TEST) as [metrics|e] eqn:Ev;
    [|eauto].
  eapply wpx_of_run; [apply log_metrics_run|].
  cbn [l_step l_metrics]. apply (Heval st m0 model); assumption.
Qed.

Lemma train_epochs_closed (K : Z -> Metrics -> World -> Prop)
    self dataset_wrapper loss_fn dl start loc w :
  batch_closed consts self dataset_wrapper K ->
  K (l_step loc) (l_metrics loc) w ->
  wpx (train_epochs consts self dataset_wrapper loss_fn dl start loc)
      (fun loc' w' => K (l_step loc') (l_metrics loc') w' /\
         l_step loc' = l_step loc + steps_in dl (range start (epochs self)))
      (fun _ w' => exists st m, K st m w') w.
Proof.
  intros Hclosed HK.
  apply (train_epochs_rule consts (fun loc1 w1 => K (l_step loc1) (l_metrics loc1) w1)
           (fun _ w' => exists st m, K st m w'))
    with (s_end := l_step loc + steps_in dl (range start (epochs self))).
  - intros ep i_data loc1 w1 HK1 _.
    eapply wpx_mono;
      [apply wpx_and;
       [apply (train_batch_rule K self dataset_wrapper loss_fn ep i_data loc1 w1);
        [exact Hclosed|exact HK1]
       |apply train_batch_step]| |].
    + cbn beta. tauto.
    + cbn beta. intros e w2 [H _]. eauto.
  - exact HK.
  - lia.
Qed.

Lemma phase_loops_closed (K : Z -> Metrics -> World -> Prop)
    self dataset_wrapper checkpoint w :
  batch_closed consts self dataset_wrapper K ->
  K (start_step checkpoint) [] w ->
  wpx (phase_loops consts self dataset_wrapper checkpoint)
      (fun loc' w' => K (l_step loc') (l_metrics loc') w' /\
         l_step loc'
         = start_step checkpoint
           + steps_in (train_loader self (get_dataset dataset_wrapper TRAIN))
                      (range (start_epoch checkpoint) (epochs self)))
      (fun _ w' => exists st m, K st m w') w.
Proof.
  intros Hclosed HK. pose proof Hclosed as (_ & _ & _ & _ & Hcount & Hgraph).
  unfold phase_loops. cbn zeta.
  apply wpx_bind. unfold emit at 1. apply wpx_modify.
  pose proof (Hcount _ _ _ HK) as HK1. unfold add_events in HK1.
  set (w1 := {| self_best_loss := self_best_loss w |}) in *.
  apply wpx_bind.
  apply wpx_mono with (Q := fun _ w2 => K (start_step checkpoint) [] w2)
                      (QE := fun _ w2 => exists st m, K st m w2); [| |auto].
  { apply wpx_when; [|intros _; exact HK1].
    intros Hb. apply andb_true_iff in Hb. destruct Hb as [_ Hm].
    destruct (get_dataset dataset_wrapper TRAIN) as [|x l]; [apply wpx_raise; eauto|].
    unfold emit. apply wpx_modify. apply (Hgraph _ _ _ HK1 Hm). }
  cbn beta. intros _ w2 Hw2.
  apply wpx_bind, wpx_lift.
  destruct (DataLoader _ _ _) as [dl|e] eqn:Edl; [|eauto].
  assert (Hdl : dl = train_loader self (get_dataset dataset_wrapper TRAIN)).
  { unfold DataLoader in Edl.
    destruct (batch_size self <=? 0); [discriminate|].
    destruct (sampler_raises _ _); [discriminate|]. now injection Edl as <-. }
  apply wpx_bind, wpx_lift. destruct (get_loss_fn _ _) as [loss_fn|e]; [|eauto].
  eapply wpx_mono; [apply (train_epochs_closed K); [exact Hclosed|]| |auto].
  - rewrite l_step_start_locals, l_metrics_start_locals. exact Hw2.
  - cbn beta. intros loc' w' [H1 H2]. split; [exact H1|].
    rewrite H2, l_step_start_locals, Hdl. reflexivity.
Qed.

Lemma phase_start_add_events phase checkpoint (w : World) :
  phase_start phase checkpoint w
  = match checkpoint with
    | Some c => add_events [LoggerInfo (MsgTraining phase); LoggerInfo MsgCheckpointLoaded]
                  (set_best_loss (best_loss c) w)
    | None => add_events [LoggerInfo (MsgTraining phase)] w
    end.
Proof. destruct checkpoint; reflexivity. Qed.

Lemma set_best_loss_same (w : World) : set_best_loss (self_best_loss w) w = w.
Proof. now destruct w. Qed.

(** The rule of a phase, from the state in which its loops start. *)
Lemma train_phase_from_start (K : Z -> Metrics -> World -> Prop) self phase checkpoint w :
  phase = CLASSIFICATION \/ phase = AUTOREGRESSIVE ->
  batch_closed consts self (phase_dataset_wrapper self phase) K ->
  K (start_step checkpoint) [] (phase_start phase checkpoint w) ->
  wpx (train_phase consts self phase checkpoint)
      (fun loc' w' => K (l_step loc') (l_metrics loc') w' /\
         l_step loc'
         = start_step checkpoint
           + steps_in (train_loader self
                         (get_dataset (phase_dataset_wrapper self phase) TRAIN))
                      (range (start_epoch checkpoint) (epochs self)))
      (fun _ w' => exists st m, K st m w') w.
Proof.
  intros Hphase Hbatch HK.
  unfold wpx. rewrite (train_phase_unfold _ _ _ _ _ Hphase).
  now apply phase_loops_closed.
Qed.

(** The rule of a phase, for a [K] that the head of the phase keeps. *)
Lemma train_phase_closed (K : Z -> Metrics -> World -> Prop) self phase checkpoint w :
  batch_closed consts self (phase_dataset_wrapper self phase) K ->
  phase_closed K ->
  K (start_step checkpoint) [] w ->
  wpx (train_phase consts self phase checkpoint)
      (fun loc' w' => K (l_step loc') (l_metrics loc') w')
      (fun _ w' => exists st m, K st m w') w.
Proof.
  intros Hbatch (Htrain & Hloaded & Hbest) HK.
  assert (Hphase : (phase = CLASSIFICATION \/ phase = AUTOREGRESSIVE)
                   \/ exists name, phase = OTHER_PHASE name)
    by (destruct phase; eauto).
  destruct Hphase as [Hphase|[name ->]]; [|apply wpx_bind, wpx_raise; eauto].
  eapply wpx_mono; [apply (train_phase_from_start K); [exact Hphase|exact Hbatch|]| |auto].
  - rewrite phase_start_add_events. destruct checkpoint as [c|]; [|auto].
    change [LoggerInfo (MsgTraining phase); LoggerInfo MsgCheckpointLoaded]
      with ([LoggerInfo (MsgTraining phase)] ++ [LoggerInfo MsgCheckpointLoaded]).
    rewrite <- add_events_app. auto.
  - cbn beta. tauto.
Qed.

(** The rule of a run, for a [K] that depends on the state only: it holds
    at the end when the batches of both phases and the messages at the head
    of a phase keep it, and it holds of the state in which the first phase
    starts. *)
Lemma train_and_evaluate_model_rule (K : World -> Prop) self0 rank world_size w :
  let self := set_ranks self0 rank world_size in
  batch_closed consts self (phase_dataset_wrapper self AUTOREGRESSIVE) (fun _ _ => K) ->
  batch_closed consts self (phase_dataset_wrapper self CLASSIFICATION) (fun _ _ => K) ->
  (forall phase w1, K w1 -> K (add_events [LoggerInfo (MsgTraining phase)] w1)) ->
  (forall w1, K w1 -> K (add_events [LoggerInfo MsgCheckpointLoaded] w1)) ->
  (forall checkpoint, load_checkpoint w = (w, Ok checkpoint) ->
                      K (set_best_loss (start_best_loss checkpoint w) w)) ->
  (forall e, load_checkpoint w = (w, Raise e) -> K w) ->
  K (fst (train_and_evaluate_model consts self0 rank world_size w)).
Proof.
  intros self Har Hcl Htrain Hloaded Hinit Hraise.
  pose proof (load_checkpoint_state w) as Hst.
  destruct (load_checkpoint w) as [w0 [checkpoint|e]] eqn:Hload; cbn in Hst; subst w0.
  2:{ rewrite (train_and_evaluate_model_raise _ _ _ _ _ _ Hload). eauto. }
  specialize (Hinit _ eq_refl).
  rewrite (train_and_evaluate_model_unfold _ _ _ _ _ _ Hload). fold self.
  assert (Hone : forall phase ckpt w1, phase = AUTOREGRESSIVE \/ phase = CLASSIFICATION ->
            K (phase_start phase ckpt w1) ->
            wpx (_train_model consts self phase ckpt) (fun _ w' => K w') (fun _ w' => K w') w1).
  { intros phase ckpt w1 Hp Hw1. unfold _train_model. apply wpx_bind.
    eapply wpx_mono;
      [apply (train_phase_from_start (fun _ _ => K));
       [tauto|destruct Hp as [-> | ->]; assumption|exact Hw1]| |].
    - cbn beta. intros loc' w' [H _]. exact H.
    - cbn beta. intros _ w' (_ & _ & H). exact H. }
  assert (Hfirst : forall phase, K (phase_start phase checkpoint w)).
  { intros phase. rewrite phase_start_add_events.
    destruct checkpoint as [c|]; cbn [start_best_loss] in Hinit.
    - change [LoggerInfo (MsgTraining phase); LoggerInfo MsgCheckpointLoaded]
        with ([LoggerInfo (MsgTraining phase)] ++ [LoggerInfo MsgCheckpointLoaded]).
      rewrite <- add_events_app. auto.
    - rewrite set_best_loss_same in Hinit. auto. }
  destruct (pretrain_first self checkpoint).
  - assert (H : wpx (_train_model consts self AUTOREGRESSIVE checkpoint
                     ≫= fun _ => _train_model consts self CLASSIFICATION None)
                    (fun _ w' => K w') (fun _ w' => K w') w).
    { apply wpx_bind. eapply wpx_mono; [apply Hone; auto| |auto].
      cbn beta. intros _ w1 Hw1. apply Hone; [auto|].
      rewrite phase_start_add_events. auto. }
    unfold wpx in H.
    destruct ((_train_model consts self AUTOREGRESSIVE checkpoint
               ≫= fun _ => _train_model consts self CLASSIFICATION None) w) as [w' [m|e]];
      exact H.
  - pose proof (Hone CLASSIFICATION checkpoint w (or_intror eq_refl) (Hfirst _)) as H.
    unfold wpx in H.
    destruct (_train_model consts self CLASSIFICATION checkpoint w) as [w' [m|e]]; exact H.
Qed.

(** *** The best loss, batch by batch *)

Lemma quiet_after (w0 w w' : World) evs :
  (exists rest, logged_losses rest = [] /\
     self_best_loss w = self_best_loss w0 /\ events w = events w0 ++ rest) ->
  self_best_loss w' = self_best_loss w ->
  events w' = events w ++ evs ->
  logged_losses evs = [] ->
  exists rest, logged_losses rest = [] /\
     self_best_loss w' = self_best_loss w0 /\ events w' = events w0 ++ rest.
Proof.
  intros (rest & Hl & Hb & He) Hb' He' Hevs. exists (rest ++ evs).
  split; [now rewrite logged_losses_app, Hl, Hevs|].
  split; [congruence|]. now rewrite He', He, app_assoc.
Qed.

(** What a batch does to the best loss on the coordinating worker: at a
    step that the log interval divides, the loss of the batch is sent to
    tensorboard and logged, and the best loss becomes its minimum with
    that loss; at any other step the best loss stays.  Nothing after that
    in the batch touches the best loss or logs a training loss, whether
    the batch completes or not. *)
Lemma train_batch_log self dataset_wrapper loss_fn ep i_data loc (w1 : World) :
  let p := phase_name dataset_wrapper in
  let st := l_step loc + 1 in
  let loss := loss_item loss_fn (is_autoregressive p)
                (forward (l_model loc) (map fst (snd i_data))) (map snd (snd i_data)) in
  let w2 := fst (train_batch consts self dataset_wrapper loss_fn ep i_data loc w1) in
  p = CLASSIFICATION \/ p = AUTOREGRESSIVE ->
  is_master_process self = true ->
  LOG_STEP consts <> 0 ->
  exists rest,
    logged_losses rest = [] /\
    if st mod LOG_STEP consts =? 0
    then self_best_loss w2 = py_min (self_best_loss w1) (Fin loss) /\
         events w2 = events w1 ++ AddScalar p "Loss" loss st
                                  :: LoggerInfo (MsgStep p ep st loss) :: rest
    else self_best_loss w2 = self_best_loss w1 /\ events w2 = events w1 ++ rest.
Proof.
  intros p st loss w2 Hp Hm Hlog.
  set (w_log := if st mod LOG_STEP consts =? 0
                then fst (log_training_loss p ep st loss w1) else w1).
  pose (J := fun w : World =>
               exists rest, logged_losses rest = [] /\
                 self_best_loss w = self_best_loss w_log /\
                 events w = events w_log ++ rest).
  assert (HJ0 : J w_log) by (exists []; now rewrite app_nil_r).
  assert (H : wpx (train_batch consts self dataset_wrapper loss_fn ep i_data loc)
                  (fun _ w => J w) (fun _ w => J w) w1).
  { unfold train_batch. fold p st.
    apply wpx_bind.
    apply wpx_mono with (Q := fun flat w => w = w1 /\ flat = is_autoregressive p)
                        (QE := fun _ _ => False); [| |tauto].
    { destruct Hp as [-> | ->]; apply wpx_ret; auto. }
    cbn beta. intros flat w [-> ->]. fold loss.
    destruct (backward_step _ _ _ _ _ _) as [model optimizer].
    rewrite Hm.
    apply wpx_bind, wpx_lift. rewrite (py_mod_ok _ _ Hlog).
    apply wpx_bind.
    apply wpx_mono with (Q := fun _ w => w = w_log) (QE := fun _ _ => False); [| |tauto].
    { apply wpx_when; intros Hdue; unfold w_log; rewrite Hdue; [|reflexivity].
      eapply wpx_of_run; [apply log_training_loss_run|].
      now rewrite log_training_loss_run. }
    cbn beta. intros _ w ->.
    (* the checkpoint *)
    apply wpx_bind, wpx_lift.
    destruct (past_warmup_and_due consts st (SAVE_STEP consts)) as [save_due|e];
      [|exact HJ0].
    apply wpx_bind.
    apply wpx_mono with (Q := fun _ w => J w) (QE := fun _ w => J w); [| |auto].
    { apply wpx_when; [|intros _; exact HJ0]. intros _.
      eapply wpx_of_run; [apply save_checkpoint_run|].
      eapply quiet_after; [exact HJ0|reflexivity|reflexivity|reflexivity]. }
    cbn beta. intros _ w HJ.
    (* the evaluation *)
    apply wpx_bind, wpx_lift.
    destruct (past_warmup_and_due consts st (EVAL_STEP consts)) as [eval_due|e];
      [|exact HJ].
    destruct eval_due; [|exact HJ].
    apply wpx_bind, wpx_lift.
    destruct (_evaluate_model self model dataset_wrapper TEST) as [metrics|e] eqn:Ev;
      [|exact HJ].
    eapply wpx_of_run; [apply log_metrics_run|].
    eapply quiet_after; [exact HJ|reflexivity|reflexivity|].
    destruct (_evaluate_model_keys _ _ _ _ _ Ev) as (l & a & ->). reflexivity. }
  unfold wpx in H. fold w2.
  assert (HJ : J w2).
  { subst w2. destruct (train_batch consts self dataset_wrapper loss_fn ep i_data loc w1)
      as [w' [loc'|e]]; exact H. }
  destruct HJ as (rest & Hl & Hb & He). exists rest. split; [exact Hl|].
  unfold w_log in Hb, He.
  destruct (st mod LOG_STEP consts =? 0).
  - rewrite log_training_loss_run in Hb, He. cbn [fst self_best_loss events] in Hb, He.
    split; [exact Hb|]. rewrite He, <- app_assoc. reflexivity.
  - auto.
Qed.

(** A worker other than the coordinating one leaves the state alone. *)
Lemma train_batch_worker_state self dataset_wrapper loss_fn ep i_data loc (w1 : World) :
  is_master_process self = false ->
  fst (train_batch consts self dataset_wrapper loss_fn ep i_data loc w1) = w1.
Proof.
  intros Hm. unfold train_batch, mbind, M_bind, bind.
  destruct (phase_name dataset_wrapper); cbn;
    try destruct (backward_step _ _ _ _ _ _) as [model optimizer];
    rewrite ?Hm; reflexivity.
Qed.

(** Over any stretch of the loops, the best loss goes from its value at
    the start to the minimum of that value and the losses logged. *)
Lemma train_epochs_best_loss self dataset_wrapper loss_fn dl start loc (w1 : World) :
  let w2 := fst (train_epochs consts self dataset_wrapper loss_fn dl start loc w1) in
  exists new,
    events w2 = events w1 ++ new /\
    self_best_loss w2 = fold_left py_min (map Fin (logged_losses new)) (self_best_loss w1).
Proof.
  intros w2.
  pose proof (train_epochs_always consts w1 self dataset_wrapper loss_fn dl start loc w1
                (training_rel_refl _ w1)) as H.
  unfold wpx in H. subst w2.
  destruct (train_epochs consts self dataset_wrapper loss_fn dl start loc w1)
    as [w' [loc'|e]]; cbn [fst].
  - destruct H as [(new & E & _ & B) _]. eauto.
  - destruct H as (new & E & _ & B). eauto.
Qed.

(** C5. The best loss is the running minimum of the losses observed.
    Batch by batch: on the coordinating worker, at a step that the log
    interval divides, the loss of the batch is sent to tensorboard and
    logged and the best loss becomes [min(best_loss, loss)]; at any other
    step, and on any other worker, the best loss stays as it is; in no case
    does a batch raise it.  Over any stretch of the loops the best loss is
    therefore the running minimum ([fold_left py_min]) of its value at the
    start and the training losses logged in between.  And at the end of a
    run of a new trainer it is the running minimum of the losses logged in
    the run, started from the best loss of the checkpoint resumed from
    (from infinity without one): it is below that start value and below
    every logged loss, and it is one of these values. *)
Theorem best_loss_running_minimum self0 rank world_size dir :
  let w := init_world dir in
  let w' := fst (train_and_evaluate_model consts self0 rank world_size w) in
  let b0 := match load_checkpoint w with
            | (_, Ok (Some c)) => best_loss c
            | _ => Inf
            end in
  let losses := map Fin (logged_losses (events w')) in
  (forall self dataset_wrapper loss_fn ep i_data loc w1,
     let p := phase_name dataset_wrapper in
     let st := l_step loc + 1 in
     let loss := loss_item loss_fn (is_autoregressive p)
                   (forward (l_model loc) (map fst (snd i_data))) (map snd (snd i_data)) in
     let w2 := fst (train_batch consts self dataset_wrapper loss_fn ep i_data loc w1) in
     p = CLASSIFICATION \/ p = AUTOREGRESSIVE ->
     (is_master_process self = true -> LOG_STEP consts <> 0 ->
      exists rest,
        logged_losses rest = [] /\
        if st mod LOG_STEP consts =? 0
        then self_best_loss w2 = py_min (self_best_loss w1) (Fin loss) /\
             events w2 = events w1 ++ AddScalar p "Loss" loss st
                                      :: LoggerInfo (MsgStep p ep st loss) :: rest
        else self_best_loss w2 = self_best_loss w1 /\ events w2 = events w1 ++ rest) /\
     (is_master_process self = false -> w2 = w1)) /\
  (forall self dataset_wrapper loss_fn ep i_data loc w1,
     fle (self_best_loss
            (fst (train_batch consts self dataset_wrapper loss_fn ep i_data loc w1)))
         (self_best_loss w1)) /\
  (forall self dataset_wrapper loss_fn data_loader start loc w1,
     let w2 := fst (train_epochs consts self dataset_wrapper loss_fn data_loader
                                 start loc w1) in
     exists new,
       events w2 = events w1 ++ new /\
       self_best_loss w2
       = fold_left py_min (map Fin (logged_losses new)) (self_best_loss w1)) /\
  self_best_loss w' = fold_left py_min losses b0 /\
  fle (self_best_loss w') b0 /\
  (forall x, In x losses -> fle (self_best_loss w') x) /\
  In (self_best_loss w') (b0 :: losses).
Proof.
  intros w w' b0 losses.
  split.
  { intros self dataset_wrapper loss_fn ep i_data loc w1 p st loss w2 Hp. split.
    - intros Hm Hlog. now apply train_batch_log.
    - intros Hm. now apply train_batch_worker_state. }
  split; [intros; apply train_batch_best_loss|].
  split; [intros; apply train_epochs_best_loss|].
  pose proof (run_best_loss consts self0 rank world_size dir) as H. cbn zeta in H.
  fold w w' b0 losses in H.
  destruct (fold_py_min_spec losses b0) as (H1 & H2 & H3).
  rewrite H. auto.
Qed.

(** *** The calls of a run are made on schedule *)

Lemma log_metrics_events_forall (P : Event -> Prop) p st self model dataset split metrics :
  _evaluate_model self model dataset split = Ok metrics ->
  (forall name value, name <> "Loss"%string -> P (AddScalar p name value st)) ->
  (forall m, P (LoggerInfo (MsgTestMetrics m))) ->
  Forall P (log_metrics_events p st metrics).
Proof.
  intros Hm Hs Hl. destruct (_evaluate_model_keys _ _ _ _ _ Hm) as (l & a & ->).
  unfold log_metrics_events. cbn.
  repeat constructor; try apply Hs; try apply Hl; discriminate.
Qed.

Lemma appended_forall (P : Event -> Prop) (w w1 w2 : World) evs :
  (exists new, events w1 = events w ++ new /\ Forall P new) ->
  events w2 = events w1 ++ evs -> Forall P evs ->
  exists new, events w2 = events w ++ new /\ Forall P new.
Proof.
  intros (new & E & H) E2 He. exists (new ++ evs).
  rewrite E2, E, app_assoc. split; [reflexivity|]. apply Forall_app. auto.
Qed.

Lemma on_schedule_closed self dataset_wrapper (w : World) :
  batch_closed consts self dataset_wrapper
    (fun _ _ w1 => exists new, events w1 = events w ++ new /\ Forall (on_schedule consts) new).
Proof.
  unfold batch_closed. cbn zeta. split; [|split; [|split; [|split; [|split]]]].
  - intros st m w1 H. exact H.
  - intros ep st m loss w1 H Hne Hmod. rewrite log_training_loss_run. cbn [fst].
    eapply appended_forall; [exact H|reflexivity|].
    repeat constructor; cbn; auto.
  - intros ep st m model optimizer w1 H H1 H2 H3. rewrite save_checkpoint_run. cbn [fst].
    eapply appended_forall; [exact H|reflexivity|].
    repeat constructor; cbn; auto.
  - intros st m model metrics w1 H H1 H2 H3 Hm.
    eapply appended_forall; [exact H|reflexivity|].
    eapply log_metrics_events_forall; [exact Hm| |intros; exact I].
    intros name value Hname. cbn.
    destruct (String.eqb_spec name "Loss"); [contradiction|auto].
  - intros st m w1 H.
    eapply appended_forall; [exact H|reflexivity|]. repeat constructor.
  - intros st m w1 H _.
    eapply appended_forall; [exact H|reflexivity|]. repeat constructor.
Qed.

(** X4. Whatever the trainer, the worker and the state, the calls that a
    run adds are made on schedule: a training loss goes to tensorboard and
    to the log only at a step that the log interval divides; a checkpoint
    is saved only past the warm-up, at a step that the save interval
    divides; and the metrics of an evaluation are logged only past the
    warm-up, at a step that the evaluation interval divides. *)
Theorem run_calls_on_schedule self0 rank world_size (w : World) :
  exists new,
    events (fst (train_and_evaluate_model consts self0 rank world_size w)) = events w ++ new /\
    Forall (on_schedule consts) new.
Proof.
  apply (train_and_evaluate_model_rule
           (fun w1 => exists new, events w1 = events w ++ new /\
                                  Forall (on_schedule consts) new)).
  - apply on_schedule_closed.
  - apply on_schedule_closed.
  - intros phase w1 H.
    eapply appended_forall; [exact H|reflexivity|]. repeat constructor.
  - intros w1 H.
    eapply appended_forall; [exact H|reflexivity|]. repeat constructor.
  - intros checkpoint _. exists []. cbn. now rewrite app_nil_r.
  - intros e _. exists []. now rewrite app_nil_r.
Qed.

(** *** The checkpoint files of a run *)

Lemma dir_rel_refl (w : World) : dir_rel w w.
Proof.
  exists []. rewrite app_nil_r. split; [reflexivity|].
  split; [auto|]. split; [auto|]. split; [intros k c []|auto].
Qed.

Lemma dir_rel_events (w w1 w2 : World) evs :
  dir_rel w w1 ->
  checkpoints_dir w2 = checkpoints_dir w1 ->
  events w2 = events w1 ++ evs ->
  (forall k c, ~ In (TorchSave k c) evs) ->
  dir_rel w w2.
Proof.
  intros (new & E & H1 & H2 & H3 & H4) Hd He Hno. exists (new ++ evs).
  unfold dir_of in *. rewrite Hd.
  split; [now rewrite He, E, app_assoc|].
  split; [exact H1|]. split; [|split; [|exact H4]].
  - intros k c Hk. destruct (H2 k c Hk) as [Hold|[Hin Hs]]; [now left|right].
    split; [apply in_or_app; now left|exact Hs].
  - intros k c Hin. apply in_app_or in Hin. destruct Hin as [Hin|Hin]; [eauto|].
    exfalso. eapply Hno, Hin.
Qed.

Lemma dir_rel_save (w w1 : World) model optimizer ep st flag :
  dir_rel w w1 ->
  dir_rel w (fst (save_checkpoint model optimizer ep st flag w1)).
Proof.
  intros (new & E & H1 & H2 & H3 & H4). rewrite save_checkpoint_run. cbn [fst].
  set (c := {| epoch := ep |}).
  exists (new ++ [TorchSave st c; LoggerInfo (MsgCheckpointSaved st)]).
  unfold dir_of in *. cbn [checkpoints_dir events]. cbn [from_option id].
  split; [now rewrite E, app_assoc|].
  split; [|split; [|split; [|discriminate]]].
  - intros k Hk. apply lookup_insert_is_Some.
    destruct (decide (st = k)); [now left|right; auto].
  - intros k c' Hk. destruct (decide (st = k)) as [<-|Hne].
    + rewrite lookup_insert_eq in Hk. injection Hk as <-. right.
      split; [apply in_or_app; right; now left|reflexivity].
    + rewrite lookup_insert_ne in Hk by exact Hne.
      destruct (H2 k c' Hk) as [Hold|[Hin Hs]]; [now left|right].
      split; [apply in_or_app; now left|exact Hs].
  - intros k c' Hin. apply lookup_insert_is_Some.
    apply in_app_or in Hin. destruct Hin as [Hin|[Heq|[Heq|[]]]].
    + destruct (decide (st = k)); [now left|right]. split; [assumption|eauto].
    + injection Heq as <- _. now left.
    + discriminate.
Qed.

Lemma log_metrics_events_no_save p st metrics k (c : Checkpoint) :
  ~ In (TorchSave k c) (log_metrics_events p st metrics).
Proof.
  unfold log_metrics_events. intros Hin. apply in_app_or in Hin.
  destruct Hin as [Hin|[Heq|[]]]; [|discriminate].
  apply in_map_iff in Hin. destruct Hin as (kv & Heq & _). discriminate.
Qed.

Lemma dir_rel_closed self dataset_wrapper (w : World) :
  batch_closed consts self dataset_wrapper (fun _ _ w1 => dir_rel w w1).
Proof.
  unfold batch_closed. cbn zeta. split; [|split; [|split; [|split; [|split]]]].
  - intros st m w1 H. exact H.
  - intros ep st m loss w1 H _ _. rewrite log_training_loss_run. cbn [fst].
    eapply dir_rel_events; [exact H|reflexivity|reflexivity|].
    intros k c [Heq|[Heq|[]]]; discriminate.
  - intros ep st m model optimizer w1 H _ _ _. now apply dir_rel_save.
  - intros st m model metrics w1 H _ _ _ _.
    eapply dir_rel_events; [exact H|reflexivity|reflexivity|].
    intros k c. apply log_metrics_events_no_save.
  - intros st m w1 H.
    eapply dir_rel_events; [exact H|reflexivity|reflexivity|].
    intros k c [Heq|[]]; discriminate.
  - intros st m w1 H _.
    eapply dir_rel_events; [exact H|reflexivity|reflexivity|].
    intros k c [Heq|[]]; discriminate.
Qed.

(** X5. A run never removes a checkpoint: every file of the directory is
    still there at the end (a save may have replaced its content), the
    directory itself is still there, every file of the end is a file of
    the start or was saved by the run under the step it holds, and every
    save of the run left a file under its step.  So a directory in which
    every file is named by the step it holds stays such a directory. *)
Theorem run_keeps_checkpoint_files self0 rank world_size (w : World) :
  let w' := fst (train_and_evaluate_model consts self0 rank world_size w) in
  dir_rel w w' /\ (well_named w -> well_named w').
Proof.
  intros w'.
  assert (H : dir_rel w w').
  { apply (train_and_evaluate_model_rule (fun w1 => dir_rel w w1)).
    - apply dir_rel_closed.
    - apply dir_rel_closed.
    - intros phase w1 H.
      eapply dir_rel_events; [exact H|reflexivity|reflexivity|].
      intros k c [Heq|[]]; discriminate.
    - intros w1 H.
      eapply dir_rel_events; [exact H|reflexivity|reflexivity|].
      intros k c [Heq|[]]; discriminate.
    - intros checkpoint _.
      eapply dir_rel_events with (evs := []);
        [apply dir_rel_refl|reflexivity|cbn; now rewrite app_nil_r|intros k c []].
    - intros e _. apply dir_rel_refl. }
  split; [exact H|].
  destruct H as (new & _ & _ & H2 & _). intros Hwn k c Hk.
  destruct (H2 k c Hk) as [Hold|[_ Hs]]; [now apply (Hwn k c)|exact Hs].
Qed.

(** *** The best loss that a checkpoint holds *)

Lemma saves_hold_app b0 (new evs : list Event) :
  saves_hold_running_minimum b0 new ->
  (forall pre st c post,
     evs = pre ++ TorchSave st c :: post ->
     best_loss c = fold_left py_min (map Fin (logged_losses (new ++ pre))) b0) ->
  saves_hold_running_minimum b0 (new ++ evs).
Proof.
  intros Hnew Hevs pre st c post Heq.
  apply app_eq_app in Heq. destruct Heq as (l & [[Hn Hl]|[Hp Hl]]).
  - destruct l as [|e l].
    + cbn in Hl. rewrite app_nil_r in Hn. subst pre.
      rewrite <- (app_nil_r new). apply (Hevs [] st c post). now rewrite <- Hl.
    + injection Hl as <- _. now apply (Hnew pre st c l).
  - subst pre. now apply (Hevs l st c post).
Qed.

Lemma running_minimum_quiet b0 (w w1 w2 : World) evs :
  (exists new, events w1 = events w ++ new /\
     self_best_loss w1 = fold_left py_min (map Fin (logged_losses new)) b0 /\
     saves_hold_running_minimum b0 new) ->
  events w2 = events w1 ++ evs ->
  self_best_loss w2 = self_best_loss w1 ->
  logged_losses evs = [] ->
  (forall k c, ~ In (TorchSave k c) evs) ->
  exists new, events w2 = events w ++ new /\
     self_best_loss w2 = fold_left py_min (map Fin (logged_losses new)) b0 /\
     saves_hold_running_minimum b0 new.
Proof.
  intros (new & E & Hb & Hs) He Hbest Hl Hno. exists (new ++ evs).
  split; [now rewrite He, E, app_assoc|]. split.
  - now rewrite logged_losses_app, Hl, app_nil_r, Hbest.
  - apply saves_hold_app; [exact Hs|].
    intros pre st c post ->. exfalso. apply (Hno st c).
    apply in_or_app. right. now left.
Qed.

Lemma running_minimum_closed b0 self dataset_wrapper (w : World) :
  batch_closed consts self dataset_wrapper
    (fun _ _ w1 =>
       exists new, events w1 = events w ++ new /\
         self_best_loss w1 = fold_left py_min (map Fin (logged_losses new)) b0 /\
         saves_hold_running_minimum b0 new).
Proof.
  unfold batch_closed. cbn zeta. split; [|split; [|split; [|split; [|split]]]].
  - intros st m w1 H. exact H.
  - intros ep st m loss w1 (new & E & Hb & Hs) _ _.
    rewrite log_training_loss_run. cbn [fst].
    eexists (new ++ [AddScalar _ "Loss" loss (st + 1); LoggerInfo (MsgStep _ ep (st + 1) loss)]).
    cbn [events self_best_loss]. split; [now rewrite E, app_assoc|]. split.
    + rewrite logged_losses_app, map_app, fold_left_app, <- Hb. reflexivity.
    + apply saves_hold_app; [exact Hs|].
      intros [|e1 [|e2 [|e3 pre]]] st' c post Heq; discriminate.
  - intros ep st m model optimizer w1 (new & E & Hb & Hs) _ _ _.
    rewrite save_checkpoint_run. cbn [fst].
    eexists (new ++ [TorchSave st _; LoggerInfo (MsgCheckpointSaved st)]).
    cbn [events self_best_loss]. split; [now rewrite E, app_assoc|]. split.
    + rewrite logged_losses_app. cbn. now rewrite app_nil_r.
    + apply saves_hold_app; [exact Hs|].
      intros [|e1 [|e2 [|e3 pre]]] st' c post Heq; try discriminate.
      injection Heq as _ <- _. cbn [best_loss]. now rewrite app_nil_r.
  - intros st m model metrics w1 H _ _ _ Hm.
    eapply running_minimum_quiet; [exact H|reflexivity|reflexivity| |].
    + destruct (_evaluate_model_keys _ _ _ _ _ Hm) as (l & a & ->). reflexivity.
    + intros k c. apply log_metrics_events_no_save.
  - intros st m w1 H.
    eapply running_minimum_quiet; [exact H|reflexivity|reflexivity|reflexivity|].
    intros k c [Heq|[]]; discriminate.
  - intros st m w1 H _.
    eapply running_minimum_quiet; [exact H|reflexivity|reflexivity|reflexivity|].
    intros k c [Heq|[]]; discriminate.
Qed.

(** X6. The best loss stored in a checkpoint.  Let [b0] be the best loss
    of the checkpoint that the run resumes from (the trainer's own best
    loss when there is none).  Every checkpoint that the run saves, in
    whichever phase, holds as its best loss the running minimum of [b0]
    and the training losses logged by the run before that save: the
    classification phase that follows a pretraining phase goes on from the
    best loss of the pretraining, it does not start over.  The trainer's
    best loss at the end is that minimum over the whole run. *)
Theorem saved_best_loss_is_running_minimum self0 rank world_size (w : World) :
  let w' := fst (train_and_evaluate_model consts self0 rank world_size w) in
  let b0 := match load_checkpoint w with
            | (_, Ok (Some c)) => best_loss c
            | _ => self_best_loss w
            end in
  exists new,
    events w' = events w ++ new /\
    self_best_loss w' = fold_left py_min (map Fin (logged_losses new)) b0 /\
    saves_hold_running_minimum b0 new.
Proof.
  intros w' b0.
  apply (train_and_evaluate_model_rule
           (fun w1 => exists new, events w1 = events w ++ new /\
              self_best_loss w1 = fold_left py_min (map Fin (logged_losses new)) b0 /\
              saves_hold_running_minimum b0 new)).
  - apply running_minimum_closed.
  - apply running_minimum_closed.
  - intros phase w1 H.
    eapply running_minimum_quiet; [exact H|reflexivity|reflexivity|reflexivity|].
    intros k c [Heq|[]]; discriminate.
  - intros w1 H.
    eapply running_minimum_quiet; [exact H|reflexivity|reflexivity|reflexivity|].
    intros k c [Heq|[]]; discriminate.
  - intros checkpoint Hload. exists []. cbn [events set_best_loss self_best_loss].
    split; [now rewrite app_nil_r|]. split.
    + unfold b0. rewrite Hload. now destruct checkpoint.
    + intros [|e pre] st c post Heq; discriminate.
  - intros e Hload. exists []. split; [now rewrite app_nil_r|]. split.
    + unfold b0. now rewrite Hload.
    + intros [|e' pre] st c post Heq; discriminate.
Qed.

(** *** The steps of the training losses *)

Lemma logged_steps_app (l1 l2 : list Event) :
  logged_steps (l1 ++ l2) = logged_steps l1 ++ logged_steps l2.
Proof.
  induction l1 as [|e l1 IH]; [reflexivity|].
  destruct e as [m|p name value st| |st c]; simpl; rewrite ?IH; try reflexivity.
  destruct (String.eqb name "Loss"); simpl; now rewrite ?IH.
Qed.

Lemma StronglySorted_snoc (l : list Z) x :
  StronglySorted Z.lt l -> Forall (fun y => y < x) l -> StronglySorted Z.lt (l ++ [x]).
Proof.
  induction 1 as [|y l Hl IH Hy]; intros Hx; cbn.
  - repeat constructor.
  - apply Forall_cons_iff in Hx. destruct Hx as [Hyx Hx]. constructor; [auto|].
    apply Forall_app. split; [exact Hy|]. now repeat constructor.
Qed.

Lemma logged_steps_quiet s0 st (w w1 w2 : World) evs :
  (exists new, events w1 = events w ++ new /\
     StronglySorted Z.lt (logged_steps new) /\
     Forall (fun s => s0 < s <= st) (logged_steps new)) ->
  events w2 = events w1 ++ evs ->
  logged_steps evs = [] ->
  exists new, events w2 = events w ++ new /\
     StronglySorted Z.lt (logged_steps new) /\
     Forall (fun s => s0 < s <= st) (logged_steps new).
Proof.
  intros (new & E & Hs & Hb) He Hl. exists (new ++ evs).
  split; [now rewrite He, E, app_assoc|].
  now rewrite logged_steps_app, Hl, app_nil_r.
Qed.

Lemma logged_steps_closed s0 self dataset_wrapper (w : World) :
  batch_closed consts self dataset_wrapper
    (fun st _ w1 =>
       s0 <= st /\
       exists new, events w1 = events w ++ new /\
         StronglySorted Z.lt (logged_steps new) /\
         Forall (fun s => s0 < s <= st) (logged_steps new)).
Proof.
  unfold batch_closed. cbn zeta. split; [|split; [|split; [|split; [|split]]]].
  - intros st m w1 (Hle & new & E & Hs & Hb). split; [lia|].
    exists new. split; [exact E|]. split; [exact Hs|].
    eapply List.Forall_impl; [|exact Hb]. cbn beta. intros; lia.
  - intros ep st m loss w1 (Hle & new & E & Hs & Hb) _ _.
    rewrite log_training_loss_run. cbn [fst]. split; [lia|].
    eexists (new ++ [AddScalar _ "Loss" loss (st + 1); LoggerInfo (MsgStep _ ep (st + 1) loss)]).
    cbn [events]. split; [now rewrite E, app_assoc|].
    rewrite logged_steps_app. cbn. split.
    + apply StronglySorted_snoc; [exact Hs|].
      eapply List.Forall_impl; [|exact Hb]. cbn beta. intros; lia.
    + apply Forall_app. split.
      * eapply List.Forall_impl; [|exact Hb]. cbn beta. intros; lia.
      * repeat constructor; lia.
  - intros ep st m model optimizer w1 [Hle H] _ _ _.
    rewrite save_checkpoint_run. cbn [fst]. split; [exact Hle|].
    eapply logged_steps_quiet; [exact H|reflexivity|reflexivity].
  - intros st m model metrics w1 [Hle H] _ _ _ Hm. split; [exact Hle|].
    eapply logged_steps_quiet; [exact H|reflexivity|].
    destruct (_evaluate_model_keys _ _ _ _ _ Hm) as (l & a & ->). reflexivity.
  - intros st m w1 [Hle H]. split; [exact Hle|].
    eapply logged_steps_quiet; [exact H|reflexivity|reflexivity].
  - intros st m w1 [Hle H] _. split; [exact Hle|].
    eapply logged_steps_quiet; [exact H|reflexivity|reflexivity].
Qed.

(** X7. The steps under which a phase sends its training losses to
    tensorboard go strictly up, and all lie above the step of the
    checkpoint that the phase resumed from (above 0 without one): no step
    gets two losses, and a resumed phase never writes at or below the step
    it resumed from.  When the phase completes, none lies above the final
    value of the step counter.  This holds for every phase, trainer,
    worker and state, also when the phase ends in an error. *)
Theorem logged_steps_increase_within_a_phase self phase checkpoint (w : World) :
  let r := train_phase consts self phase checkpoint w in
  exists new,
    events (fst r) = events w ++ new /\
    StronglySorted Z.lt (logged_steps new) /\
    Forall (fun s => start_step checkpoint < s) (logged_steps new) /\
    match snd r with
    | Ok loc' => Forall (fun s => s <= l_step loc') (logged_steps new)
    | Raise _ => True
    end.
Proof.
  intros r.
  pose (K := fun (st : Z) (_ : Metrics) (w1 : World) =>
               start_step checkpoint <= st /\
               exists new, events w1 = events w ++ new /\
                 StronglySorted Z.lt (logged_steps new) /\
                 Forall (fun s => start_step checkpoint < s <= st) (logged_steps new)).
  assert (H : wpx (train_phase consts self phase checkpoint)
                  (fun loc' w' => K (l_step loc') (l_metrics loc') w')
                  (fun _ w' => exists st m, K st m w') w).
  { apply train_phase_closed.
    - apply logged_steps_closed.
    - split; [|split].
      + intros p st m w1 [Hle H]. split; [exact Hle|].
        eapply logged_steps_quiet; [exact H|reflexivity|reflexivity].
      + intros st m w1 [Hle H]. split; [exact Hle|].
        eapply logged_steps_quiet; [exact H|reflexivity|reflexivity].
      + intros st m b w1 H. exact H.
    - split; [lia|]. exists []. rewrite app_nil_r. repeat constructor. }
  unfold wpx in H. fold r in H. destruct r as [w' [loc'|e]]; cbn [fst snd].
  - destruct H as (_ & new & E & Hs & Hb). exists new.
    split; [exact E|]. split; [exact Hs|].
    split; (eapply List.Forall_impl; [|exact Hb]); cbn beta; intros; lia.
  - destruct H as (st & m & _ & new & E & Hs & Hb). exists new.
    split; [exact E|]. split; [exact Hs|]. split; [|exact I].
    eapply List.Forall_impl; [|exact Hb]. cbn beta. intros; lia.
Qed.

(** *** The metrics that a run returns *)

Lemma last_metrics_app (l1 l2 : list Event) : forall m,
  last_metrics (l1 ++ l2) m = last_metrics l2 (last_metrics l1 m).
Proof.
  induction l1 as [|e l1 IH]; intros m; [reflexivity|].
  destruct e as [[]| | |]; cbn; apply IH.
Qed.

Lemma last_metrics_log_metrics_events p st metrics m :
  last_metrics (log_metrics_events p st metrics) m = metrics.
Proof.
  unfold log_metrics_events. rewrite last_metrics_app. reflexivity.
Qed.

Lemma last_metrics_quiet self dataset_wrapper (base : list Event) m (w1 w2 : World) evs :
  (exists cls, events w1 = base ++ cls /\
     (forall p, ~ In (LoggerInfo (MsgTraining p)) cls) /\
     m = last_metrics cls [] /\
     (m = [] \/ exists model, _evaluate_model self model dataset_wrapper TEST = Ok m)) ->
  events w2 = events w1 ++ evs ->
  (forall p, ~ In (LoggerInfo (MsgTraining p)) evs) ->
  (forall m0, last_metrics evs m0 = m0) ->
  exists cls, events w2 = base ++ cls /\
     (forall p, ~ In (LoggerInfo (MsgTraining p)) cls) /\
     m = last_metrics cls [] /\
     (m = [] \/ exists model, _evaluate_model self model dataset_wrapper TEST = Ok m).
Proof.
  intros (cls & E & Hno & Hm & Hev) He Hnew Hlast. exists (cls ++ evs).
  split; [now rewrite He, E, app_assoc|]. split; [|split; [|exact Hev]].
  - intros p Hin. apply in_app_or in Hin. destruct Hin as [Hin|Hin];
      [now apply (Hno p)|now apply (Hnew p)].
  - now rewrite last_metrics_app, Hlast.
Qed.

Lemma last_metrics_closed self dataset_wrapper (base : list Event) :
  batch_closed consts self dataset_wrapper
    (fun _ m w1 =>
       exists cls, events w1 = base ++ cls /\
         (forall p, ~ In (LoggerInfo (MsgTraining p)) cls) /\
         m = last_metrics cls [] /\
         (m = [] \/ exists model, _evaluate_model self model dataset_wrapper TEST = Ok m)).
Proof.
  unfold batch_closed. cbn zeta. split; [|split; [|split; [|split; [|split]]]].
  - intros st m w1 H. exact H.
  - intros ep st m loss w1 H _ _. rewrite log_training_loss_run. cbn [fst].
    eapply last_metrics_quiet; [exact H|reflexivity| |reflexivity].
    intros p [Heq|[Heq|[]]]; discriminate.
  - intros ep st m model optimizer w1 H _ _ _. rewrite save_checkpoint_run. cbn [fst].
    eapply last_metrics_quiet; [exact H|reflexivity| |reflexivity].
    intros p [Heq|[Heq|[]]]; discriminate.
  - intros st m model metrics w1 (cls & E & Hno & _ & _) _ _ _ Hm.
    exists (cls ++ log_metrics_events (phase_name dataset_wrapper) st metrics).
    cbn [add_events events]. split; [now rewrite E, app_assoc|]. split; [|split].
    + intros p Hin. apply in_app_or in Hin. destruct Hin as [Hin|Hin];
        [now apply (Hno p)|].
      unfold log_metrics_events in Hin. apply in_app_or in Hin.
      destruct Hin as [Hin|[Heq|[]]]; [|discriminate].
      apply in_map_iff in Hin. destruct Hin as (kv & Heq & _). discriminate.
    + now rewrite last_metrics_app, last_metrics_log_metrics_events.
    + right. now exists model.
  - intros st m w1 H.
    eapply last_metrics_quiet; [exact H|reflexivity| |reflexivity].
    intros p [Heq|[]]; discriminate.
  - intros st m w1 H _.
    eapply last_metrics_quiet; [exact H|reflexivity| |reflexivity].
    intros p [Heq|[]]; discriminate.
Qed.

(** The calls of a phase come after those made before it. *)
Lemma _train_model_appends self phase checkpoint (w : World) :
  phase = CLASSIFICATION \/ phase = AUTOREGRESSIVE ->
  exists new, events (fst (_train_model consts self phase checkpoint w)) = events w ++ new.
Proof.
  intros Hphase.
  assert (H : wpx (_train_model consts self phase checkpoint)
                  (fun _ w' => exists new, events w' = events w ++ new)
                  (fun _ w' => exists new, events w' = events w ++ new) w).
  { unfold _train_model. apply wpx_bind.
    eapply wpx_mono;
      [apply (train_phase_from_start
                (fun _ _ w1 => exists new, events w1 = events w ++ new /\
                                           Forall (on_schedule consts) new));
       [exact Hphase|apply on_schedule_closed|]| |].
    - eapply appended_forall with (w1 := w) (evs := _ :: _);
        [exists []; now rewrite app_nil_r|reflexivity|].
      destruct checkpoint; repeat constructor.
    - cbn beta. intros loc' w' [(new & E & _) _]. now exists new.
    - cbn beta. intros _ w' (_ & _ & new & E & _). now exists new. }
  unfold wpx in H.
  destruct (_train_model consts self phase checkpoint w) as [w' [m|e]]; exact H.
Qed.

(** The metrics that the classification phase returns. *)
Lemma _train_model_classification_metrics self checkpoint (w w1 : World) pre :
  events w1 = events w ++ pre ->
  wpx (_train_model consts self CLASSIFICATION checkpoint)
      (fun metrics w' =>
         exists cls,
           events w' = events w ++ pre ++ LoggerInfo (MsgTraining CLASSIFICATION) :: cls /\
           (forall p, ~ In (LoggerInfo (MsgTraining p)) cls) /\
           metrics = last_metrics cls [] /\
           (metrics = [] \/
            exists model,
              _evaluate_model self model (phase_dataset_wrapper self CLASSIFICATION) TEST
              = Ok metrics))
      (fun _ _ => True) w1.
Proof.
  intros E. unfold _train_model. apply wpx_bind.
  set (base := events w ++ pre ++ [LoggerInfo (MsgTraining CLASSIFICATION)]).
  eapply wpx_mono;
    [apply (train_phase_from_start
              (fun _ m w2 =>
                 exists cls, events w2 = base ++ cls /\
                   (forall p, ~ In (LoggerInfo (MsgTraining p)) cls) /\
                   m = last_metrics cls [] /\
                   (m = [] \/
                    exists model,
                      _evaluate_model self model
                        (phase_dataset_wrapper self CLASSIFICATION) TEST = Ok m)));
     [now left|apply last_metrics_closed|]| |auto].
  - unfold phase_start, base. cbn [events]. rewrite E.
    destruct checkpoint as [c|].
    + exists [LoggerInfo MsgCheckpointLoaded].
      split; [now rewrite <- !app_assoc|]. split; [|split; [reflexivity|now left]].
      intros p [Heq|[]]; discriminate.
    + exists []. split; [now rewrite <- !app_assoc|].
      split; [|split; [reflexivity|now left]]. intros p [].
  - cbn beta. intros loc' w' [(cls & Ew & Hno & Hm & Hev) _]. apply wpx_ret.
    exists cls. split; [|auto]. rewrite Ew. unfold base. now rewrite <- !app_assoc.
Qed.

(** X8. The metrics that a run returns are those of the last evaluation
    of its classification phase, and empty when that phase evaluated
    nothing: the calls of the run end with the announcement of the
    classification phase followed by the calls [cls] of that phase, and
    the value returned is the last metrics logged among [cls].  Metrics
    logged while pretraining are never returned, and the metrics returned
    are those of the model as it was at the last evaluation, on the test
    split of the fine-tuning dataset, whatever was trained after it. *)
Theorem returned_metrics_are_last_evaluation self0 rank world_size (w w' : World) metrics :
  let self := set_ranks self0 rank world_size in
  train_and_evaluate_model consts self0 rank world_size w = (w', Ok metrics) ->
  exists pre cls,
    events w' = events w ++ pre ++ LoggerInfo (MsgTraining CLASSIFICATION) :: cls /\
    (forall p, ~ In (LoggerInfo (MsgTraining p)) cls) /\
    metrics = last_metrics cls [] /\
    (metrics = [] \/
     exists model,
       _evaluate_model self model (phase_dataset_wrapper self CLASSIFICATION) TEST
       = Ok metrics).
Proof.
  intros self Hrun.
  pose proof (load_checkpoint_state w) as Hst.
  destruct (load_checkpoint w) as [w0 [checkpoint|e]] eqn:Hload; cbn in Hst; subst w0.
  2:{ rewrite (train_and_evaluate_model_raise _ _ _ _ _ _ Hload) in Hrun. discriminate. }
  rewrite (train_and_evaluate_model_unfold _ _ _ _ _ _ Hload) in Hrun. fold self in Hrun.
  destruct (pretrain_first self checkpoint).
  - unfold mbind, M_bind, bind in Hrun.
    destruct (_train_model_appends self AUTOREGRESSIVE checkpoint w (or_intror eq_refl))
      as (pre & Epre).
    destruct (_train_model consts self AUTOREGRESSIVE checkpoint w) as [w1 [m|e]];
      [|discriminate].
    cbn [fst] in Epre.
    pose proof (_train_model_classification_metrics self None w w1 pre Epre) as H.
    unfold wpx in H. rewrite Hrun in H. exists pre. exact H.
  - pose proof (_train_model_classification_metrics self checkpoint w w []
                  (eq_sym (app_nil_r _))) as H.
    unfold wpx in H. rewrite Hrun in H. exists []. exact H.
Qed.

(** X9. A run on a checkpoint directory that exists and holds no file
    stops at once with [ValueError]: the error of the checkpoint lookup is
    not caught, no phase is announced, nothing is trained, and the state is
    left as it was. *)
Theorem run_on_empty_directory_raises self0 rank world_size (w : World) :
  checkpoints_dir w = Some ∅ ->
  train_and_evaluate_model consts self0 rank world_size w = (w, Raise ValueError).
Proof.
  intros Hdir. apply train_and_evaluate_model_raise. now apply load_checkpoint_empty.
Qed.

(** *** Runs that complete *)

Lemma never_raises__train_model self phase checkpoint :
  phase_can_run consts self phase ->
  never_raises (_train_model consts self phase checkpoint).
Proof.
  intros Hrun. unfold _train_model.
  apply never_raises_bind; [now apply never_raises_train_phase|].
  intros loc. apply never_raises_ret.
Qed.

(** X11. When a run completes.  A run returns metrics, without error,
    when the checkpoint directory is absent or holds a file, and each phase
    that the run goes through can run: its dataset wrapper has a known
    phase, the batch size is positive, the sampler of the training loader
    can be built (the training split has an example when the run is not
    distributed, since the loader shuffles; the rank lies in
    [0, world_size) when it is), the training split is not empty if the
    graph is to be printed and, on the coordinating worker, the three
    intervals are not zero and the test split is not empty. *)
Theorem run_completes self0 rank world_size (w : World) :
  let self := set_ranks self0 rank world_size in
  checkpoints_dir w <> Some ∅ ->
  phase_can_run consts self CLASSIFICATION ->
  (forall checkpoint,
     load_checkpoint w = (w, Ok checkpoint) ->
     pretrain_first self checkpoint = true ->
     phase_can_run consts self AUTOREGRESSIVE) ->
  exists w' metrics,
    train_and_evaluate_model consts self0 rank world_size w = (w', Ok metrics).
Proof.
  intros self Hdir Hcls Har.
  assert (Hload : exists checkpoint, load_checkpoint w = (w, Ok checkpoint)).
  { destruct (checkpoints_dir w) as [dir|] eqn:E.
    - destruct (load_checkpoint_max w dir E) as (k & c & Hl & _); [congruence|eauto].
    - exists None. now apply load_checkpoint_absent. }
  destruct Hload as [checkpoint Hload].
  rewrite (train_and_evaluate_model_unfold _ _ _ _ _ _ Hload). fold self.
  destruct (pretrain_first self checkpoint) eqn:Hfirst.
  - unfold mbind, M_bind, bind.
    destruct (never_raises__train_model self AUTOREGRESSIVE checkpoint
                (Har _ Hload Hfirst) w) as (w1 & m & ->).
    destruct (never_raises__train_model self CLASSIFICATION None Hcls w1)
      as (w2 & metrics & ->).
    eauto.
  - destruct (never_raises__train_model self CLASSIFICATION checkpoint Hcls w)
      as (w2 & metrics & ->).
    eauto.
Qed.

End Invariants.

(** ** The theorems at work on the small instance *)

(** ** The directory of a run *)

Lemma slash_free_no_slash (a a' r : string) :
  RunPath.slash_free a = true -> a <> String.append a' (String "/"%char r).
Proof.
  revert a. induction a' as [|c a' IH]; intros a Ha Heq.
  - cbn in Heq. subst a. discriminate.
  - destruct a as [|c0 a]; [discriminate|]. cbn in Heq. injection Heq as -> Heq.
    cbn in Ha. apply andb_true_iff in Ha. destruct Ha as [_ Ha].
    exact (IH a Ha Heq).
Qed.

Lemma split_at_slash (a a' r r' : string) :
  RunPath.slash_free a = true -> RunPath.slash_free a' = true ->
  String.append a (String "/"%char r) = String.append a' (String "/"%char r') ->
  a = a' /\ r = r'.
Proof.
  revert a'. induction a as [|c a IH]; intros [|c' a'] Ha Ha' Heq; cbn in Heq.
  - now injection Heq as ->.
  - injection Heq as <- _. discriminate.
  - injection Heq as -> _. discriminate.
  - injection Heq as -> Heq. cbn in Ha, Ha'.
    apply andb_true_iff in Ha. apply andb_true_iff in Ha'.
    destruct (IH a' (proj2 Ha) (proj2 Ha') Heq) as [-> ->]. auto.
Qed.

(** Joining with slashes loses nothing when no part holds a slash. *)
Lemma concat_slash_inj (l1 : list string) : forall l2,
  List.Forall (fun s => RunPath.slash_free s = true) l1 ->
  List.Forall (fun s => RunPath.slash_free s = true) l2 ->
  l1 <> [] -> l2 <> [] ->
  String.concat "/" l1 = String.concat "/" l2 -> l1 = l2.
Proof.
  induction l1 as [|a l1 IH]; intros l2 H1 H2 Hn1 Hn2 Heq; [contradiction|].
  destruct l2 as [|a' l2]; [contradiction|].
  apply List.Forall_cons_iff in H1. destruct H1 as [Ha H1].
  apply List.Forall_cons_iff in H2. destruct H2 as [Ha' H2].
  destruct l1 as [|b l1]; destruct l2 as [|b' l2].
  - cbn in Heq. now subst.
  - exfalso. exact (slash_free_no_slash _ _ _ Ha Heq).
  - exfalso. exact (slash_free_no_slash _ _ _ Ha' (eq_sym Heq)).
  - change (String.append a (String "/"%char (String.concat "/" (b :: l1)))
            = String.append a' (String "/"%char (String.concat "/" (b' :: l2)))) in Heq.
    destruct (split_at_slash _ _ _ _ Ha Ha' Heq) as [-> Hrest].
    f_equal. apply IH; [assumption|assumption|discriminate|discriminate|exact Hrest].
Qed.

(** X10. Two trainers none of whose names holds a slash have the same
    run directory only if they have the same configuration name, the same
    architecture, the same fine-tuning dataset, the same run id and the
    same pretraining dataset, where a pretraining dataset whose name is
    empty counts as none: the path leaves it out ([if
    self._pretrain_dataset]), although the run pretrains on it
    ([is not None]). *)
Theorem relative_path_injective (t1 t2 : RunPath.Trainer) :
  RunPath.slash_free_names t1 = true ->
  RunPath.slash_free_names t2 = true ->
  RunPath.relative_path t1 = RunPath.relative_path t2 ->
  RunPath._config_name t1 = RunPath._config_name t2 /\
  RunPath._arch_name t1 = RunPath._arch_name t2 /\
  RunPath._finetune_dataset t1 = RunPath._finetune_dataset t2 /\
  RunPath._run_id t1 = RunPath._run_id t2 /\
  RunPath.named_pretrain_dataset t1 = RunPath.named_pretrain_dataset t2.
Proof.
  unfold RunPath.slash_free_names, RunPath.relative_path, RunPath.named_pretrain_dataset.
  destruct t1 as [c1 a1 f1 p1 r1], t2 as [c2 a2 f2 p2 r2].
  cbn [RunPath._config_name RunPath._arch_name RunPath._finetune_dataset
       RunPath._pretrain_dataset RunPath._run_id].
  intros H1 H2 Heq.
  repeat (apply andb_true_iff in H1; destruct H1 as [H1 ?]).
  repeat (apply andb_true_iff in H2; destruct H2 as [H2 ?]).
  apply concat_slash_inj in Heq.
  - destruct p1 as [d1|], p2 as [d2|];
      repeat match goal with
             | |- context [String.eqb ?d ""] => destruct (String.eqb_spec d "")
             | H : context [String.eqb ?d ""] |- _ => destruct (String.eqb_spec d "")
             end;
      cbn in Heq; injection Heq; intros;
      repeat match goal with
             | H : String.append _ _ = String.append _ _ |- _ => lazy in H
             end;
      subst; try discriminate; auto 10.
  - destruct p1 as [d1|]; [destruct (String.eqb d1 "")|];
      repeat constructor; assumption.
  - destruct p2 as [d2|]; [destruct (String.eqb d2 "")|];
      repeat constructor; assumption.
  - discriminate.
  - discriminate.
Qed.

Section Instances.

#[local] Existing Instance Toy.framework.
#[local] Existing Instance Toy.registry.

(** C1, at the input on which the code departs from it.  The run has a
    pretraining dataset configured and finds a checkpoint saved by the
    classification phase ([during_pretraining = False], step 2).  It does
    not go on with the classification: it runs the AUTOREGRESSIVE phase
    first, loading the classification checkpoint into it (its steps are 3
    and 4), and then starts the classification from step 1 without any
    checkpoint. *)
Theorem finetune_checkpoint_with_pretrain_dataset_reruns_pretraining :
  let w := init_world (Some {[ 2 := Toy.finetune_checkpoint ]}) in
  let run := train_and_evaluate_model Toy.long_intervals
               (Toy.trainer (Some "wikitext"%string)) None None w in
  load_checkpoint w = (w, Ok (Some Toy.finetune_checkpoint)) /\
  during_pretraining Toy.finetune_checkpoint = false /\
  snd run = Ok [] /\
  events (fst run)
  = [LoggerInfo (MsgTraining AUTOREGRESSIVE);
     LoggerInfo MsgCheckpointLoaded;
     LoggerInfo MsgParamsCount;
     AddScalar AUTOREGRESSIVE "Loss" (inject_Z 8) 3;
     LoggerInfo (MsgStep AUTOREGRESSIVE 0 3 (inject_Z 8));
     AddScalar AUTOREGRESSIVE "Loss" (inject_Z 7) 4;
     LoggerInfo (MsgStep AUTOREGRESSIVE 0 4 (inject_Z 7));
     LoggerInfo (MsgTraining CLASSIFICATION);
     LoggerInfo MsgParamsCount;
     AddScalar CLASSIFICATION "Loss" (inject_Z 10) 1;
     LoggerInfo (MsgStep CLASSIFICATION 0 1 (inject_Z 10));
     AddScalar CLASSIFICATION "Loss" (inject_Z 9) 2;
     LoggerInfo (MsgStep CLASSIFICATION 0 2 (inject_Z 9))].
Proof. vm_compute. repeat split. Qed.

(** C7 on the three test examples in batches of two. *)
Lemma evaluate_accuracy_and_mean_loss_witness :
  0 < Z.of_nat (length (get_dataset (get_dataset_by_name None CLASSIFICATION) TEST)) /\
  0 < batch_size (Toy.trainer None) /\
  exists loss accuracy,
    _evaluate_model (Toy.trainer None) 0 (get_dataset_by_name None CLASSIFICATION) TEST
      = Ok [("Test Loss"%string, loss); ("Test Accuracy"%string, accuracy)] /\
    (0 <= accuracy)%Q /\ (accuracy <= 100)%Q.
Proof.
  split; [cbn; lia|]. split; [cbn; lia|].
  destruct (evaluate_accuracy_and_mean_loss
              (Toy.trainer None) 0 (get_dataset_by_name None CLASSIFICATION) TEST)
    as (loss & accuracy & Heq & _ & Hlo & Hhi & _); [cbn; lia|cbn; lia|].
  exists loss, accuracy. auto.
Defined.

(** C9 on a wrapper without examples. *)
Lemma evaluate_empty_split_raises_witness :
  get_dataset Toy.empty_wrapper TEST = [] /\
  0 < batch_size (Toy.trainer None) /\
  _evaluate_model (Toy.trainer None) 0 Toy.empty_wrapper TEST = Raise ZeroDivisionError.
Proof.
  split; [reflexivity|]. split; [cbn; lia|].
  apply (evaluate_empty_split_raises (Toy.trainer None) 0 Toy.empty_wrapper TEST);
    [reflexivity|cbn; lia].
Defined.

(** C4 on a classification phase of two epochs of two batches, resumed
    from the checkpoint of epoch 0 and step 2: the phase ends at step 6, and
    the training losses are logged at steps 3 and 4 in the first epoch and,
    the counter going on across the epoch boundary, at steps 5 and 6 in the
    second. *)
Lemma step_counter_increasing_witness :
  let self := Toy.trainer_two_epochs None in
  let dl := train_loader self (get_dataset (phase_dataset_wrapper self CLASSIFICATION) TRAIN) in
  phase_can_run Toy.consts self CLASSIFICATION /\
  batches_in dl 0 = 2 /\ batches_in dl 1 = 2 /\
  exists w' loc',
    train_phase Toy.consts self CLASSIFICATION
                (Some Toy.finetune_checkpoint) (init_world None) = (w', Ok loc') /\
    l_step loc' = 6 /\
    logged_steps (events w') = [3; 4; 5; 6] /\
    In (LoggerInfo (MsgStep CLASSIFICATION 0 4 (inject_Z 7))) (events w') /\
    In (LoggerInfo (MsgStep CLASSIFICATION 1 5 (inject_Z 6))) (events w').
Proof.
  intros self dl.
  assert (Hrun : phase_can_run Toy.consts self CLASSIFICATION).
  { split; [auto|]. split; [|split; [cbn; lia|split; [discriminate|discriminate]]].
    split; [auto|]. intros _. cbn. repeat split; discriminate || lia. }
  split; [exact Hrun|]. split; [reflexivity|]. split; [reflexivity|].
  destruct (step_counter_increasing Toy.consts self CLASSIFICATION
              (Some Toy.finetune_checkpoint) (init_world None) Hrun)
    as (_ & _ & _ & w' & loc' & Heq & Hst).
  exists w', loc'. split; [exact Heq|]. split; [rewrite Hst; reflexivity|].
  assert (Hw : w' = fst (train_phase Toy.consts self CLASSIFICATION
                           (Some Toy.finetune_checkpoint) (init_world None)))
    by now rewrite Heq.
  rewrite Hw. split; [vm_compute; reflexivity|].
  split; vm_compute; tauto.
Defined.

(** C5 on the first batch of a new trainer, whose loss is 10, and on the
    run of two steps, whose losses are 10 and 9. *)
Lemma best_loss_running_minimum_witness :
  let self := Toy.trainer None in
  let dataset_wrapper := phase_dataset_wrapper self CLASSIFICATION in
  let loc := {| l_model := 0; l_optimizer := 0; l_step := 0; l_metrics := [] |} in
  let w2 := fst (train_batch Toy.consts self dataset_wrapper (CrossEntropyLoss None) 0
                             (0, [(0, 0); (1, 1)]) loc (init_world None)) in
  let w' := fst (train_and_evaluate_model Toy.consts self None None (init_world None)) in
  self_best_loss (init_world None) = Inf /\
  self_best_loss w2 = Fin (inject_Z 10) /\
  logged_losses (events w2) = [inject_Z 10] /\
  logged_losses (events w') = [inject_Z 10; inject_Z 9] /\
  self_best_loss w' = Fin (inject_Z 9).
Proof.
  intros self dataset_wrapper loc w2 w'.
  destruct (best_loss_running_minimum Toy.consts self None None None)
    as (Hbatch & _ & _ & Hrun & _).
  destruct (Hbatch self dataset_wrapper (CrossEntropyLoss None) 0
                   (0, [(0, 0); (1, 1)]) loc (init_world None))
    as [Hmaster _]; [left; reflexivity|].
  destruct Hmaster as (rest & Hrest & Hbest & Hevents); [reflexivity|discriminate|].
  split; [reflexivity|]. split; [exact Hbest|].
  split; [unfold w2; rewrite Hevents; cbn; now rewrite Hrest|].
  split; [vm_compute; reflexivity|].
  unfold w'. rewrite Hrun. vm_compute. reflexivity.
Defined.

(** C8 on the scenario itself: one epoch, batches of two, four training
    examples, intervals of 100. *)
Lemma short_run_saves_and_evaluates_nothing_witness :
  (epochs (Toy.trainer None) = 1 /\ batch_size (Toy.trainer None) = 2 /\
   length (get_dataset (get_dataset_by_name (Some "imdb"%string) CLASSIFICATION) TRAIN)
   = 4%nat /\
   2 < SAVE_STEP Toy.long_intervals /\ 2 < EVAL_STEP Toy.long_intervals) /\
  exists w',
    train_and_evaluate_model Toy.long_intervals (Toy.trainer None) None None (init_world None)
    = (w', Ok []) /\
    checkpoints_dir w' = None.
Proof.
  split; [repeat split; cbn; lia|].
  destruct (short_run_saves_and_evaluates_nothing Toy.long_intervals (Toy.trainer None)
              None None (init_world None))
    as (w' & Heq & Hdir & _); try reflexivity; try (cbn; lia).
  exists w'. auto.
Defined.

(** C10 on the worker of rank 1 of two. *)
Lemma worker_run_returns_empty_metrics_witness :
  1 <> 0 /\
  exists w',
    train_and_evaluate_model Toy.consts (Toy.trainer (Some "wikitext"%string))
                             (Some 1) (Some 2) (init_world None) = (w', Ok []) /\
    self_best_loss w' = Inf.
Proof.
  split; [discriminate|].
  destruct (worker_run_returns_empty_metrics Toy.consts (Toy.trainer (Some "wikitext"%string))
              1 (Some 2) (init_world None)) as [_ H]; [discriminate|].
  destruct (H None) as (w' & Heq & _ & Hbest); [reflexivity|cbn; lia| |].
  - intros phase [-> | [-> _]]; (split; [auto|cbn; lia]).
  - exists w'. auto.
Defined.

(** C3 on a run that finds the pretraining checkpoint of step 4. *)
Lemma pretraining_checkpoint_consumed_once_witness :
  let w := init_world (Some {[ 4 := Toy.pretrain_checkpoint ]}) in
  let self0 := Toy.trainer (Some "wikitext"%string) in
  load_checkpoint w = (w, Ok (Some Toy.pretrain_checkpoint)) /\
  during_pretraining Toy.pretrain_checkpoint = true /\
  train_and_evaluate_model Toy.consts self0 None None w
  = (_train_model Toy.consts (set_ranks self0 None None) AUTOREGRESSIVE
                  (Some Toy.pretrain_checkpoint)
     ≫= fun _ => _train_model Toy.consts (set_ranks self0 None None) CLASSIFICATION None) w /\
  pretrain_then_finetune_trace
    w (fst (train_and_evaluate_model Toy.consts self0 None None w)).
Proof.
  intros w self0.
  assert (Hload : load_checkpoint w = (w, Ok (Some Toy.pretrain_checkpoint)))
    by (vm_compute; reflexivity).
  split; [exact Hload|]. split; [reflexivity|].
  destruct (pretraining_checkpoint_consumed_once Toy.consts self0 None None w
              Toy.pretrain_checkpoint Hload eq_refl) as (Hrun & Htrace & _).
  - intros phase [-> | ->]; reflexivity.
  - split; assumption.
Defined.

(** X1 on a directory that holds the checkpoint of step 2, for a save at
    step 4. *)
Lemma save_then_load_latest_witness :
  let w := {| self_best_loss := Fin (inject_Z 7);
              checkpoints_dir := Some {[ 2 := Toy.finetune_checkpoint ]};
              events := [] |} in
  let w' := fst (save_checkpoint (F := Toy.framework) 4 4 0 4 true w) in
  load_checkpoint w' = (w', Ok (Some Toy.pretrain_checkpoint)).
Proof.
  apply (save_then_load_latest (F := Toy.framework) 4 4 0 4 true
           {| self_best_loss := Fin (inject_Z 7);
              checkpoints_dir := Some {[ 2 := Toy.finetune_checkpoint ]};
              events := [] |}).
  intros k c H. cbn [checkpoints_dir from_option id] in H.
  apply lookup_singleton_Some in H. lia.
Defined.

(** X2 on a directory that holds the pretraining checkpoint of step 4, for
    a save of the classification phase at step 2. *)
Lemma save_below_latest_keeps_latest_witness :
  let w := init_world (Some {[ 4 := Toy.pretrain_checkpoint ]}) in
  let w' := fst (save_checkpoint (F := Toy.framework) 2 2 0 2 false w) in
  load_checkpoint w = (w, Ok (Some Toy.pretrain_checkpoint)) /\
  load_checkpoint w' = (w', Ok (Some Toy.pretrain_checkpoint)).
Proof.
  apply (save_below_latest_keeps_latest (F := Toy.framework) 2 2 0 2 false
           (init_world (Some {[ 4 := Toy.pretrain_checkpoint ]}))
           {[ 4 := Toy.pretrain_checkpoint ]} 4 Toy.pretrain_checkpoint).
  - reflexivity.
  - apply lookup_singleton_eq.
  - intros k' c' H. apply lookup_singleton_Some in H. lia.
  - lia.
Defined.

(** X8 on a run of two steps that evaluates at step 2. *)
Lemma returned_metrics_are_last_evaluation_witness :
  let r := train_and_evaluate_model Toy.consts (Toy.trainer None) None None
             (init_world None) in
  exists pre cls metrics,
    snd r = Ok metrics /\ metrics <> [] /\
    events (fst r) = pre ++ LoggerInfo (MsgTraining CLASSIFICATION) :: cls /\
    metrics = last_metrics cls [].
Proof.
  intros r.
  pose (metrics := match snd r with Ok m => m | Raise _ => [] end).
  destruct (returned_metrics_are_last_evaluation Toy.consts (Toy.trainer None) None None
              (init_world None) (fst r) metrics)
    as (pre & cls & E & _ & Hm & _); [vm_compute; reflexivity|].
  exists pre, cls, metrics.
  split; [vm_compute; reflexivity|]. split; [vm_compute; discriminate|].
  split; [exact E|exact Hm].
Defined.

(** X9 on a new trainer whose directory exists and is empty. *)
Lemma run_on_empty_directory_raises_witness :
  train_and_evaluate_model Toy.consts (Toy.trainer None) None None (init_world (Some ∅))
  = (init_world (Some ∅), Raise ValueError).
Proof.
  apply (run_on_empty_directory_raises Toy.consts (Toy.trainer None) None None
           (init_world (Some ∅))).
  reflexivity.
Defined.

(** X10 on two trainers that differ in their pretraining dataset only, one
    having the empty name and the other none: they share their directory. *)
Lemma relative_path_injective_witness :
  RunPath.relative_path RunPath.with_empty_pretrain = "try1/s4/imdb/run0"%string /\
  RunPath.relative_path RunPath.without_pretrain = "try1/s4/imdb/run0"%string /\
  RunPath.named_pretrain_dataset RunPath.with_empty_pretrain
  = RunPath.named_pretrain_dataset RunPath.without_pretrain.
Proof.
  split; [reflexivity|]. split; [reflexivity|].
  apply (relative_path_injective RunPath.with_empty_pretrain RunPath.without_pretrain);
    reflexivity.
Defined.

(** X11 on a run without checkpoint directory. *)
Lemma run_completes_witness :
  exists w' metrics,
    train_and_evaluate_model Toy.consts (Toy.trainer None) None None (init_world None)
    = (w', Ok metrics).
Proof.
  apply (run_completes Toy.consts (Toy.trainer None) None None (init_world None)).
  - discriminate.
  - split; [auto|]. split; [|split; [cbn; lia|split; [discriminate|discriminate]]].
    split; [auto|]. intros _. cbn. repeat split; discriminate || lia.
  - intros checkpoint Hload Hfirst. vm_compute in Hload.
    injection Hload as <-. discriminate.
Defined.

End Instances.
